(* ===== verification/_CoqProject ===== *)
-Q . S2P
Prelude.v
PyStr.v
Segmenter.v
Ranking.v
Cosine.v
CosineReal.v
Rounding.v
AnswerExtractor.v
VectorStore.v
Trainer.v
Orchestrator.v
JsonString.v
Json.v
QuerySpec.v
Main.v
Server.v
Threads.v
Process.v
