(* ===== verification/Prelude.v ===== *)
(** * Power-Assistant: a verification development of src/backend/app.py

    The program is one Flask application, [src/backend/app.py], a
    question-answering bot over one PDF document.  Its parts, and the
    files that model them (each file opens with its own summary):

    - [Prelude] (this file): code points and Python strings ([pystr],
      a list of [N]), CPython's whitespace table ([is_space]), the
      class [UnicodeDB] for [\w] and [str.lower] (instance [ascii_db],
      exact on ASCII), the rewrite database [pyb], the hint database
      [pydb], the tactic [bsimpl] and the list lemmas the files share.
    - [PyStr]: [str.strip], [str.lower], [str.split(sep)] (by
      well-founded recursion with Equations) and [sep.join], with
      [join sep (split sep s) = s].
    - [Segmenter]: [extract_pdf_text] (lines 27-40): the
      [re.split] with a capturing group and a [(?<=\n)] lookbehind
      ([chunk_match], [re_split_go]), then strip and filter.
    - [Ranking]: the interface [TotalLeb] (a total boolean preorder on
      scores) and, against it, the stable descending sort of
      [sorted(..., reverse=True)] (line 164) and [torch.argmax]
      (line 130).
    - [Cosine]: [util.pytorch_cos_sim] (line 129), computed exactly on
      rationals as a numerator and a squared denominator, with torch's
      [eps = 1e-12] clamp; [CosineReal] relates it to the real-number
      formula ([cos_R], [torch_cos_R]).
    - [Rounding]: [round(confidence_score, 2)] (line 147), Python's
      correctly rounded [round] (half to even, [-0.0] kept) computed
      exactly on the similarity with an integer square root ([round2]).
    - [AnswerExtractor]: [extract_best_sentence] (lines 155-166), its
      sentence regex with three lookbehinds, the fuzzy-ratio sort and
      the top-two join.
    - [VectorStore]: the SQLite table [pdf_chunks] as a record of rows
      with the AUTOINCREMENT counter [sqlite_seq], the statements of
      [compute_and_store_embeddings] (lines 43-59) run in a transaction
      that commits or rolls back, [load_data_from_db] (lines 62-71),
      the table creation of the main block ([init_db]); [Pickle] is
      the interface the store needs from [pickle] (its round-trip law).
    - [Trainer]: [train_chatbot] (lines 74-93), the Q&A pairs cut from
      each chunk and the flattened conversation given to ChatterBot.
    - [Orchestrator]: the [/query] handler in a monad [M] that threads
      ChatterBot's state, records the calls to the bot, the database
      and the encoder as a trace of [event]s, and carries the
      exceptions Flask answers with an error 500: [query] (lines
      103-113) reads the query and calls the bot, [after_bot] (lines
      114-149) is the rest, the confidence sent as [round2];
      [format_response] (lines 169-182).
    - [QuerySpec]: the state machine of the design (section 4.5) as an
      inductive [step] relation over real-valued similarities, and the
      refinement of it by [query].
    - [Main]: the [__main__] block (lines 185-198): table creation,
      ingestion and training in sequence; and the design's end-to-end
      scenario run on the code.
    - [Server]: the Flask application (lines 14, 17-24, 96-103, 199):
      its URL map with Flask's automatic HEAD and OPTIONS and its
      404/405/415 rejections, [home], the [/query] route with uncaught
      exceptions as error 500 ([dispatch], [serve]), and the life of
      the process as a step relation [app_step]: boot (with any
      statement failures), then requests served forever ([app.run]),
      each run to its end: the process seen one request at a time,
      without the reloader ([Process] adds both).
    - [JsonString], [Json]: the body [jsonify] sends, [json.dumps] with
      [indent=2], [sort_keys=True] and [ensure_ascii=True]
      ([encode_basestring_ascii] with its surrogate pairs, [dumps],
      [float_repr] for the rounded confidence), the dictionaries of the
      four replies ([response_json]), and a model of the client's
      [json.loads] ([scanstring], [parse_value], [loads]) to state what
      a reader of the reply gets.
    - [Threads]: [app.run] with Flask's default [threaded=True]: each
      request is a thread ([thread]) whose atomic steps
      ([thread_step]) are its accesses to the shared server state (the
      dispatch and body read, [chatbot.get_response], the rest of the
      handler); [wstep] runs any thread, so every interleaving is a
      run; [run_schedule] runs a given schedule.
    - [Process]: the whole process under [app.run(debug=True)]
      (lines 185-199), whose reloader runs the main block in the parent
      and again in a child that serves: [pstate] (parent booting,
      child booting, child serving with its threads and the log of
      accepted requests, crashed) and [pstep] (boots with any
      statement failures, a request accepted, a thread step, a reload
      restarting the child on the persisted files).

    How they interact: [Server] boots the process with [Main], which
    stores the chunks of [Segmenter] with
    their embeddings through [VectorStore] and trains the bot
    ([Trainer]); a request goes to [Orchestrator.query], which asks the
    bot, then loads the corpus from [VectorStore], ranks the
    similarities of [Cosine] with [Ranking.argmax] and answers with
    [AnswerExtractor], the reply rounded by [Rounding] and sent as the
    JSON text of [Json].  Concurrent requests ([Threads]) interleave at
    the bot call, which reads and changes the shared ChatterBot state;
    the corpus is only read while serving.  The external capabilities (the sentence
    encoder, ChatterBot, pdfminer, rapidfuzz) are parameters: the record
    [Orchestrator.externals], and function arguments elsewhere.

    What the theorems show, by group:
    - the handler ([Orchestrator]): its reply on every path (empty
      query, ChatterBot accepted, semantic answer, out of scope, empty
      corpus, failed load) and the order of its external calls; and
      ([QuerySpec]) on a well-shaped corpus it refines the design's
      state machine, which is deterministic and total;
    - the process ([Server]): in every reachable serving state the
      database holds exactly the document's chunks and embeddings (an
      invariant by rule induction on [app_step]), so every JSON string
      query is answered with HTTP 200 (liveness); replies follow the
      JSON schema of the code; the routes of app.py answer other
      methods with 405, other paths with 404 and a body that is not
      JSON with 415, changing nothing;
    - retrieval ([Ranking], [Cosine], [CosineReal]): [argmax] returns
      the first maximum and equals a reference definition; the exact
      similarity is torch's formula, lies in [[-1, 1]], is 1 on a vector
      and itself (0 for the zero vector), and the rational tests decide
      the real comparisons; a stored query embedding is always accepted;
    - segmentation ([Segmenter]): chunks are the text less whitespace,
      stripped and non-empty;
    - storage ([VectorStore], [Main]): store-then-load round trip,
      atomicity under statement failures, the table invariant, ids after
      [DELETE], serialization errors, the start-up's ingestion;
    - extraction and training ([AnswerExtractor], [Trainer]): the
      sentence split round trip, the answer as the two best sentences
      in stable descending order of score, the shape of the trained
      pairs and conversation;
    - rounding ([Rounding]): [round2] is the nearest hundredth of the
      real similarity, ties to even, the unique solution of
      [round2_spec]; an accepted answer's confidence is 0.50 to 1.00;
    - replies ([JsonString], [Json]): every string literal, every
      well-formed document read back by [json.loads] give what was
      sent (keys sorted);
    - concurrency ([Threads]): every interleaving of the request
      threads that completes is linearizable, the replies, traces and
      final state being those of serving the requests one at a time in
      the order of their bot calls (an invariant [lin_inv] preserved by
      every step);
    - the whole process ([Process]): an invariant [pinv], established
      by every boot and kept by every event, gives in every reachable
      serving state the state the child started serving in (the one
      its boot committed, the database holding the document) and the
      linearizability of all replies sent so far from it, hence a JSON reply
      for every answered JSON string query; and a fault-free start
      ingests the document twice (ids [n+1 .. 2n] on a fresh
      database) and trains the bot twice.

    Bounds and recursion: the JSON reader is given
    fuel [1 + length] of its input ([loads], [decode_string_literal]):
    each call consumes at least one character, and the round-trip
    theorems show that this fuel never runs out on the text [dumps]
    writes.  The two scans that
    are not structural ([PyStr.split_go], [Segmenter.re_split_go]) are
    defined with Equations by well-founded recursion on the length of
    the remaining input, so they are total and compute by [vm_compute].
    Integers are Python's unbounded [int] ([nat], [N]) and SQLite
    rowids, far below 2^63 for any document; no wrap-around arises.

    What is not modelled, and why: float32 arithmetic (similarities are
    exact rationals; ties, the 0.5 threshold and [round(x, 2)] are
    decided on the exact value, not on the float torch computes); the
    HTTP layer below the reply body (status lines, headers, the bytes
    of the templates and static files); ChatterBot's internals, including what
    [ListTrainer.train] stores (the trainer's state change is an
    abstract function, so the Trainer component is partly modelled);
    the sentence encoder, pdfminer and rapidfuzz (parameters); the byte format of
    [pickle] (only its round-trip law); the full Unicode database
    (the class [UnicodeDB]); [print] output; what happens inside a
    ChatterBot call (each [get_response] is one atomic step of its
    thread: two overlapping calls are not split further, as
    ChatterBot's storage adapter is not modelled); the
    reloader's watching of source files (a reload is a step that may
    happen at any time); ingestion while
    serving (the code never does it). *)

From Stdlib Require Import List Arith Lia Bool NArith Ascii String.
Import ListNotations.
Export String.StringSyntax.

(** ** Characters and Python strings

    A Python [str] is a sequence of Unicode code points; a code point is
    an [N].  [pystr] is the type of Python strings in the whole
    development. *)

Definition char := N.
Definition pystr := list char.

Declare Scope py_scope.
Delimit Scope py_scope with py.

(** ASCII literals: [py "abc"] is the Python string ['abc']. *)
Fixpoint of_string (s : string) : pystr :=
  match s with
  | EmptyString => []
  | String a s' => N_of_ascii a :: of_string s'
  end.

Notation "'py' s" := (of_string s%string) (at level 1, s at level 0) : py_scope.
Open Scope py_scope.

Definition ch_tab : char := 9%N.
Definition ch_nl : char := 10%N.
Definition ch_space : char := 32%N.
Definition ch_dash : char := 45%N.
Definition ch_dot : char := 46%N.
Definition ch_qmark : char := 63%N.
Definition ch_underscore : char := 95%N.
(** U+2022 BULLET, the [•] of the chunk-splitting pattern. *)
Definition ch_bullet : char := 8226%N.

Definition in_range (lo hi c : char) : bool := (lo <=? c)%N && (c <=? hi)%N.

(** [str.isspace] and the regex class [\s] on [str] patterns: the code
    points of CPython's [_PyUnicode_IsWhitespace] table. *)
Definition is_space (c : char) : bool :=
  (in_range 9 13 c || in_range 28 31 c || (c =? 32) || (c =? 133)
   || (c =? 160) || (c =? 5760) || in_range 8192 8202 c
   || (c =? 8232) || (c =? 8233) || (c =? 8239) || (c =? 8287)
   || (c =? 12288))%N.

(** The literal regex ranges [[0-9]], [[A-Z]] and [[a-z]]. *)
Definition is_digit (c : char) : bool := in_range 48%N 57%N c.
Definition is_upper_ascii (c : char) : bool := in_range 65%N 90%N c.
Definition is_lower_ascii (c : char) : bool := in_range 97%N 122%N c.

(** ** The Unicode database

    [\w] ([str.isalnum] or underscore) and [str.lower] depend on the
    Unicode character database, which the development does not
    tabulate: the components that use it are parametric over this
    class, and [ascii_db] is exact on ASCII code points. *)
Class UnicodeDB := {
  u_isalnum : char -> bool;
  u_lower : char -> pystr
}.

#[export] Instance ascii_db : UnicodeDB := {
  u_isalnum c := is_digit c || is_upper_ascii c || is_lower_ascii c;
  u_lower c := if is_upper_ascii c then [(c + 32)%N] else [c]
}.

(** [\w] on a [str] pattern. *)
Definition is_word `{UnicodeDB} (c : char) : bool :=
  u_isalnum c || (c =? ch_underscore)%N.

Definition all_space (s : pystr) : bool := forallb is_space s.

(** ** Automation

    [pyb] rewrites boolean connectives into propositions; [pydb] holds the
    lemmas the components share. *)
Create HintDb pydb discriminated.
Create Rewrite HintDb pyb.

#[export] Hint Rewrite andb_true_iff andb_false_iff orb_true_iff orb_false_iff
  negb_true_iff negb_false_iff N.eqb_eq N.eqb_neq N.leb_le N.leb_gt N.ltb_lt N.ltb_ge
  Nat.eqb_eq Nat.eqb_neq Nat.leb_le Nat.leb_gt Nat.ltb_lt Nat.ltb_ge : pyb.

Ltac bsimpl := autorewrite with pyb in *.

(** Case analysis on every [match] of the goal, innermost scrutinee
    first: the branches of a handler, one goal each. *)
Ltac destruct_matches :=
  repeat match goal with
         | |- context [match ?x with _ => _ end] => destruct x
         end.

(** ** Shared lemmas on lists and whitespace *)

Lemma all_space_app (s t : pystr) :
  all_space (s ++ t) = all_space s && all_space t.
Proof. apply forallb_app. Qed.

Lemma all_space_cons (c : char) (s : pystr) :
  all_space (c :: s) = is_space c && all_space s.
Proof. reflexivity. Qed.

Lemma all_space_rev (s : pystr) : all_space (rev s) = all_space s.
Proof.
  induction s as [|c s IH]; [reflexivity|].
  simpl. rewrite all_space_app, IH. simpl.
  now rewrite andb_true_r, andb_comm.
Qed.

#[export] Hint Rewrite all_space_app all_space_cons all_space_rev : pyb.

Lemma last_app_cons {A} (l : list A) (x d : A) : last (l ++ [x]) d = x.
Proof. induction l as [|y l IH]; [reflexivity|]. simpl. rewrite IH. now destruct l. Qed.

Lemma firstn_skipn_cons {A} (n : nat) (x : A) (l : list A) :
  firstn (S n) (x :: l) ++ skipn (S n) (x :: l) = x :: l.
Proof. apply firstn_skipn. Qed.

#[export] Hint Resolve firstn_skipn_cons : pydb.
