(* ===== verification/PyStr.v ===== *)
(** * Python string operations used by app.py

    [str.strip()], [str.lower()], [str.split(sep)], [sep.join(...)] and
    [len], on the code-point strings of [Prelude], with their laws:
    what [strip] removes is whitespace, [split] and [join] are inverse. *)

From Equations Require Import Equations.
From Stdlib Require Import List Arith Lia Bool NArith.
From S2P Require Import Prelude.
Import ListNotations.

(** ** [str.strip()] *)

Fixpoint lstrip (s : pystr) : pystr :=
  match s with
  | [] => []
  | c :: s' => if is_space c then lstrip s' else s
  end.

Definition rstrip (s : pystr) : pystr := rev (lstrip (rev s)).

Definition strip (s : pystr) : pystr := rstrip (lstrip s).

(** ** [str.lower()] *)

Definition lower `{UnicodeDB} (s : pystr) : pystr := flat_map u_lower s.

(** ** [sep.join(xs)] *)

Fixpoint join (sep : pystr) (xs : list pystr) : pystr :=
  match xs with
  | [] => []
  | [x] => x
  | x :: xs' => x ++ sep ++ join sep xs'
  end.

(** ** [str.split(sep)] for a non-empty separator [d :: sep']

    The scan of CPython's [split]: at each position, if the separator
    starts there, the piece ends and the scan resumes after the
    separator. *)

Fixpoint is_prefix (p s : pystr) : bool :=
  match p, s with
  | [], _ => true
  | _ :: _, [] => false
  | a :: p', b :: s' => (a =? b)%N && is_prefix p' s'
  end.

Equations? split_go (d : char) (sep' : pystr) (acc : pystr) (s : pystr) : list pystr
  by wf (length s) lt :=
  split_go d sep' acc [] := [rev acc];
  split_go d sep' acc (c :: s') with is_prefix (d :: sep') (c :: s') => {
    | true := rev acc :: split_go d sep' [] (skipn (length sep') s');
    | false := split_go d sep' (c :: acc) s' }.
Proof. all: rewrite ?length_skipn; simpl; lia. Qed.

(** [s.split(sep)]; an empty separator raises [ValueError]. *)
Definition str_split (sep s : pystr) : option (list pystr) :=
  match sep with
  | [] => None
  | d :: sep' => Some (split_go d sep' [] s)
  end.

(** ** Laws of [strip] *)

Lemma lstrip_decomp (s : pystr) :
  exists pre, s = pre ++ lstrip s /\ all_space pre = true.
Proof.
  induction s as [|c s [pre [Hs Hp]]]; [now exists []|].
  simpl. destruct (is_space c) eqn:Hc.
  - exists (c :: pre). simpl. rewrite Hc, Hp. now rewrite <- Hs.
  - now exists [].
Qed.

Lemma lstrip_head (s : pystr) c t : lstrip s = c :: t -> is_space c = false.
Proof.
  induction s as [|a s IH]; simpl; [discriminate|].
  destruct (is_space a) eqn:Ha; [exact IH|]. now intros [= -> _].
Qed.

Lemma lstrip_nil_iff (s : pystr) : lstrip s = [] <-> all_space s = true.
Proof.
  induction s as [|c s IH]; simpl; [tauto|].
  destruct (is_space c); simpl; [exact IH|]. split; discriminate.
Qed.

Lemma lstrip_app_space (pre s : pystr) :
  all_space pre = true -> lstrip (pre ++ s) = lstrip s.
Proof.
  induction pre as [|c pre IH]; [reflexivity|].
  simpl. intros H. bsimpl. destruct H as [-> H]. now apply IH.
Qed.

Lemma lstrip_app_keep (s suf : pystr) :
  lstrip s <> [] -> lstrip (s ++ suf) = lstrip s ++ suf.
Proof.
  induction s as [|c s IH]; simpl; [congruence|].
  destruct (is_space c); [exact IH|reflexivity].
Qed.

Lemma lstrip_idem (s : pystr) : lstrip (lstrip s) = lstrip s.
Proof.
  destruct (lstrip s) as [|c t] eqn:E; [reflexivity|].
  simpl. now rewrite (lstrip_head _ _ _ E).
Qed.

Lemma rstrip_decomp (s : pystr) :
  exists suf, s = rstrip s ++ suf /\ all_space suf = true.
Proof.
  destruct (lstrip_decomp (rev s)) as [pre [Hs Hp]].
  exists (rev pre). unfold rstrip. split.
  - rewrite <- rev_app_distr, <- Hs. symmetry. apply rev_involutive.
  - now rewrite all_space_rev.
Qed.

Lemma rstrip_nil_iff (s : pystr) : rstrip s = [] <-> all_space s = true.
Proof.
  unfold rstrip. rewrite <- all_space_rev, <- lstrip_nil_iff.
  split; intros H; [|now rewrite H].
  now apply (f_equal (@rev _)) in H; rewrite rev_involutive in H.
Qed.

Lemma rstrip_app_space (s suf : pystr) :
  all_space suf = true -> rstrip (s ++ suf) = rstrip s.
Proof.
  intros H. unfold rstrip. rewrite rev_app_distr, lstrip_app_space; [reflexivity|].
  now rewrite all_space_rev.
Qed.

(** What [strip] removes is whitespace on both sides. *)
Lemma strip_decomp (s : pystr) :
  exists pre suf, s = pre ++ strip s ++ suf
    /\ all_space pre = true /\ all_space suf = true.
Proof.
  destruct (lstrip_decomp s) as [pre [Hs Hp]].
  destruct (rstrip_decomp (lstrip s)) as [suf [Hl Hf]].
  exists pre, suf. unfold strip. rewrite <- Hl. auto.
Qed.

Lemma strip_nil_iff (s : pystr) : strip s = [] <-> all_space s = true.
Proof.
  unfold strip. rewrite rstrip_nil_iff.
  destruct (lstrip_decomp s) as [pre [Hs Hp]].
  rewrite Hs at 2. rewrite all_space_app, Hp. reflexivity.
Qed.

Lemma strip_space_around (pre s suf : pystr) :
  all_space pre = true -> all_space suf = true ->
  strip (pre ++ s ++ suf) = strip s.
Proof.
  intros Hp Hs. unfold strip. rewrite lstrip_app_space by exact Hp.
  destruct (lstrip s) as [|c t] eqn:E.
  - apply lstrip_nil_iff in E.
    rewrite lstrip_app_space by exact E.
    now rewrite (proj2 (lstrip_nil_iff suf) Hs).
  - rewrite lstrip_app_keep by (rewrite E; discriminate).
    rewrite E. now rewrite rstrip_app_space.
Qed.

#[export] Hint Resolve strip_decomp lstrip_decomp : pydb.

(** ** Laws of [split] and [join] *)

Lemma is_prefix_spec (p s : pystr) :
  is_prefix p s = true -> s = p ++ skipn (length p) s.
Proof.
  revert s. induction p as [|a p IH]; intros [|b s]; simpl; try easy.
  intros H. bsimpl. destruct H as [-> H]. f_equal. now apply IH.
Qed.

Lemma split_go_not_nil d sep' acc s : split_go d sep' acc s <> [].
Proof. funelim (split_go d sep' acc s); simp split_go; try rewrite Heq; easy. Qed.

Lemma join_cons_ne (sep x : pystr) (xs : list pystr) :
  xs <> [] -> join sep (x :: xs) = x ++ sep ++ join sep xs.
Proof. destruct xs; [congruence|reflexivity]. Qed.

Lemma join_split_go d sep' acc s :
  join (d :: sep') (split_go d sep' acc s) = rev acc ++ s.
Proof.
  funelim (split_go d sep' acc s); simp split_go; try rewrite Heq.
  - simpl. now rewrite app_nil_r.
  - rewrite join_cons_ne, H by apply split_go_not_nil.
    apply is_prefix_spec in Heq. simpl in Heq. injection Heq as -> Hs'.
    simpl. now rewrite Hs' at 2.
  - rewrite H. simpl. now rewrite <- app_assoc.
Qed.

#[export] Hint Resolve split_go_not_nil : pydb.

Lemma strip_idem (s : pystr) : strip (strip s) = strip s.
Proof.
  destruct (strip_decomp s) as [pre [suf [Hs [Hp Hf]]]].
  rewrite Hs at 2. symmetry. now apply strip_space_around.
Qed.

#[export] Hint Rewrite strip_idem : pyb.
