(* ===== verification/Segmenter.v ===== *)
(** * The Segmenter: [extract_pdf_text] (app.py, lines 27-40)

    The document text is cut by
    [re.split(r"(?<=\n)([0-9]+\.[0-9]+|[-•]|\n{2,})", text)] and every
    piece is stripped, empty ones dropped.  The pattern's match at one
    position is [chunk_match]; [re_split_go] is the scan of [re.split],
    which keeps the captured group between the pieces.  The theorems:
    the raw split loses nothing ([concat] gives back the text), the
    chunks are the text with only whitespace taken out, every chunk is
    non-empty and stripped, and a text without a marker is one chunk.
    [re_split_go] is defined by well-founded recursion on the length
    of the rest of the text (Equations), so the scan is total. *)

From Equations Require Import Equations.
From Stdlib Require Import List Arith Lia Bool NArith.
From S2P Require Import Prelude PyStr.
Import ListNotations.

(** ** The pattern [(?<=\n)([0-9]+\.[0-9]+|[-•]|\n{2,})] *)

(** Length of the longest prefix of [s] whose characters satisfy [p]:
    a greedy [p+] or [p{n,}]. *)
Fixpoint run_len (p : char -> bool) (s : pystr) : nat :=
  match s with
  | [] => 0
  | c :: s' => if p c then S (run_len p s') else 0
  end.

(** [[0-9]+\.[0-9]+]: greedy digits, a dot, greedy digits; giving
    back digits never produces the dot, so backtracking cannot help. *)
Definition alt_number (s : pystr) : nat :=
  let d1 := run_len is_digit s in
  match d1, skipn d1 s with
  | S _, c :: rest =>
      if (c =? ch_dot)%N then
        match run_len is_digit rest with
        | 0 => 0
        | d2 => d1 + 1 + d2
        end
      else 0
  | _, _ => 0
  end.

(** [[-•]] *)
Definition alt_bullet (s : pystr) : nat :=
  match s with
  | c :: _ => if (c =? ch_dash)%N || (c =? ch_bullet)%N then 1 else 0
  | [] => 0
  end.

(** [\n{2,}], greedy. *)
Definition alt_blank (s : pystr) : nat :=
  let n := run_len (N.eqb ch_nl) s in
  if 2 <=? n then n else 0.

(** The group: its alternatives are tried in order, the first that
    matches wins; [0] is "no match" (no alternative matches empty). *)
Definition marker_len (s : pystr) : nat :=
  match alt_number s with
  | 0 => match alt_bullet s with
         | 0 => alt_blank s
         | n => n
         end
  | n => n
  end.

(** The whole pattern at a position whose previous character is
    [prev]: the lookbehind [(?<=\n)] first. *)
Definition chunk_match (prev : option char) (s : pystr) : nat :=
  match prev with
  | Some c => if (c =? ch_nl)%N then marker_len s else 0
  | None => 0
  end.

(** ** [re.split] with one capturing group

    [acc] is the current piece, reversed.  At a match of length [S n]
    the piece is emitted, then the captured text, and the scan resumes
    after the match with the match's last character as the lookbehind
    context. *)
Equations? re_split_go (prev : option char) (acc : pystr) (s : pystr) : list pystr
  by wf (length s) lt :=
  re_split_go prev acc [] := [rev acc];
  re_split_go prev acc (c :: s') with chunk_match prev (c :: s') => {
    | 0 := re_split_go (Some c) (c :: acc) s';
    | S n := rev acc :: firstn (S n) (c :: s')
               :: re_split_go (Some (last (firstn (S n) (c :: s')) c)) [] (skipn n s') }.
Proof. all: rewrite ?length_skipn; simpl; lia. Qed.

Definition re_split (text : pystr) : list pystr := re_split_go None [] text.

(** [[chunk.strip() for chunk in chunks if chunk.strip()]] *)
Definition nonempty (s : pystr) : bool :=
  match s with [] => false | _ => true end.

Definition process_chunks (chunks : list pystr) : list pystr :=
  map strip (filter (fun chunk => nonempty (strip chunk)) chunks).

(** [extract_pdf_text(pdf_path)]: [extract_text] is pdfminer's, [None]
    standing for an exception; an empty text raises [ValueError]; both
    are caught and give [[]]. *)
Definition extract_pdf_text (extract_text : pystr -> option pystr)
    (pdf_path : pystr) : list pystr :=
  match extract_text pdf_path with
  | None => []
  | Some [] => []
  | Some text => process_chunks (re_split text)
  end.

(** A text has no structural marker when the pattern matches nowhere. *)
Fixpoint marker_free (prev : option char) (s : pystr) : bool :=
  match s with
  | [] => true
  | c :: s' => (chunk_match prev (c :: s') =? 0) && marker_free (Some c) s'
  end.

(** ** The raw split loses nothing *)

Lemma re_split_go_concat prev acc s :
  concat (re_split_go prev acc s) = rev acc ++ s.
Proof.
  funelim (re_split_go prev acc s); simp re_split_go; try rewrite Heq.
  - simpl. now rewrite app_nil_r.
  - rewrite H. simpl. now rewrite <- app_assoc.
  - rewrite !concat_cons, H. cbn [rev]. rewrite app_nil_l.
    f_equal. exact (firstn_skipn (S n) (c :: s')).
Qed.

(** Round trip of [re.split] with a capturing group: the pieces and
    the captured delimiters, concatenated, give back the text. *)
Lemma re_split_concat (text : pystr) : concat (re_split text) = text.
Proof. apply re_split_go_concat. Qed.

Lemma re_split_go_marker_free prev acc s :
  marker_free prev s = true -> re_split_go prev acc s = [rev acc ++ s].
Proof.
  funelim (re_split_go prev acc s); simp re_split_go; try rewrite Heq; simpl.
  - now rewrite app_nil_r.
  - intros Hm. bsimpl. rewrite H by tauto. simpl. now rewrite <- app_assoc.
  - rewrite Heq. discriminate.
Qed.

(** ** Stripping and filtering keeps everything but whitespace

    [gaps_weave g0 rest] is [g0 ++ c1 ++ g1 ++ ... ++ cn ++ gn] for
    [rest = [(c1, g1); ...; (cn, gn)]]. *)
Definition gaps_weave (g0 : pystr) (rest : list (pystr * pystr)) : pystr :=
  g0 ++ concat (map (fun cg => fst cg ++ snd cg) rest).

Definition whitespace_decomposition (text : pystr) (chunks : list pystr) : Prop :=
  exists g0 rest, text = gaps_weave g0 rest /\ map fst rest = chunks
    /\ all_space g0 = true /\ Forall (fun cg => all_space (snd cg) = true) rest.

Lemma process_chunks_decomp (pieces : list pystr) :
  whitespace_decomposition (concat pieces) (process_chunks pieces).
Proof.
  unfold whitespace_decomposition, process_chunks, gaps_weave.
  induction pieces as [|p ps [g0 [rest [Hc [Hm [Hg Hr]]]]]].
  - now exists [], [].
  - rewrite concat_cons, Hc. cbn [filter]. destruct (nonempty (strip p)) eqn:Hn.
    + destruct (strip_decomp p) as [pre [suf [Hp [Hpre Hsuf]]]].
      exists pre, ((strip p, suf ++ g0) :: rest). split; [|split; [|split]].
      * cbn [map concat fst snd]. rewrite Hp at 1. now rewrite !app_assoc.
      * cbn [map fst]. now rewrite Hm.
      * exact Hpre.
      * constructor; [|exact Hr]. cbn [snd]. now rewrite all_space_app, Hsuf, Hg.
    + exists (p ++ g0), rest. rewrite all_space_app, Hg, <- app_assoc.
      destruct (strip p) eqn:E; [|discriminate].
      apply strip_nil_iff in E. now rewrite E.
Qed.

Lemma process_chunks_stripped (pieces : list pystr) :
  Forall (fun chunk => chunk <> [] /\ strip chunk = chunk) (process_chunks pieces).
Proof.
  unfold process_chunks. apply Forall_map, Forall_forall.
  intros p Hp. apply filter_In in Hp as [_ Hp].
  rewrite strip_idem. split; [|reflexivity].
  destruct (strip p); discriminate.
Qed.

(** ** Properties of [extract_pdf_text] *)

(** The chunks are the extracted text with only whitespace removed
    around and between them, in the order of the text. *)
Theorem extract_pdf_text_whitespace_only extract_text pdf_path text :
  extract_text pdf_path = Some text ->
  whitespace_decomposition text (extract_pdf_text extract_text pdf_path).
Proof.
  intros He. unfold extract_pdf_text. rewrite He. destruct text as [|c t].
  - now exists [], [].
  - rewrite <- (re_split_concat (c :: t)) at 1. apply process_chunks_decomp.
Qed.

(** Every chunk is non-empty and has no surrounding whitespace. *)
Lemma extract_pdf_text_chunks_stripped_core extract_text pdf_path :
  Forall (fun chunk => chunk <> [] /\ strip chunk = chunk)
    (extract_pdf_text extract_text pdf_path).
Proof.
  unfold extract_pdf_text.
  destruct (extract_text pdf_path) as [[|c t]|]; auto using process_chunks_stripped.
Qed.

(** C25: every chunk is non-empty and has no surrounding whitespace. *)
Theorem extract_pdf_text_chunks_stripped extract_text pdf_path :
  Forall (fun chunk => chunk <> [] /\ strip chunk = chunk)
    (extract_pdf_text extract_text pdf_path).
Proof. apply extract_pdf_text_chunks_stripped_core. Qed.

(** A text in which the pattern matches nowhere is one chunk, its
    stripped self, or nothing when it is all whitespace. *)
Theorem extract_pdf_text_marker_free extract_text pdf_path text :
  extract_text pdf_path = Some text -> marker_free None text = true ->
  extract_pdf_text extract_text pdf_path =
    if all_space text then [] else [strip text].
Proof.
  intros He Hm. unfold extract_pdf_text. rewrite He.
  destruct text as [|c t]; [reflexivity|].
  unfold re_split, process_chunks. rewrite re_split_go_marker_free by exact Hm.
  cbn [rev app filter map]. destruct (all_space (c :: t)) eqn:Hs.
  - apply strip_nil_iff in Hs. now rewrite Hs.
  - destruct (strip (c :: t)) eqn:E; simpl; [|now rewrite E].
    apply strip_nil_iff in E. congruence.
Qed.

(** ** Concrete runs *)

(** The end-to-end example of the spec, ["1.2 Revenue grew 10%.\n\nProfit
    fell 2%."]. *)
Definition spec_example_text : pystr :=
  py "1.2 Revenue grew 10%." ++ [ch_nl; ch_nl] ++ py "Profit fell 2%.".

(** A text with a numbered marker, a bullet and three newlines. *)
Definition marker_text : pystr :=
  py "Intro" ++ [ch_nl] ++ py "1.2 Scope" ++ [ch_nl; ch_nl; ch_nl]
  ++ py "End" ++ [ch_nl] ++ py "- item".

Lemma extract_pdf_text_whitespace_only_witness :
  whitespace_decomposition marker_text
    (extract_pdf_text (fun _ => Some marker_text) (py "Power_Grid_Ltd.pdf")).
Proof. apply (extract_pdf_text_whitespace_only _ _ marker_text). reflexivity. Defined.

Lemma extract_pdf_text_marker_free_witness :
  extract_pdf_text (fun _ => Some (py " Revenue grew 10%. ")) (py "a.pdf")
    = [py "Revenue grew 10%."].
Proof.
  apply (extract_pdf_text_marker_free _ _ (py " Revenue grew 10%. "));
    vm_compute; reflexivity.
Defined.
