(* ===== verification/Ranking.v ===== *)
(** * Ranking: [sorted(..., key=..., reverse=True)] and [torch.argmax]

    Both rankings of app.py compare scores that are floats: the
    sentence scores of [extract_best_sentence] (line 164) and the
    cosine similarities of [query] (line 130).  They are stated here
    over any type of scores with a total boolean order (the interface
    [TotalLeb]); [Cosine] and the [Q] instance below discharge it.

    - [sort_desc] is Python's stable descending sort: the theorems show
      it is a permutation, sorted, stable, and the only list with these
      three properties, so any stable sort (Timsort included) returns it.
    - [argmax] is the single pass of [torch.argmax] on a 1-D tensor; it
      returns the first index of a maximal score, and it equals the
      quadratic reference [argmax_ref]. *)

From Stdlib Require Import List Arith Lia Bool Sorted Permutation QArith.
From S2P Require Import Prelude.
Import ListNotations.

(** ** The interface: a total preorder given by a boolean test *)

Class TotalLeb (K : Type) := {
  leb : K -> K -> bool;
  leb_total : forall a b, leb a b = true \/ leb b a = true;
  leb_trans : forall a b c, leb a b = true -> leb b c = true -> leb a c = true
}.

Section Order.
Context {K : Type} `{TotalLeb K}.

(** Python's [a < b] on the scores. *)
Definition ltb (a b : K) : bool := negb (leb b a).
(** Equal scores. *)
Definition eqk (a b : K) : bool := leb a b && leb b a.

Lemma leb_refl (a : K) : leb a a = true.
Proof. now destruct (leb_total a a). Qed.

Lemma ltb_leb (a b : K) : ltb a b = true -> leb a b = true.
Proof.
  unfold ltb. intros Hn. apply negb_true_iff in Hn.
  destruct (leb_total a b) as [|Hba]; congruence.
Qed.

Lemma not_ltb_leb (a b : K) : ltb a b = false -> leb b a = true.
Proof. unfold ltb. now intros ->%negb_false_iff. Qed.

Lemma ltb_trans_leb (a b c : K) : ltb a b = true -> leb b c = true -> ltb a c = true.
Proof.
  unfold ltb. intros Hab Hbc. apply negb_true_iff in Hab. apply negb_true_iff.
  destruct (leb c a) eqn:Hca; [|reflexivity].
  rewrite (leb_trans _ _ _ Hbc Hca) in Hab. discriminate.
Qed.
End Order.

#[export] Hint Resolve leb_refl ltb_leb not_ltb_leb : pydb.

(** Rationals, the [fuzz.ratio] scores. *)
#[export] Program Instance Q_TotalLeb : TotalLeb Q := {| leb := Qle_bool |}.
Next Obligation.
  destruct (Qlt_le_dec a b) as [Hl|Hl]; [left|right]; apply Qle_bool_iff;
    [now apply Qlt_le_weak | exact Hl].
Qed.
Next Obligation.
  apply Qle_bool_iff in H, H0. apply Qle_bool_iff. now apply (Qle_trans _ b).
Qed.

(** ** Stable descending sort *)

Section Sort.
Context {A K : Type} `{TotalLeb K} (key : A -> K).

(** [x] came before every element of [l]: it goes before the first
    element whose key is not greater than its own. *)
Fixpoint insert_desc (x : A) (l : list A) : list A :=
  match l with
  | [] => [x]
  | y :: l' => if leb (key y) (key x) then x :: l else y :: insert_desc x l'
  end.

Fixpoint sort_desc (l : list A) : list A :=
  match l with
  | [] => []
  | x :: l' => insert_desc x (sort_desc l')
  end.

Definition desc (a b : A) : Prop := leb (key b) (key a) = true.

(** The elements whose key equals [k], in order. *)
Definition key_class (k : K) (l : list A) : list A :=
  filter (fun a => eqk (key a) k) l.

Definition stable_wrt (l' l : list A) : Prop :=
  forall k, key_class k l' = key_class k l.
End Sort.

Section SortLemmas.
Context {A K : Type} `{TotalLeb K} (key : A -> K).

Lemma eqk_trans (a b c : K) : eqk a b = true -> eqk b c = true -> eqk a c = true.
Proof.
  unfold eqk. intros [Hab Hba]%andb_true_iff [Hbc Hcb]%andb_true_iff.
  apply andb_true_iff. split; eapply leb_trans; eauto.
Qed.

Lemma eqk_sym (a b : K) : eqk a b = eqk b a.
Proof. unfold eqk. apply andb_comm. Qed.

Lemma insert_desc_perm x l : Permutation (insert_desc key x l) (x :: l).
Proof.
  induction l as [|y l IH]; simpl; [reflexivity|].
  destruct (leb (key y) (key x)); [reflexivity|].
  rewrite IH. apply perm_swap.
Qed.

Lemma sort_desc_perm l : Permutation (sort_desc key l) l.
Proof.
  induction l as [|x l IH]; simpl; [reflexivity|].
  rewrite insert_desc_perm, IH. reflexivity.
Qed.

Lemma insert_desc_sorted x l :
  Sorted (desc key) l -> Sorted (desc key) (insert_desc key x l).
Proof.
  induction 1 as [|y l Hs IH Hd]; simpl; [repeat constructor|].
  destruct (leb (key y) (key x)) eqn:Hyx.
  - repeat constructor; auto.
  - constructor; [exact IH|].
    destruct l as [|z l]; simpl.
    + constructor. unfold desc. now destruct (leb_total (key x) (key y)); [|congruence].
    + inversion Hd as [|? ? Hyz]; subst.
      destruct (leb (key z) (key x)); constructor; [|exact Hyz].
      unfold desc. now destruct (leb_total (key x) (key y)); [|congruence].
Qed.

Lemma sort_desc_sorted l : Sorted (desc key) (sort_desc key l).
Proof. induction l; simpl; auto using insert_desc_sorted. Qed.

Lemma key_class_insert_desc k x l :
  key_class key k (insert_desc key x l) = key_class key k (x :: l).
Proof.
  unfold key_class. induction l as [|y l IH]; simpl; [reflexivity|].
  destruct (leb (key y) (key x)) eqn:Hyx; [reflexivity|].
  cbn [filter]. rewrite IH. cbn [filter].
  destruct (eqk (key y) k) eqn:Hy, (eqk (key x) k) eqn:Hx; try reflexivity.
  rewrite eqk_sym in Hx. pose proof (eqk_trans _ _ _ Hy Hx) as Hyx'.
  unfold eqk in Hyx'. rewrite Hyx in Hyx'. discriminate.
Qed.

Lemma sort_desc_stable l : stable_wrt key (sort_desc key l) l.
Proof.
  intros k. induction l as [|x l IH]; simpl; [reflexivity|].
  rewrite key_class_insert_desc. unfold key_class in *. simpl. now rewrite IH.
Qed.

Lemma sorted_desc_head_max x l :
  Sorted (desc key) (x :: l) -> forall y, In y (x :: l) -> leb (key y) (key x) = true.
Proof.
  intros Hs%Sorted_StronglySorted; [|intros a b c Hab Hbc; unfold desc in *; eauto using leb_trans].
  inversion Hs as [|? ? _ Hall]; subst. intros y [<-|Hy]; [apply leb_refl|].
  rewrite Forall_forall in Hall. exact (Hall y Hy).
Qed.

Lemma key_class_cons_inv k x l1 l2 :
  key_class key k (x :: l1) = key_class key k (x :: l2) ->
  key_class key k l1 = key_class key k l2.
Proof. unfold key_class. simpl. destruct (eqk (key x) k); [now intros [=]|auto]. Qed.

(** Two permutations of each other that are both sorted and agree on
    every key class are equal. *)
Lemma sorted_stable_unique l1 l2 :
  Permutation l1 l2 -> Sorted (desc key) l1 -> Sorted (desc key) l2 ->
  stable_wrt key l1 l2 -> l1 = l2.
Proof.
  revert l2. induction l1 as [|x l1 IH]; intros l2 Hp Hs1 Hs2 Hst.
  - now apply Permutation_nil in Hp.
  - destruct l2 as [|y l2]; [now apply Permutation_sym, Permutation_nil in Hp|].
    assert (Hxy : eqk (key y) (key x) = true).
    { apply andb_true_iff. split.
      - apply (sorted_desc_head_max x l1 Hs1). apply (Permutation_in _ (Permutation_sym Hp)). now left.
      - apply (sorted_desc_head_max y l2 Hs2). apply (Permutation_in _ Hp). now left. }
    assert (x = y) as <-.
    { specialize (Hst (key x)). unfold key_class in Hst. simpl in Hst.
      rewrite Hxy in Hst. unfold eqk in Hst at 1. rewrite leb_refl in Hst.
      now injection Hst. }
    f_equal. apply IH.
    + exact (Permutation_cons_inv Hp).
    + exact (proj1 (Sorted_inv Hs1)).
    + exact (proj1 (Sorted_inv Hs2)).
    + intros k. apply (key_class_cons_inv k x), Hst.
Qed.
End SortLemmas.

(** [sort_desc] is the stable descending sort: a list is a
    permutation of [l], sorted by descending key and keeping the order
    of equal keys exactly when it is [sort_desc key l]. *)
Theorem sort_desc_characterization {A K : Type} `{TotalLeb K} (key : A -> K) (l l' : list A) :
  (Permutation l' l /\ Sorted (desc key) l' /\ stable_wrt key l' l) <-> l' = sort_desc key l.
Proof.
  split.
  - intros (Hp & Hs & Hst). apply sorted_stable_unique with key.
    + rewrite Hp. symmetry. apply sort_desc_perm.
    + exact Hs.
    + apply sort_desc_sorted.
    + intros k. rewrite Hst. symmetry. apply sort_desc_stable.
  - intros ->. auto using sort_desc_perm, sort_desc_sorted, sort_desc_stable.
Qed.

(** ** [torch.argmax]: the first index of a maximal score *)

Section Argmax.
Context {K : Type} `{TotalLeb K}.

(** One pass, [i] the index of the head of [l]; a later score
    replaces the best only when strictly greater. *)
Fixpoint argmax_go (i best : nat) (bv : K) (l : list K) : nat :=
  match l with
  | [] => best
  | v :: l' => if ltb bv v then argmax_go (S i) i v l' else argmax_go (S i) best bv l'
  end.

Definition argmax (l : list K) : option nat :=
  match l with
  | [] => None
  | v :: l' => Some (argmax_go 1 0 v l')
  end.

(** The reference: the first index whose score is at least every
    score of the list. *)
Definition is_max_at (l : list K) (i : nat) : bool :=
  match nth_error l i with
  | Some v => forallb (fun w => leb w v) l
  | None => false
  end.

Definition argmax_ref (l : list K) : option nat :=
  find (is_max_at l) (seq 0 (length l)).

(** [i] is the first index of a maximum of [l]. *)
Definition first_max (l : list K) (i : nat) : Prop :=
  exists v, nth_error l i = Some v
    /\ (forall w, In w l -> leb w v = true)
    /\ (forall j w, (j < i)%nat -> nth_error l j = Some w -> ltb w v = true).
End Argmax.

Section ArgmaxLemmas.
Context {K : Type} `{TotalLeb K}.

Lemma leb_ltb_trans (a b c : K) : leb a b = true -> ltb b c = true -> ltb a c = true.
Proof.
  unfold ltb. intros Hab Hbc. apply negb_true_iff in Hbc. apply negb_true_iff.
  destruct (leb c a) eqn:Hca; [|reflexivity].
  rewrite (leb_trans _ _ _ Hca Hab) in Hbc. discriminate.
Qed.

Lemma ltb_irrefl_leb (a b : K) : ltb a b = true -> leb b a = false.
Proof. unfold ltb. now intros ->%negb_true_iff. Qed.

Lemma nth_error_snoc_lt (p : list K) v j :
  (j < length p)%nat -> nth_error (p ++ [v]) j = nth_error p j.
Proof. apply nth_error_app1. Qed.

Lemma argmax_go_first_max (rest p : list K) i b bv :
  length p = i -> nth_error p b = Some bv ->
  (forall w, In w p -> leb w bv = true) ->
  (forall j w, (j < b)%nat -> nth_error p j = Some w -> ltb w bv = true) ->
  first_max (p ++ rest) (argmax_go i b bv rest).
Proof.
  revert p i b bv. induction rest as [|v rest IH]; intros p i b bv Hi Hb Hmax Hfirst; simpl.
  - rewrite app_nil_r. now exists bv.
  - assert (Hblt : (b < length p)%nat) by (apply nth_error_Some; congruence).
    replace (p ++ v :: rest) with ((p ++ [v]) ++ rest) by now rewrite <- app_assoc.
    destruct (ltb bv v) eqn:Hlt; apply IH.
    + now rewrite length_app, Hi, Nat.add_comm.
    + subst i. rewrite nth_error_app2, Nat.sub_diag by lia. reflexivity.
    + intros w [Hw|[<-|[]]]%in_app_or; [|apply leb_refl].
      apply (leb_trans _ bv); auto using ltb_leb.
    + intros j w Hj Hw. subst i. rewrite nth_error_snoc_lt in Hw by lia.
      assert (Hwb : In w p) by (eapply nth_error_In; eauto).
      exact (leb_ltb_trans _ _ _ (Hmax w Hwb) Hlt).
    + now rewrite length_app, Hi, Nat.add_comm.
    + now rewrite nth_error_snoc_lt.
    + intros w [Hw|[<-|[]]]%in_app_or; auto using not_ltb_leb.
    + intros j w Hj Hw. rewrite nth_error_snoc_lt in Hw by lia. eauto.
Qed.

Lemma first_max_unique (l : list K) i1 i2 : first_max l i1 -> first_max l i2 -> i1 = i2.
Proof.
  intros (v1 & H1 & Hm1 & Hf1) (v2 & H2 & Hm2 & Hf2).
  destruct (Nat.lt_trichotomy i1 i2) as [Hlt|[Heq|Hlt]]; [exfalso| exact Heq |exfalso].
  - pose proof (Hf2 _ _ Hlt H1) as Hl.
    specialize (Hm1 v2 (nth_error_In _ _ H2)). rewrite (ltb_irrefl_leb _ _ Hl) in Hm1. discriminate.
  - pose proof (Hf1 _ _ Hlt H2) as Hl.
    specialize (Hm2 v1 (nth_error_In _ _ H1)). rewrite (ltb_irrefl_leb _ _ Hl) in Hm2. discriminate.
Qed.
End ArgmaxLemmas.

Lemma argmax_some_first_max {K} `{TotalLeb K} (l : list K) i :
  argmax l = Some i -> first_max l i.
Proof.
  destruct l as [|v l]; simpl; [discriminate|]. intros [= <-].
  apply (argmax_go_first_max l [v]); [reflexivity|reflexivity| |].
  - intros w [<-|[]]. apply leb_refl.
  - intros j w Hj. lia.
Qed.

Lemma find_seq_first (p : nat -> bool) a n i :
  (a <= i < a + n)%nat -> p i = true -> (forall k, (a <= k < i)%nat -> p k = false) ->
  find p (seq a n) = Some i.
Proof.
  revert a. induction n as [|n IH]; intros a Hi Hp Hk; [lia|]. simpl.
  destruct (Nat.eq_dec a i) as [<-|Hne]; [now rewrite Hp|].
  rewrite Hk by lia. apply IH; auto with arith; [lia|].
  intros k Hk'. apply Hk. lia.
Qed.

(** [torch.argmax] returns an index exactly when the list of scores
    is non-empty, and the index it returns is the first index of a
    maximal score (ties go to the lowest index). *)
Lemma argmax_spec_core {K} `{TotalLeb K} (l : list K) i :
  argmax l = Some i <-> first_max l i.
Proof.
  split; [apply argmax_some_first_max|]. intros Hf.
  destruct l as [|v l]; [destruct Hf as (? & Hn & _); now destruct i|].
  simpl. f_equal. apply (first_max_unique (v :: l)); [|exact Hf].
  apply argmax_some_first_max. reflexivity.
Qed.

(** C21: [torch.argmax] returns an index exactly when the list of scores
    is non-empty, and the index it returns is the first index of a
    maximal score (ties go to the lowest index). *)
Theorem argmax_spec {K} `{TotalLeb K} (l : list K) i :
  argmax l = Some i <-> first_max l i.
Proof. apply argmax_spec_core. Qed.

Lemma argmax_none {K} `{TotalLeb K} (l : list K) : argmax l = None <-> l = [].
Proof. destruct l; simpl; split; congruence. Qed.

(** The one-pass [argmax] equals the reference that looks for the
    first index whose score is at least every score. *)
Theorem argmax_eq_ref {K} `{TotalLeb K} (l : list K) : argmax l = argmax_ref l.
Proof.
  destruct (argmax l) as [i|] eqn:E.
  - destruct (argmax_some_first_max l i E) as (v & Hv & Hm & Hf).
    symmetry. apply find_seq_first.
    + assert (i < length l)%nat by (apply nth_error_Some; congruence). lia.
    + unfold is_max_at. rewrite Hv. now apply forallb_forall.
    + intros k [_ Hk]. unfold is_max_at.
      destruct (nth_error l k) as [w|] eqn:Hw; [|reflexivity].
      apply not_true_iff_false. rewrite forallb_forall. intros Hall.
      pose proof (Hf k w Hk Hw) as Hl. apply ltb_irrefl_leb in Hl.
      rewrite (Hall v (nth_error_In _ _ Hv)) in Hl. discriminate.
  - apply argmax_none in E as ->. reflexivity.
Qed.

(** ** The first [n] of a descending sort are the [n] best *)

Lemma strongly_sorted_app {A} (R : A -> A -> Prop) (l1 l2 : list A) :
  StronglySorted R (l1 ++ l2) -> forall x y, In x l1 -> In y l2 -> R x y.
Proof.
  induction l1 as [|a l1 IH]; simpl; [tauto|].
  intros Hs x y [<-|Hx] Hy; inversion Hs as [|? ? Hs' Hall]; subst.
  - rewrite Forall_forall in Hall. apply Hall, in_or_app. now right.
  - now apply IH.
Qed.

Lemma sort_desc_top {A K : Type} `{TotalLeb K} (key : A -> K) (l : list A) (n : nat) :
  forall c r, In c (firstn n (sort_desc key l)) -> In r (skipn n (sort_desc key l)) ->
  leb (key r) (key c) = true.
Proof.
  intros c r Hc Hr.
  pose proof (sort_desc_sorted key l) as Hs. rewrite <- (firstn_skipn n) in Hs.
  apply Sorted_StronglySorted in Hs; [|intros a b d; unfold desc; eauto using leb_trans].
  exact (strongly_sorted_app _ _ _ Hs c r Hc Hr).
Qed.

Lemma sort_desc_nil_iff {A K : Type} `{TotalLeb K} (key : A -> K) (l : list A) :
  sort_desc key l = [] <-> l = [].
Proof.
  split; [|now intros ->].
  intros E. pose proof (sort_desc_perm key l) as Hp. rewrite E in Hp.
  now apply Permutation_nil, Permutation_sym.
Qed.
