(* ===== verification/Cosine.v ===== *)
(** * Cosine similarity: [util.pytorch_cos_sim] (app.py, line 129)

    sentence-transformers computes the similarity of the query
    embedding [a] with a stored embedding [b] as the dot product of
    [torch.nn.functional.normalize(a)] and [normalize(b)], where
    [normalize(x) = x / max(||x||, 1e-12)].  The embeddings are float32
    vectors; the model takes their exact values as rationals and
    computes the similarity exactly, that is without the rounding of
    float32 arithmetic.  The similarity is a real number
    [dot a b / sqrt (max(|a|^2, eps^2) * max(|b|^2, eps^2))], kept as
    the pair of rationals [cos_val] (numerator, squared denominator)
    and compared through its signed square [ssq], so that every
    comparison of app.py is decided exactly by [vm_compute].

    The theorems: the order on [cos_val] is the order of the real
    numbers they denote, [cos_R (cos_sim a b)] is the torch formula,
    similarities lie in [[-1, 1]] (Cauchy-Schwarz), a vector is at
    similarity 1 from itself unless its norm is below [eps], and the
    threshold test [cos_lt_const] is the real comparison ([CosineReal]
    states the last three on the reals). *)

From Stdlib Require Import List Arith Lia Bool QArith Qminmax Lqa.
From S2P Require Import Prelude Ranking.
Import ListNotations.

(** ** Vectors and the similarity *)

Definition vec := list Q.

(** The dot product (aligned rows; the caller checks the dimensions). *)
Fixpoint dot (a b : vec) : Q :=
  match a, b with
  | x :: a', y :: b' => x * y + dot a' b'
  | _, _ => 0
  end.

Definition normsq (a : vec) : Q := dot a a.

(** [eps = 1e-12] of [torch.nn.functional.normalize]. *)
Definition norm_eps : Q := 1 # 1000000000000.

(** [max(||a||, eps)^2]. *)
Definition clamp_sq (a : vec) : Q := Qmax (normsq a) (norm_eps * norm_eps).

(** The real number [cnum / sqrt cden2]. *)
Record cos_val := mk_cos { cnum : Q; cden2 : Q }.

Definition cos_sim (a b : vec) : cos_val :=
  mk_cos (dot a b) (clamp_sq a * clamp_sq b).

(** [t * |t|] of the value [t]: an increasing function of [t]. *)
Definition ssq (x : cos_val) : Q :=
  if Qle_bool 0 (cnum x) then cnum x * cnum x / cden2 x
  else - (cnum x * cnum x) / cden2 x.

(** [t * |t|] of a rational constant. *)
Definition const_ssq (t : Q) : Q := if Qle_bool 0 t then t * t else - (t * t).

Definition Qltb (a b : Q) : bool := negb (Qle_bool b a).

(** [x < t] for a constant [t], as in [confidence_score < 0.5]. *)
Definition cos_lt_const (x : cos_val) (t : Q) : bool := Qltb (ssq x) (const_ssq t).

#[export] Program Instance Cos_TotalLeb : TotalLeb cos_val :=
  {| leb x y := Qle_bool (ssq x) (ssq y) |}.
Next Obligation. exact (@leb_total Q _ (ssq a) (ssq b)). Qed.
Next Obligation. exact (@leb_trans Q _ (ssq a) (ssq b) (ssq c) H H0). Qed.

(** ** Lemmas on the rational side *)

Lemma dot_comm (a b : vec) : dot a b == dot b a.
Proof.
  revert b. induction a as [|x a IH]; intros [|y b]; simpl; try reflexivity.
  rewrite IH. ring.
Qed.

Lemma normsq_nonneg (a : vec) : 0 <= normsq a.
Proof.
  unfold normsq. induction a as [|x a IH]; simpl; [apply Qle_refl|].
  nra.
Qed.

Lemma clamp_sq_ge (a : vec) : norm_eps * norm_eps <= clamp_sq a.
Proof. apply Q.le_max_r. Qed.

Lemma clamp_sq_pos (a : vec) : 0 < clamp_sq a.
Proof. eapply Qlt_le_trans; [|apply clamp_sq_ge]. reflexivity. Qed.

Lemma cos_sim_den_pos (a b : vec) : 0 < cden2 (cos_sim a b).
Proof. simpl. pose proof (clamp_sq_pos a). pose proof (clamp_sq_pos b). nra. Qed.

Lemma sq_nonneg (t : Q) : 0 <= t * t.
Proof. nra. Qed.

Lemma cauchy_schwarz_step (x y D A B : Q) :
  0 <= A -> 0 <= B -> D * D <= A * B ->
  (x * y + D) * (x * y + D) <= (x * x + A) * (y * y + B).
Proof.
  intros HA HB HD.
  assert (Hw : 0 <= x * x * B + y * y * A).
  { pose proof (sq_nonneg x). pose proof (sq_nonneg y). nra. }
  assert (H4 : (D * D) * (4 * (x * x * (y * y))) <= (A * B) * (4 * (x * x * (y * y)))).
  { apply Qmult_le_compat_r; [exact HD|]. pose proof (sq_nonneg (x * y)). lra. }
  pose proof (sq_nonneg (x * x * B - y * y * A)) as Hsq.
  assert (Hu : (2 * x * y * D) * (2 * x * y * D)
               <= (x * x * B + y * y * A) * (x * x * B + y * y * A)) by lra.
  assert (2 * x * y * D <= x * x * B + y * y * A) by nra.
  lra.
Qed.

(** Cauchy-Schwarz for [dot]. *)
Lemma cauchy_schwarz (a b : vec) : dot a b * dot a b <= normsq a * normsq b.
Proof.
  unfold normsq. revert b. induction a as [|x a IH]; intros [|y b]; simpl.
  - lra.
  - lra.
  - lra.
  - apply cauchy_schwarz_step; [apply (normsq_nonneg a)|apply (normsq_nonneg b)|apply IH].
Qed.

Lemma normsq_le_clamp (a : vec) : normsq a <= clamp_sq a.
Proof. apply Q.le_max_l. Qed.

Lemma dot_sq_le_den (a b : vec) : dot a b * dot a b <= cden2 (cos_sim a b).
Proof.
  simpl. eapply Qle_trans; [apply cauchy_schwarz|].
  apply Qmult_le_compat_nonneg; split;
    auto using normsq_nonneg, normsq_le_clamp.
Qed.

Lemma dot_zero_l (a b : vec) : forallb (Qeq_bool 0) a = true -> dot a b == 0.
Proof.
  revert b. induction a as [|x a IH]; intros [|y b] H; simpl; try reflexivity.
  simpl in H. apply andb_true_iff in H as [Hx Ha].
  apply Qeq_bool_iff in Hx. rewrite <- Hx, IH by exact Ha. ring.
Qed.

#[export] Hint Resolve normsq_nonneg clamp_sq_pos cos_sim_den_pos dot_sq_le_den : pydb.

(** ** The similarity on the rational side *)

(** Every similarity lies in [[-1, 1]] (its signed square does). *)
Theorem cos_sim_ssq_bounds (a b : vec) : -1 <= ssq (cos_sim a b) <= 1.
Proof.
  pose proof (dot_sq_le_den a b) as Hn. pose proof (cos_sim_den_pos a b) as Hd.
  pose proof (sq_nonneg (cnum (cos_sim a b))) as Hs.
  unfold ssq. cbn [cnum cden2 cos_sim] in *. destruct (Qle_bool 0 _); split.
  - apply Qle_shift_div_l; lra.
  - apply Qle_shift_div_r; lra.
  - apply Qle_shift_div_l; lra.
  - apply Qle_shift_div_r; lra.
Qed.

(** A vector whose norm is at least [eps] is at similarity 1 from
    itself. *)
Theorem cos_sim_self (a : vec) :
  norm_eps * norm_eps <= normsq a -> ssq (cos_sim a a) == 1.
Proof.
  intros He. unfold ssq, cos_sim, clamp_sq. simpl.
  rewrite (proj2 (Qle_bool_iff 0 (dot a a)) (normsq_nonneg a)).
  rewrite Q.max_l by exact He. unfold normsq in *.
  assert (Hp : 0 < dot a a) by (eapply Qlt_le_trans; [|exact He]; reflexivity).
  field. intros Hz. nra.
Qed.

(** the zero vector is at similarity 0 from every vector, itself
    included. *)
Theorem cos_sim_zero (a b : vec) :
  forallb (Qeq_bool 0) a = true -> ssq (cos_sim a b) == 0.
Proof.
  intros Hz. pose proof (dot_zero_l a b Hz) as H0.
  unfold ssq, cos_sim. simpl.
  rewrite (proj2 (Qle_bool_iff 0 (dot a b))) by (rewrite H0; apply Qle_refl).
  rewrite H0. reflexivity.
Qed.

Lemma cos_sim_zero_witness :
  forallb (Qeq_bool 0) [0; 0] = true /\ ssq (cos_sim [0; 0] [0; 0]) == 0.
Proof. split; [reflexivity|apply cos_sim_zero; reflexivity]. Defined.
