(* ===== verification/CosineReal.v ===== *)
(** * The real numbers behind [cos_val]

    [cos_R x] is the real number [cnum x / sqrt (cden2 x)] that a
    [cos_val] stands for.  This file shows that the rational
    computations of [Cosine] decide the real-number facts that
    app.py's comparisons are about: [leb] is [<=] on [cos_R], the
    threshold test [cos_lt_const] is [<] against the constant, and
    [cos_R (cos_sim a b)] is the formula of [util.pytorch_cos_sim]
    (normalise each vector by [max(||x||, eps)], then take the dot
    product).  It also carries the bounds [[-1, 1]] and the
    self-similarity [1] over to the reals. *)

From Stdlib Require Import List QArith Qminmax Qreals Reals Lra.
From S2P Require Import Prelude Ranking Cosine.
Import ListNotations.

Local Open Scope R_scope.

Definition cos_R (x : cos_val) : R := Q2R (cnum x) / sqrt (Q2R (cden2 x)).

(** The formula of sentence-transformers' [cos_sim]:
    [dot(a / max(||a||, eps), b / max(||b||, eps))]. *)
Definition torch_cos_R (a b : vec) : R :=
  Q2R (dot a b)
  / (Rmax (sqrt (Q2R (normsq a))) (Q2R norm_eps)
     * Rmax (sqrt (Q2R (normsq b))) (Q2R norm_eps)).

(** ** [t * |t|] is an increasing bijection of the reals *)

Lemma signed_sq_le (t s : R) : t <= s <-> t * Rabs t <= s * Rabs s.
Proof.
  unfold Rabs. destruct (Rcase_abs t), (Rcase_abs s); split; intros; nra.
Qed.

Lemma signed_sq_lt (t s : R) : t < s <-> t * Rabs t < s * Rabs s.
Proof.
  pose proof (signed_sq_le s t). split; intros H1.
  - apply Rnot_le_lt. intros H2. apply H in H2. lra.
  - apply Rnot_le_lt. intros H2. apply H in H2. lra.
Qed.

Lemma Q2R_zero : Q2R 0 = 0.
Proof. unfold Q2R. simpl. lra. Qed.

Lemma Q2R_one : Q2R 1 = 1.
Proof. unfold Q2R. simpl. lra. Qed.

Lemma Q2R_mone : Q2R (-1) = -1.
Proof. unfold Q2R. simpl. lra. Qed.

Lemma Q2R_pos (q : Q) : (0 < q)%Q -> 0 < Q2R q.
Proof. intros H. rewrite <- Q2R_zero. now apply Qlt_Rlt. Qed.

Lemma Q2R_nonneg_iff (q : Q) : (0 <= q)%Q <-> 0 <= Q2R q.
Proof. rewrite <- Q2R_zero. split; [apply Qle_Rle|apply Rle_Qle]. Qed.

Lemma div_sqrt_signed_sq (n d : R) :
  0 < d -> (n / sqrt d) * Rabs (n / sqrt d) = n * Rabs n / d.
Proof.
  intros Hd. pose proof (sqrt_lt_R0 d Hd) as Hs. pose proof (sqrt_sqrt d) as Hss.
  pose proof (Rinv_0_lt_compat _ Hs) as Hi. unfold Rdiv.
  set (q := sqrt d) in *. rewrite <- (Hss (Rlt_le _ _ Hd)).
  unfold Rabs. destruct (Rcase_abs (n * / q)), (Rcase_abs n);
    try (field; apply Rgt_not_eq, Hs); exfalso; nra.
Qed.

(** The signed square of a [cos_val] is computed exactly by [ssq]. *)
Lemma ssq_R (x : cos_val) :
  (0 < cden2 x)%Q -> Q2R (ssq x) = cos_R x * Rabs (cos_R x).
Proof.
  intros Hd. assert (Hd0 : ~ (cden2 x == 0)%Q) by (intros E; rewrite E in Hd; discriminate).
  unfold cos_R. rewrite div_sqrt_signed_sq by now apply Q2R_pos.
  unfold ssq. destruct (Qle_bool 0 (cnum x)) eqn:E.
  - apply Qle_bool_iff, Q2R_nonneg_iff in E.
    rewrite Q2R_div, Q2R_mult by exact Hd0. now rewrite Rabs_pos_eq.
  - apply not_true_iff_false in E. rewrite Qle_bool_iff, Q2R_nonneg_iff in E.
    rewrite Q2R_div, Q2R_opp, Q2R_mult by exact Hd0.
    rewrite Rabs_left by lra. field. apply Rgt_not_eq, Q2R_pos, Hd.
Qed.

Lemma const_ssq_R (t : Q) : Q2R (const_ssq t) = Q2R t * Rabs (Q2R t).
Proof.
  unfold const_ssq. destruct (Qle_bool 0 t) eqn:E.
  - apply Qle_bool_iff, Q2R_nonneg_iff in E. rewrite Q2R_mult. now rewrite Rabs_pos_eq.
  - apply not_true_iff_false in E. rewrite Qle_bool_iff, Q2R_nonneg_iff in E.
    rewrite Q2R_opp, Q2R_mult, Rabs_left by lra. ring.
Qed.

(** ** Refinement: the rational tests decide the real comparisons *)

(** Comparing two similarities with [leb] (the order [torch.argmax]
    uses) is comparing the real numbers they denote. *)
Lemma cos_leb_real_core (x y : cos_val) :
  (0 < cden2 x)%Q -> (0 < cden2 y)%Q ->
  leb x y = true <-> cos_R x <= cos_R y.
Proof.
  intros Hx Hy. simpl. rewrite Qle_bool_iff, signed_sq_le, <- (ssq_R x Hx), <- (ssq_R y Hy).
  split; [apply Qle_Rle|apply Rle_Qle].
Qed.

(** Comparing two similarities with [leb] (the order [torch.argmax]
    uses) is comparing the real numbers they denote. *)
Theorem cos_leb_real (x y : cos_val) :
  (0 < cden2 x)%Q -> (0 < cden2 y)%Q ->
  leb x y = true <-> cos_R x <= cos_R y.
Proof. apply cos_leb_real_core. Qed.

(** [cos_lt_const x t] is the real comparison [x < t], as in
    [confidence_score < 0.5]. *)
Lemma cos_lt_const_real_core (x : cos_val) (t : Q) :
  (0 < cden2 x)%Q -> cos_lt_const x t = true <-> cos_R x < Q2R t.
Proof.
  intros Hx. unfold cos_lt_const, Qltb.
  rewrite signed_sq_lt, <- (ssq_R x Hx), <- const_ssq_R, negb_true_iff.
  split.
  - intros H. apply Qlt_Rlt. apply Qnot_le_lt. intros Hle. apply Qle_bool_iff in Hle. congruence.
  - intros H. apply Rlt_Qlt in H. apply not_true_iff_false. rewrite Qle_bool_iff.
    now apply Qlt_not_le.
Qed.

(** C24: [cos_lt_const x t] is the real comparison [x < t], as in
    [confidence_score < 0.5]. *)
Theorem cos_lt_const_real (x : cos_val) (t : Q) :
  (0 < cden2 x)%Q -> cos_lt_const x t = true <-> cos_R x < Q2R t.
Proof. apply cos_lt_const_real_core. Qed.

Lemma Q2R_max (u v : Q) : Q2R (Qmax u v) = Rmax (Q2R u) (Q2R v).
Proof.
  destruct (Qlt_le_dec u v) as [H%Qlt_le_weak|H].
  - rewrite (Qeq_eqR _ _ (Q.max_r _ _ H)). symmetry. apply Rmax_right, Qle_Rle, H.
  - rewrite (Qeq_eqR _ _ (Q.max_l _ _ H)). symmetry. apply Rmax_left, Qle_Rle, H.
Qed.

Lemma sqrt_clamp (a : vec) :
  sqrt (Q2R (clamp_sq a)) = Rmax (sqrt (Q2R (normsq a))) (Q2R norm_eps).
Proof.
  unfold clamp_sq. rewrite Q2R_max, Q2R_mult.
  assert (He : 0 <= Q2R norm_eps) by (apply Q2R_nonneg_iff; discriminate).
  assert (Hn : 0 <= Q2R (normsq a)) by apply Q2R_nonneg_iff, normsq_nonneg.
  unfold Rmax at 1. destruct (Rle_dec (Q2R (normsq a)) (Q2R norm_eps * Q2R norm_eps)) as [H|H].
  - rewrite sqrt_square by exact He. symmetry. apply Rmax_right.
    rewrite <- (sqrt_square (Q2R norm_eps)) by exact He. now apply sqrt_le_1_alt.
  - symmetry. apply Rmax_left.
    rewrite <- (sqrt_square (Q2R norm_eps)) by exact He. apply sqrt_le_1_alt. lra.
Qed.

Lemma cos_sim_torch_core (a b : vec) : cos_R (cos_sim a b) = torch_cos_R a b.
Proof.
  unfold cos_R, torch_cos_R, cos_sim. cbn [cnum cden2].
  rewrite Q2R_mult, sqrt_mult_alt, sqrt_clamp, sqrt_clamp; [reflexivity|].
  apply Q2R_nonneg_iff. apply Qlt_le_weak, clamp_sq_pos.
Qed.

(** C23: [cos_sim] computes the similarity of [util.pytorch_cos_sim]:
    the dot product of the two vectors each divided by
    [max(||x||, eps)]. *)
Theorem cos_sim_torch (a b : vec) : cos_R (cos_sim a b) = torch_cos_R a b.
Proof. apply cos_sim_torch_core. Qed.

Lemma cos_sim_bounds_real_core (a b : vec) : -1 <= cos_R (cos_sim a b) <= 1.
Proof.
  destruct (cos_sim_ssq_bounds a b) as [Hl Hu].
  apply Qle_Rle in Hl, Hu. rewrite ssq_R in Hl, Hu by apply cos_sim_den_pos.
  rewrite Q2R_mone in Hl. rewrite Q2R_one in Hu.
  assert (Hm : Rabs (-1) = 1) by (unfold Rabs; destruct (Rcase_abs (-1)); lra).
  split; apply signed_sq_le; rewrite ?Hm, ?Rabs_R1; lra.
Qed.

(** Every similarity is a real number in [[-1, 1]]. *)
Theorem cos_sim_bounds_real (a b : vec) : -1 <= cos_R (cos_sim a b) <= 1.
Proof. apply cos_sim_bounds_real_core. Qed.

(** A vector of norm at least [eps] has real similarity exactly 1
    with itself. *)
Lemma cos_sim_self_real_core (a : vec) :
  (norm_eps * norm_eps <= normsq a)%Q -> cos_R (cos_sim a a) = 1.
Proof.
  intros He. pose proof (Qeq_eqR _ _ (cos_sim_self a He)) as H1.
  rewrite ssq_R, Q2R_one in H1 by apply cos_sim_den_pos.
  apply Rle_antisym; apply signed_sq_le; rewrite Rabs_R1; lra.
Qed.

(** A vector of norm at least [eps] has real similarity exactly 1
    with itself. *)
Theorem cos_sim_self_real (a : vec) :
  (norm_eps * norm_eps <= normsq a)%Q -> cos_R (cos_sim a a) = 1.
Proof. apply cos_sim_self_real_core. Qed.

(** ** Retrieval: the winner of [torch.argmax] over the similarities *)

(** The index [torch.argmax] picks among the similarities of the
    query to the stored embeddings is that of a stored embedding of
    maximal real similarity, and every earlier one is strictly less
    similar (ties go to the lowest index). *)
Lemma retrieval_first_max_real_core (q : vec) (es : list vec) (i : nat) :
  argmax (map (cos_sim q) es) = Some i ->
  exists e, nth_error es i = Some e
    /\ (forall e', In e' es -> cos_R (cos_sim q e') <= cos_R (cos_sim q e))
    /\ (forall j e', (j < i)%nat -> nth_error es j = Some e' ->
          cos_R (cos_sim q e') < cos_R (cos_sim q e)).
Proof.
  intros (v & Hv & Hmax & Hfirst)%argmax_spec_core.
  rewrite nth_error_map in Hv. destruct (nth_error es i) as [e|] eqn:He; [|discriminate].
  injection Hv as <-. exists e. repeat split.
  - intros e' Hin. apply cos_leb_real_core; try apply cos_sim_den_pos.
    apply Hmax, in_map, Hin.
  - intros j e' Hj Hj'. specialize (Hfirst j (cos_sim q e') Hj).
    rewrite nth_error_map, Hj' in Hfirst. specialize (Hfirst eq_refl).
    apply ltb_irrefl_leb in Hfirst. apply Rnot_le_lt. intros Hle.
    apply cos_leb_real_core in Hle; try apply cos_sim_den_pos. congruence.
Qed.

(** C22: the index [torch.argmax] picks among the similarities of the
    query to the stored embeddings is that of a stored embedding of
    maximal real similarity, and every earlier one is strictly less
    similar (ties go to the lowest index). *)
Theorem retrieval_first_max_real (q : vec) (es : list vec) (i : nat) :
  argmax (map (cos_sim q) es) = Some i ->
  exists e, nth_error es i = Some e
    /\ (forall e', In e' es -> cos_R (cos_sim q e') <= cos_R (cos_sim q e))
    /\ (forall j e', (j < i)%nat -> nth_error es j = Some e' ->
          cos_R (cos_sim q e') < cos_R (cos_sim q e)).
Proof. apply retrieval_first_max_real_core. Qed.

(** When the query embedding (of norm at least [eps]) is itself one
    of the stored embeddings, the winner of [torch.argmax] has real
    similarity exactly 1, so it is not below any threshold [t <= 1]:
    the query is never answered out of scope. *)
Theorem retrieval_accepts_stored_query (q : vec) (es : list vec) (i : nat) (t : Q) :
  In q es -> (norm_eps * norm_eps <= normsq q)%Q -> Q2R t <= 1 ->
  argmax (map (cos_sim q) es) = Some i ->
  cos_R (cos_sim q (nth i es [])) = 1 /\ cos_lt_const (cos_sim q (nth i es [])) t = false.
Proof.
  intros Hin Hn Ht Ha.
  destruct (retrieval_first_max_real_core q es i Ha) as (e & He & Hmax & _).
  erewrite nth_error_nth by exact He.
  specialize (Hmax q Hin). rewrite cos_sim_self_real_core in Hmax by exact Hn.
  pose proof (cos_sim_bounds_real_core q e) as Hb.
  split; [lra|]. apply not_true_iff_false.
  rewrite cos_lt_const_real_core by apply cos_sim_den_pos. lra.
Qed.

(** ** Witnesses *)

Lemma cos_leb_real_witness :
  (0 < cden2 (cos_sim [1; 0]%Q [0; 1]%Q))%Q /\ (0 < cden2 (cos_sim [1; 0]%Q [1; 0]%Q))%Q /\
  (leb (cos_sim [1; 0]%Q [0; 1]%Q) (cos_sim [1; 0]%Q [1; 0]%Q) = true <->
   cos_R (cos_sim [1; 0]%Q [0; 1]%Q) <= cos_R (cos_sim [1; 0]%Q [1; 0]%Q)).
Proof. split; [reflexivity|split; [reflexivity|apply cos_leb_real; reflexivity]]. Defined.

Lemma cos_lt_const_real_witness :
  (0 < cden2 (cos_sim [1; 0]%Q [0; 1]%Q))%Q /\
  (cos_lt_const (cos_sim [1; 0]%Q [0; 1]%Q) (1 # 2) = true <-> cos_R (cos_sim [1; 0]%Q [0; 1]%Q) < Q2R (1 # 2)).
Proof. split; [reflexivity|apply cos_lt_const_real; reflexivity]. Defined.

Lemma cos_sim_self_real_witness :
  (norm_eps * norm_eps <= normsq [3; 4]%Q)%Q /\ cos_R (cos_sim [3; 4]%Q [3; 4]%Q) = 1.
Proof.
  assert (H : (norm_eps * norm_eps <= normsq [3; 4]%Q)%Q) by (vm_compute; discriminate).
  split; [exact H|apply cos_sim_self_real, H].
Defined.

Lemma retrieval_first_max_real_witness :
  argmax (map (cos_sim [1; 0]%Q) [[0; 1]%Q; [1; 0]%Q; [1; 0]%Q]) = Some 1%nat /\
  exists e, nth_error [[0; 1]%Q; [1; 0]%Q; [1; 0]%Q] 1%nat = Some e
    /\ (forall e', In e' [[0; 1]%Q; [1; 0]%Q; [1; 0]%Q] -> cos_R (cos_sim [1; 0]%Q e') <= cos_R (cos_sim [1; 0]%Q e))
    /\ (forall j e', (j < 1)%nat -> nth_error [[0; 1]%Q; [1; 0]%Q; [1; 0]%Q] j = Some e' ->
          cos_R (cos_sim [1; 0]%Q e') < cos_R (cos_sim [1; 0]%Q e)).
Proof.
  assert (H : argmax (map (cos_sim [1; 0]%Q) [[0; 1]%Q; [1; 0]%Q; [1; 0]%Q]) = Some 1%nat) by reflexivity.
  split; [exact H|apply retrieval_first_max_real, H].
Defined.

Lemma retrieval_accepts_stored_query_witness :
  cos_R (cos_sim [1; 0]%Q (nth 1%nat [[0; 1]%Q; [1; 0]%Q] [])) = 1 /\
  cos_lt_const (cos_sim [1; 0]%Q (nth 1%nat [[0; 1]%Q; [1; 0]%Q] [])) 1%Q = false.
Proof.
  apply (retrieval_accepts_stored_query [1; 0]%Q [[0; 1]%Q; [1; 0]%Q] 1%nat 1%Q).
  - simpl. tauto.
  - vm_compute. discriminate.
  - rewrite Q2R_one. lra.
  - reflexivity.
Defined.
