(* ===== verification/Rounding.v ===== *)
(** * [round(confidence_score, 2)] (app.py, line 147)

    The confidence of an answer from the PDF is sent as
    [round(confidence_score, 2)].  Python's [round(x, 2)] on a float
    returns the multiple of [1/100] nearest to [x], a tie going to the
    even multiple (CPython rounds the exact value of the float, half to
    even), and keeps the sign of [x]: a negative [x] that rounds to
    zero gives [-0.0].  The result is a [round2_val]: the sign bit and
    the number of hundredths.

    On the exact similarity [x = n / sqrt d] of a [cos_val], [round2]
    computes with integers: [|100 x| = sqrt r] for the rational
    [r = 10000 n^2 / d]; the floor [f] of [sqrt r] is the integer square
    root of the floor of [r], and [sqrt r] is below, at or above
    [f + 1/2] as [4 r] is below, at or above [(2 f + 1)^2].

    The theorems: [round2] is the rounding of the real similarity to
    the nearest hundredth with ties to even ([round2_spec], which has
    one solution); on the similarity of an answer, which is not below
    0.5, it is a positive number of hundredths between 50 and 100. *)

From Stdlib Require Import List ZArith QArith Qround Qreals Reals Lra Lia.
From S2P Require Import Prelude Cosine CosineReal.
Import ListNotations.

(** The float [round(x, 2)]: [(-1)^r2_neg * r2_hund / 100]. *)
Record round2_val := mk_round2 { r2_neg : bool; r2_hund : N }.

(** [floor (sqrt r)] for a rational [r >= 0]. *)
Definition floor_sqrt (r : Q) : Z := Z.sqrt (Qfloor r).

(** [sqrt r] rounded to the nearest integer, ties to even. *)
Definition round_half_even_sqrt (r : Q) : Z :=
  let f := floor_sqrt r in
  match (4 * r ?= inject_Z ((2 * f + 1) * (2 * f + 1)))%Q with
  | Lt => f
  | Gt => f + 1
  | Eq => if Z.even f then f else (f + 1)%Z
  end.

(** [round(x, 2)] of the similarity [x = cnum / sqrt cden2]. *)
Definition round2 (x : cos_val) : round2_val :=
  mk_round2 (negb (Qle_bool 0 (cnum x)))
    (Z.to_N (round_half_even_sqrt (10000 * (cnum x * cnum x) / cden2 x))).

Local Open Scope R_scope.

(** The real number a [round2_val] stands for. *)
Definition r2_R (v : round2_val) : R :=
  (if r2_neg v then - IZR (Z.of_N (r2_hund v)) else IZR (Z.of_N (r2_hund v))) / 100.

(** [v] is [x] rounded to two decimals: a multiple of [1/100] at most
    [1/200] from [x], the even one of the two at a tie. *)
Definition round2_spec (x v : R) : Prop :=
  exists k : Z, v = IZR k / 100 /\ Rabs (x - v) <= 1 / 200
    /\ (Rabs (x - v) = 1 / 200 -> Z.even k = true).

(** ** The integer square root of a rational *)

Lemma Q2R_inject_Z (z : Z) : Q2R (inject_Z z) = IZR z.
Proof. unfold Q2R, inject_Z. simpl. field. Qed.

Lemma floor_sqrt_spec (r : Q) :
  (0 <= r)%Q ->
  (0 <= floor_sqrt r)%Z
  /\ (inject_Z (floor_sqrt r * floor_sqrt r) <= r)%Q
  /\ (r < inject_Z ((floor_sqrt r + 1) * (floor_sqrt r + 1)))%Q.
Proof.
  intros Hr. unfold floor_sqrt.
  assert (Hn : (0 <= Qfloor r)%Z) by (change 0%Z with (Qfloor 0); now apply Qfloor_resp_le).
  destruct (Z.sqrt_spec _ Hn) as [Hl Hu]. cbv zeta in Hu.
  pose proof (Qfloor_le r) as Hf. pose proof (Qlt_floor r) as Hc.
  repeat split; [now apply Z.sqrt_nonneg| |].
  - eapply Qle_trans; [rewrite <- Zle_Qle; exact Hl|exact Hf].
  - eapply Qlt_le_trans; [exact Hc|rewrite <- Zle_Qle]. lia.
Qed.

(** [f <= sqrt r < f + 1] on the reals. *)
Lemma floor_sqrt_R (r : Q) :
  (0 <= r)%Q ->
  0 <= IZR (floor_sqrt r) /\ IZR (floor_sqrt r) <= sqrt (Q2R r) < IZR (floor_sqrt r) + 1.
Proof.
  intros Hr. destruct (floor_sqrt_spec r Hr) as (H0 & Hl & Hu).
  apply Qle_Rle in Hl. apply Qlt_Rlt in Hu. rewrite Q2R_inject_Z, mult_IZR in Hl.
  rewrite Q2R_inject_Z, mult_IZR, plus_IZR in Hu.
  apply IZR_le in H0. set (f := IZR (floor_sqrt r)) in *.
  repeat split; [exact H0| |].
  - rewrite <- (sqrt_square f) by exact H0. now apply sqrt_le_1_alt.
  - rewrite <- (sqrt_square (f + 1)) by lra. apply sqrt_lt_1_alt. split; [|exact Hu].
    apply Q2R_nonneg_iff, Hr.
Qed.

Lemma Q2R_four_mult (r : Q) : Q2R (4 * r) = 4 * Q2R r.
Proof. rewrite Q2R_mult. unfold Q2R at 1. simpl. field. Qed.

Lemma even_succ_odd (f : Z) : Z.even f = false -> Z.even (f + 1) = true.
Proof. intros H. rewrite Z.add_1_r, Z.even_succ, <- Z.negb_even, H. reflexivity. Qed.

(** Distance facts on the reals, closed by case analysis on [Rabs]. *)
Ltac rabs_lra := unfold Rabs in *; repeat destruct Rcase_abs; lra.

(** [round_half_even_sqrt r] is within [1/2] of [sqrt r], and even
    when exactly [1/2] away. *)
Lemma round_half_even_sqrt_spec (r : Q) :
  (0 <= r)%Q ->
  0 <= IZR (round_half_even_sqrt r)
  /\ Rabs (sqrt (Q2R r) - IZR (round_half_even_sqrt r)) <= 1 / 2
  /\ (Rabs (sqrt (Q2R r) - IZR (round_half_even_sqrt r)) = 1 / 2 ->
      Z.even (round_half_even_sqrt r) = true).
Proof.
  intros Hr. destruct (floor_sqrt_R r Hr) as (H0 & Hl & Hu).
  assert (Hm : sqrt (Q2R r) * sqrt (Q2R r) = Q2R r) by apply sqrt_sqrt, Q2R_nonneg_iff, Hr.
  unfold round_half_even_sqrt. cbv zeta.
  set (f := floor_sqrt r) in *. set (m := sqrt (Q2R r)) in *.
  destruct (Qcompare_spec (4 * r) (inject_Z ((2 * f + 1) * (2 * f + 1)))) as [E|E|E];
    [apply Qeq_eqR in E|apply Qlt_Rlt in E|apply Qlt_Rlt in E];
    rewrite Q2R_four_mult, Q2R_inject_Z, mult_IZR, plus_IZR, mult_IZR in E;
    rewrite <- Hm in E.
  - assert (Hp : (2 * m - (2 * IZR f + 1)) * (2 * m + (2 * IZR f + 1)) = 0)
      by (transitivity (4 * (m * m) - (2 * IZR f + 1) * (2 * IZR f + 1)); [ring|rewrite E; ring]).
    assert (Ht : m = IZR f + 1 / 2) by (destruct (Rmult_integral _ _ Hp); lra).
    destruct (Z.even f) eqn:Ev; [repeat split; [lra|rabs_lra|now intros]|].
    rewrite plus_IZR. repeat split; [lra|rabs_lra|intros; now apply even_succ_odd].
  - assert (Hlt : m < IZR f + 1 / 2) by nra.
    repeat split; [lra|rabs_lra|intros; exfalso; rabs_lra].
  - assert (Hgt : IZR f + 1 / 2 < m) by nra.
    rewrite plus_IZR. repeat split; [lra|rabs_lra|intros; exfalso; rabs_lra].
Qed.

(** ** [round2] on the similarity *)

Lemma cos_R_nonneg_iff (x : cos_val) : (0 < cden2 x)%Q -> (0 <= cnum x)%Q <-> 0 <= cos_R x.
Proof.
  intros Hd. apply Q2R_pos in Hd. pose proof (sqrt_lt_R0 _ Hd) as Hs.
  unfold cos_R. rewrite Q2R_nonneg_iff. split; intros H.
  - unfold Rdiv. apply Rmult_le_pos; [exact H|left; now apply Rinv_0_lt_compat].
  - apply Rnot_lt_le. intros Hn. assert (Q2R (cnum x) / sqrt (Q2R (cden2 x)) < 0); [|lra].
    unfold Rdiv. apply Rmult_neg_pos; [exact Hn|now apply Rinv_0_lt_compat].
Qed.

Lemma Q2R_round2_arg (x : cos_val) :
  (0 < cden2 x)%Q ->
  Q2R (10000 * (cnum x * cnum x) / cden2 x) = 10000 * (Q2R (cnum x) * Q2R (cnum x)) / Q2R (cden2 x).
Proof.
  intros Hd. rewrite Q2R_div by (intros E; rewrite E in Hd; discriminate).
  rewrite !Q2R_mult. apply Q2R_pos in Hd. unfold Q2R at 1. cbn [Qnum Qden]. field. lra.
Qed.

(** [|100 x| = sqrt (10000 n^2 / d)]. *)
Lemma hundred_abs_cos (x : cos_val) :
  (0 < cden2 x)%Q -> 100 * Rabs (cos_R x) = sqrt (Q2R (10000 * (cnum x * cnum x) / cden2 x)).
Proof.
  intros Hd. rewrite Q2R_round2_arg by exact Hd. apply Q2R_pos in Hd.
  pose proof (sqrt_lt_R0 _ Hd) as Hs. pose proof (sqrt_sqrt _ (Rlt_le _ _ Hd)) as Hss.
  symmetry. apply sqrt_lem_1.
  - unfold Rdiv. apply Rmult_le_pos; [nra|left; now apply Rinv_0_lt_compat].
  - pose proof (Rabs_pos (cos_R x)). lra.
  - replace (100 * Rabs (cos_R x) * (100 * Rabs (cos_R x))) with (10000 * Rabs (cos_R x * cos_R x))
      by (rewrite Rabs_mult; ring).
    assert (Hc : cos_R x * cos_R x = Q2R (cnum x) * Q2R (cnum x) / Q2R (cden2 x))
      by (unfold cos_R; rewrite <- Hss at 3; field; lra).
    rewrite Rabs_pos_eq by nra. rewrite Hc. field. lra.
Qed.

Lemma Rabs_hundredths (c k : R) : Rabs (c - k / 100) = Rabs (100 * c - k) / 100.
Proof.
  replace (c - k / 100) with ((100 * c - k) / 100) by field.
  unfold Rdiv. rewrite Rabs_mult, (Rabs_pos_eq (/ 100)); [reflexivity|lra].
Qed.

Lemma round2_arg_nonneg (x : cos_val) : (0 < cden2 x)%Q -> (0 <= 10000 * (cnum x * cnum x) / cden2 x)%Q.
Proof.
  intros Hd. apply Q2R_nonneg_iff. rewrite Q2R_round2_arg by exact Hd.
  apply Q2R_pos in Hd. unfold Rdiv. apply Rmult_le_pos; [nra|left; now apply Rinv_0_lt_compat].
Qed.

(** [round2] rounds the real similarity to two decimals: the nearest
    multiple of [1/100], the even one at a tie, with the sign of the
    similarity. *)
Lemma round2_correct_core (x : cos_val) :
  (0 < cden2 x)%Q -> round2_spec (cos_R x) (r2_R (round2 x)).
Proof.
  intros Hd. pose proof (hundred_abs_cos x Hd) as Hm.
  destruct (round_half_even_sqrt_spec _ (round2_arg_nonneg x Hd)) as (Hk0 & Hk & Htie).
  rewrite <- Hm in Hk, Htie. unfold round2, r2_R. cbn [r2_neg r2_hund].
  set (k := round_half_even_sqrt _) in *. rewrite Z2N.id by (apply le_IZR; exact Hk0).
  destruct (Qle_bool 0 (cnum x)) eqn:Es; cbn [negb].
  - apply Qle_bool_iff, (cos_R_nonneg_iff x Hd) in Es. rewrite (Rabs_pos_eq (cos_R x)) in Hk, Htie by exact Es.
    exists k. rewrite Rabs_hundredths. repeat split; [lra|]. intros E. apply Htie. lra.
  - assert (Hn : cos_R x < 0).
    { apply Rnot_le_lt. rewrite <- (cos_R_nonneg_iff x Hd), <- Qle_bool_iff. congruence. }
    rewrite (Rabs_left (cos_R x)) in Hk, Htie by exact Hn.
    exists (- k)%Z. rewrite opp_IZR, Rabs_hundredths.
    replace (100 * cos_R x - - IZR k) with (- (100 * - cos_R x - IZR k)) by ring.
    rewrite Rabs_Ropp, Z.even_opp. repeat split; [lra|]. intros E. apply Htie. lra.
Qed.

(** C17: [round2] rounds the real similarity to two decimals: the nearest
    multiple of [1/100], the even one at a tie, with the sign of the
    similarity. *)
Theorem round2_correct (x : cos_val) :
  (0 < cden2 x)%Q -> round2_spec (cos_R x) (r2_R (round2 x)).
Proof. apply round2_correct_core. Qed.

(** Rounding to two decimals has one result. *)
Lemma round2_spec_unique (x v w : R) : round2_spec x v -> round2_spec x w -> v = w.
Proof.
  intros (k & -> & Hk & Tk) (j & -> & Hj & Tj).
  destruct (Z.eq_dec k j) as [->|Hne]; [reflexivity|exfalso].
  assert (Hkj : (k + 1 <= j)%Z \/ (j + 1 <= k)%Z) by lia.
  destruct Hkj as [H|H]; apply IZR_le in H; rewrite plus_IZR in H.
  - assert (E : IZR j = IZR (k + 1)) by (rewrite plus_IZR; rabs_lra). apply eq_IZR in E.
    assert (Ek : Z.even k = true) by (apply Tk; rabs_lra).
    assert (Ej : Z.even j = true) by (apply Tj; rabs_lra).
    apply Z.even_spec in Ek as [a ->], Ej as [b ->]. lia.
  - assert (E : IZR k = IZR (j + 1)) by (rewrite plus_IZR; rabs_lra). apply eq_IZR in E.
    assert (Ek : Z.even k = true) by (apply Tk; rabs_lra).
    assert (Ej : Z.even j = true) by (apply Tj; rabs_lra).
    apply Z.even_spec in Ek as [a ->], Ej as [b ->]. lia.
Qed.

Lemma Q2R_one_half : Q2R (1 # 2) = 1 / 2.
Proof. unfold Q2R. simpl. lra. Qed.

(** C18: the confidence of an answer from the PDF, whose similarity is
    not below 0.5, is sent as a positive number of hundredths between
    50 and 100: [0.5 <= round(confidence_score, 2) <= 1.0]. *)
Theorem answer_confidence_bounds (a b : vec) :
  cos_lt_const (cos_sim a b) (1 # 2) = false ->
  r2_neg (round2 (cos_sim a b)) = false /\ (50 <= r2_hund (round2 (cos_sim a b)) <= 100)%N.
Proof.
  intros Hlt. pose proof (cos_sim_den_pos a b) as Hd. set (x := cos_sim a b) in *.
  assert (Hge : 1 / 2 <= cos_R x).
  { apply Rnot_lt_le. rewrite <- Q2R_one_half, <- (cos_lt_const_real_core x _ Hd). congruence. }
  pose proof (cos_sim_bounds_real_core a b) as [_ Hle]. fold x in Hle.
  pose proof (hundred_abs_cos x Hd) as Hm.
  destruct (round_half_even_sqrt_spec _ (round2_arg_nonneg x Hd)) as (_ & Hk & _).
  rewrite <- Hm, (Rabs_pos_eq (cos_R x)) in Hk by lra. unfold round2. cbn [r2_neg r2_hund].
  assert (Hs : Qle_bool 0 (cnum x) = true) by (apply Qle_bool_iff, (cos_R_nonneg_iff x Hd); lra).
  rewrite Hs. split; [reflexivity|].
  set (k := round_half_even_sqrt _) in *.
  assert (H1 : IZR 49 < IZR k) by rabs_lra. assert (H2 : IZR k < IZR 101) by rabs_lra.
  apply lt_IZR in H1, H2. split; apply N2Z.inj_le; rewrite Z2N.id by lia; cbn; lia.
Qed.

(** ** Runs *)

(** [0.875] is half-way between [0.87] and [0.88]: it goes to [0.88]. *)
Lemma round2_correct_witness :
  round2_spec (cos_R (mk_cos (7 # 8) 1)) (r2_R (round2 (mk_cos (7 # 8) 1))).
Proof. apply round2_correct. reflexivity. Defined.

Example round2_tie_even : round2 (mk_cos (7 # 8) 1) = mk_round2 false 88 /\ round2 (mk_cos (1 # 8) 1) = mk_round2 false 12.
Proof. split; vm_compute; reflexivity. Qed.

(** [round(-0.001, 2)] is [-0.0]. *)
Example round2_negative_zero : round2 (mk_cos (Qmake (-1) 1000) 1) = mk_round2 true 0.
Proof. vm_compute. reflexivity. Qed.

Lemma answer_confidence_bounds_witness :
  r2_neg (round2 (cos_sim [3; 4]%Q [4; 3]%Q)) = false /\ (50 <= r2_hund (round2 (cos_sim [3; 4]%Q [4; 3]%Q)) <= 100)%N.
Proof. apply answer_confidence_bounds. vm_compute. reflexivity. Defined.
