(* ===== verification/AnswerExtractor.v ===== *)
(** * The Answer Extractor: [extract_best_sentence] (app.py, lines 155-166)

    The winning chunk is cut into sentences by
    [re.split(r'(?<!\w\.\w.)(?<![A-Z][a-z]\.)(?<=\.|\?)\s', text)]: at a
    whitespace character preceded by [.] or [?], unless the four
    characters before look like an initialism ([e.g.], [U.S.]) or the
    three before like a title ([Mr.]); the whitespace is dropped.  The
    sentences are sorted by [fuzz.ratio(s.lower(), query.lower())],
    descending and stable, and the first two are joined with a space.

    [fuzz.ratio] is rapidfuzz's and is a parameter [ratio]; [\w] and
    [lower] come from the Unicode database of [Prelude].

    The theorems: the sentences and the dropped whitespace give back
    the text; the split never returns an empty list, so the
    "No clear answer" branch cannot be taken for a non-empty chunk; the
    answer is the join of at most two sentences of the chunk, the first
    of which has the best score. *)

From Stdlib Require Import List Arith Lia Bool NArith QArith Sorted Permutation.
From S2P Require Import Prelude PyStr Ranking.
Import ListNotations.

Section Extractor.
Context `{UnicodeDB}.

(** [hist] holds the characters before the position, nearest first. *)

(** [(?<!\w\.\w.)]: word, dot, word, any character but a newline. *)
Definition abbrev_initials (hist : pystr) : bool :=
  match hist with
  | c1 :: c2 :: c3 :: c4 :: _ =>
      negb (c1 =? ch_nl)%N && is_word c2 && (c3 =? ch_dot)%N && is_word c4
  | _ => false
  end.

(** [(?<![A-Z][a-z]\.)] *)
Definition abbrev_title (hist : pystr) : bool :=
  match hist with
  | c1 :: c2 :: c3 :: _ => (c1 =? ch_dot)%N && is_lower_ascii c2 && is_upper_ascii c3
  | _ => false
  end.

(** [(?<=\.|\?)] *)
Definition after_terminal (hist : pystr) : bool :=
  match hist with
  | c1 :: _ => (c1 =? ch_dot)%N || (c1 =? ch_qmark)%N
  | [] => false
  end.

(** The pattern matches the one character [c] at this position. *)
Definition sentence_boundary (hist : pystr) (c : char) : bool :=
  negb (abbrev_initials hist) && negb (abbrev_title hist)
  && after_terminal hist && is_space c.

(** [re.split] without groups: the matched character is dropped. *)
Fixpoint split_sentences_go (hist acc s : pystr) : list pystr :=
  match s with
  | [] => [rev acc]
  | c :: s' =>
      if sentence_boundary hist c then rev acc :: split_sentences_go (c :: hist) [] s'
      else split_sentences_go (c :: hist) (c :: acc) s'
  end.

Definition split_sentences (text : pystr) : list pystr := split_sentences_go [] [] text.

Variable ratio : pystr -> pystr -> Q.

(** [fuzz.ratio(s.lower(), query.lower())] *)
Definition sentence_score (query s : pystr) : Q := ratio (lower s) (lower query).

Definition no_relevant_answer : pystr := py "No relevant answer found.".
Definition no_clear_answer : pystr := py "No clear answer found in the document.".

(** [sorted(sentences, key=..., reverse=True)[:2]] *)
Definition best_sentences (text query : pystr) : list pystr :=
  firstn 2 (sort_desc (sentence_score query) (split_sentences text)).

Definition extract_best_sentence (text query : pystr) : pystr :=
  match text with
  | [] => no_relevant_answer
  | _ =>
      match best_sentences text query with
      | [] => no_clear_answer
      | bs => join [ch_space] bs
      end
  end.
End Extractor.

(** ** The sentence split *)

(** [weave_seps [p0; ...; pn] [c1; ...; cn]] is [p0 ++ c1 :: p1 ++ ... ++ cn :: pn]. *)
Fixpoint weave_seps (ps : list pystr) (seps : pystr) : pystr :=
  match ps, seps with
  | p :: ps', c :: seps' => p ++ c :: weave_seps ps' seps'
  | p :: _, [] => p
  | [], _ => []
  end.

Section ExtractorLemmas.
Context `{UnicodeDB}.

Lemma split_sentences_go_not_nil hist acc s : split_sentences_go hist acc s <> [].
Proof.
  revert hist acc. induction s as [|c s IH]; intros hist acc; simpl; [discriminate|].
  destruct (sentence_boundary hist c); [discriminate|apply IH].
Qed.

Lemma split_sentences_go_weave hist acc s :
  exists seps, rev acc ++ s = weave_seps (split_sentences_go hist acc s) seps
    /\ S (length seps) = length (split_sentences_go hist acc s)
    /\ forallb is_space seps = true.
Proof.
  revert hist acc. induction s as [|c s IH]; intros hist acc; simpl.
  - exists []. now rewrite app_nil_r.
  - destruct (sentence_boundary hist c) eqn:Hb.
    + destruct (IH (c :: hist) []) as (seps & Hw & Hl & Hs).
      exists (c :: seps). simpl. rewrite <- Hw, Hl, Hs.
      unfold sentence_boundary in Hb. bsimpl. now destruct Hb as [_ ->].
    + destruct (IH (c :: hist) (c :: acc)) as (seps & Hw & Hl & Hs).
      exists seps. simpl in Hw. rewrite <- Hw, <- app_assoc. auto.
Qed.
End ExtractorLemmas.

#[export] Hint Resolve split_sentences_go_not_nil : pydb.

(** the sentences, with the single whitespace character the split
    dropped after each but the last, give back the chunk. *)
Theorem split_sentences_roundtrip `{UnicodeDB} (text : pystr) :
  exists seps, text = weave_seps (split_sentences text) seps
    /\ S (length seps) = length (split_sentences text)
    /\ forallb is_space seps = true.
Proof. exact (split_sentences_go_weave [] [] text). Qed.

(** C31: for a non-empty chunk the answer is the join of its two
    best-scoring sentences, or of its only sentence: [best], then
    [second] when the chunk has two sentences or more.  The chosen
    sentences followed by the rest are the sentences sorted by
    descending score, sentences of equal score kept in text order, so
    no sentence left out scores more than a chosen one and a tie goes
    to the earlier sentence.  In particular the ["No clear answer"]
    branch is dead. *)
Theorem extract_best_sentence_top2 `{UnicodeDB} (ratio : pystr -> pystr -> Q)
    (text query : pystr) :
  text <> [] ->
  exists best others rest,
    best_sentences ratio text query = best :: others
    /\ extract_best_sentence ratio text query = join [ch_space] (best :: others)
    /\ length others = Nat.min 1 (length (split_sentences text) - 1)
    /\ Permutation (best :: others ++ rest) (split_sentences text)
    /\ Sorted (desc (sentence_score ratio query)) (best :: others ++ rest)
    /\ stable_wrt (sentence_score ratio query) (best :: others ++ rest) (split_sentences text)
    /\ (forall c r, In c (best :: others) -> In r rest ->
          (sentence_score ratio query r <= sentence_score ratio query c)%Q).
Proof.
  intros Hne. set (key := sentence_score ratio query).
  pose proof (sort_desc_top key (split_sentences text)) as Htop.
  pose proof (sort_desc_perm key (split_sentences text)) as Hperm.
  pose proof (sort_desc_sorted key (split_sentences text)) as Hsorted.
  pose proof (sort_desc_stable key (split_sentences text)) as Hstable.
  assert (HL : sort_desc key (split_sentences text) <> [])
    by (intros E; apply sort_desc_nil_iff in E; exact (split_sentences_go_not_nil _ _ _ E)).
  destruct (sort_desc key (split_sentences text)) as [|best L'] eqn:EL; [congruence|].
  exists best, (firstn 1 L'), (skipn 1 L').
  assert (Hbs : best_sentences ratio text query = best :: firstn 1 L')
    by (unfold best_sentences; fold key; now rewrite EL).
  rewrite firstn_skipn. repeat split; [exact Hbs| | |exact Hperm|exact Hsorted|exact Hstable|].
  - unfold extract_best_sentence. destruct text; [congruence|]. now rewrite Hbs.
  - rewrite length_firstn, <- (Permutation_length Hperm). cbn [length]. now rewrite Nat.sub_succ, Nat.sub_0_r.
  - intros c r Hc Hr. apply Qle_bool_iff. exact (Htop 2%nat c r Hc Hr).
Qed.

(** ** Concrete runs *)

(** A title abbreviation and an initialism do not end a sentence. *)
Example split_sentences_abbreviations :
  split_sentences (py "Mr. Smith arrived. He left? It is e.g. fine.")
  = [py "Mr. Smith arrived."; py "He left?"; py "It is e.g. fine."].
Proof. vm_compute. reflexivity. Qed.

Lemma extract_best_sentence_top2_witness :
  exists best others,
    best_sentences (fun s _ => Z.of_nat (length s) # 1)
      (py "Mr. Smith arrived. He left? It is e.g. fine.") (py "who left?")
    = best :: others /\ (length others <= 1)%nat.
Proof.
  destruct (extract_best_sentence_top2 (fun s _ => Z.of_nat (length s) # 1)
              (py "Mr. Smith arrived. He left? It is e.g. fine.") (py "who left?"))
    as (b & o & r & H1 & _ & H3 & _); [discriminate|].
  exists b, o. split; [exact H1|]. rewrite H3. apply Nat.le_min_l.
Defined.

Example extract_best_sentence_run :
  extract_best_sentence (fun s _ => Z.of_nat (length s) # 1)
    (py "Mr. Smith arrived. He left? It is e.g. fine.") (py "who left?")
  = py "Mr. Smith arrived. It is e.g. fine.".
Proof. vm_compute. reflexivity. Qed.
