(* ===== verification/VectorStore.v ===== *)
(** * The Vector Store: the [pdf_chunks] table (app.py, lines 43-71, 186-195)

    State: the SQLite database, [None] before [CREATE TABLE] has run,
    else the table [pdf_chunks(id INTEGER PRIMARY KEY AUTOINCREMENT,
    chunk TEXT NOT NULL, embedding BLOB NOT NULL)] with its rows in
    rowid order and its [sqlite_sequence] counter.  Embeddings are
    stored as [pickle.dumps] blobs; [Pickle] is the interface the store
    needs from the codec (its round-trip law).

    Operations: the SQL statements of app.py ([stmt], [exec_stmt]); the
    transaction of [with sqlite3.connect(...) as conn:] which commits
    when every statement succeeds and rolls back when one raises
    ([transaction], the statement failures coming from a fault oracle);
    [init_db] (the table creation of the main block),
    [compute_and_store_embeddings] and [load_data_from_db].

    The theorems: storing then loading gives back the chunks and their
    embeddings exactly, in order; a run with failures leaves the old
    table as it was; no chunks means no change; the well-formedness of
    the table is preserved; ids continue after the old ones; a corrupt
    blob makes the load fail with [SerializationError].  The load also
    fails when the stored embeddings differ in length: [np.array] then
    raises ([uniform_dims]). *)

From Stdlib Require Import List Arith Lia Bool QArith Sorted.
From S2P Require Import Prelude PyStr Segmenter Cosine.
Import ListNotations.
Local Open Scope nat_scope.

(** ** The codec *)

Class Pickle := {
  blob : Type;
  dumps : vec -> blob;
  loads : blob -> option vec;
  loads_dumps : forall v, loads (dumps v) = Some v
}.

(** ** State *)

Section Store.
Context `{Pickle}.

Record row := mk_row { row_id : nat; row_chunk : pystr; row_embedding : blob }.

Record table := mk_table { rows : list row; sqlite_seq : nat }.

Definition db := option table.

(** [sqlite3.OperationalError] (no table, I/O failure), a blob that
    [pickle.loads] rejects, and numpy's [ValueError] on
    [np.array(embeddings)] when the embeddings differ in length. *)
Inductive store_error := StorageError | SerializationError | ArrayShapeError.

Inductive stmt :=
| CreateTable
| DeleteAll
| Insert (chunk : pystr) (embedding : blob).

Definition max_id (rs : list row) : nat := fold_right (fun r m => Nat.max (row_id r) m) 0 rs.

(** One statement; [None] is the table-less database, on which
    [DELETE] and [INSERT] raise [OperationalError]. *)
Definition exec_stmt (d : db) (s : stmt) : store_error + db :=
  match s, d with
  | CreateTable, None => inr (Some (mk_table [] 0))
  | CreateTable, Some t => inr (Some t)
  | DeleteAll, None => inl StorageError
  | DeleteAll, Some t => inr (Some (mk_table [] (sqlite_seq t)))
  | Insert c e, None => inl StorageError
  | Insert c e, Some t =>
      (** AUTOINCREMENT: one more than the largest id ever used. *)
      let id := S (Nat.max (sqlite_seq t) (max_id (rows t))) in
      inr (Some (mk_table (rows t ++ [mk_row id c e]) id))
  end.

(** Statements [i, i+1, ...] on the connection's working copy;
    [fault i] is an I/O failure of statement [i]. *)
Fixpoint exec_all (fault : nat -> bool) (i : nat) (d : db) (ss : list stmt) : store_error + db :=
  match ss with
  | [] => inr d
  | s :: ss' =>
      if fault i then inl StorageError
      else match exec_stmt d s with
           | inl e => inl e
           | inr d' => exec_all fault (S i) d' ss'
           end
  end.

(** [with sqlite3.connect(DATABASE) as conn: ...; conn.commit()]:
    commit on success, roll back and re-raise on an exception. *)
Definition transaction (fault : nat -> bool) (d : db) (ss : list stmt) : db * option store_error :=
  match exec_all fault 0 d ss with
  | inr d' => (d', None)
  | inl e => (d, Some e)
  end.

(** The table creation of the main block. *)
Definition init_db (fault : nat -> bool) (d : db) : db * option store_error :=
  transaction fault d [CreateTable].

Definition insert_stmts (chunks : list pystr) (embeddings : list vec) : list stmt :=
  map (fun ce => Insert (fst ce) (dumps (snd ce))) (combine chunks embeddings).

(** [compute_and_store_embeddings(pdf_path)]; [embed] is
    [model.encode] on one text, [extract_text] pdfminer's extractor. *)
Definition compute_and_store_embeddings (extract_text : pystr -> option pystr)
    (embed : pystr -> vec) (fault : nat -> bool) (pdf_path : pystr) (d : db)
    : db * option store_error :=
  let pdf_chunks := extract_pdf_text extract_text pdf_path in
  match pdf_chunks with
  | [] => (d, None)
  | _ =>
      let embeddings := map embed pdf_chunks in
      transaction fault d (DeleteAll :: insert_stmts pdf_chunks embeddings)
  end.

(** [load_data_from_db()]: [SELECT chunk, embedding FROM pdf_chunks]
    in table order, unpickling each embedding. *)
Fixpoint load_rows (rs : list row) : store_error + (list pystr * list vec) :=
  match rs with
  | [] => inr ([], [])
  | r :: rs' =>
      match loads (row_embedding r) with
      | None => inl SerializationError
      | Some v =>
          match load_rows rs' with
          | inl e => inl e
          | inr (cs, es) => inr (row_chunk r :: cs, v :: es)
          end
      end
  end.

(** [np.array(embeddings)] builds a 2-D array only when all the
    embeddings have one length; on a ragged list numpy (1.24 and
    later) raises [ValueError]. *)
Definition uniform_dims (es : list vec) : bool :=
  match es with
  | [] => true
  | e :: es' => forallb (fun e' => length e' =? length e) es'
  end.

Definition load_data_from_db (d : db) : store_error + (list pystr * list vec) :=
  match d with
  | None => inl StorageError
  | Some t =>
      match load_rows (rows t) with
      | inl e => inl e
      | inr (chunks, embeddings) =>
          if uniform_dims embeddings then inr (chunks, embeddings) else inl ArrayShapeError
      end
  end.
End Store.

Arguments row : clear implicits.
Arguments table : clear implicits.
Arguments db : clear implicits.

(** ** Well-formed tables *)

Section StoreLemmas.
Context `{Pickle}.

(** The rows written by the inserts of a run starting at sequence
    number [s]. *)
Fixpoint new_rows (s : nat) (ces : list (pystr * vec)) : list (row H) :=
  match ces with
  | [] => []
  | (c, e) :: ces' => mk_row (S s) c (dumps e) :: new_rows (S s) ces'
  end.

(** The invariant: ids strictly increasing and bounded by the
    sequence counter, every chunk non-empty and stripped, every blob
    decodable to a vector of dimension [dim]. *)
Definition wf_table (dim : nat) (t : table H) : Prop :=
  Sorted lt (map row_id (rows t))
  /\ max_id (rows t) <= sqlite_seq t
  /\ Forall (fun r => row_chunk r <> [] /\ strip (row_chunk r) = row_chunk r) (rows t)
  /\ Forall (fun r => exists v, loads (row_embedding r) = Some v /\ length v = dim) (rows t).

Definition wf_db (dim : nat) (d : db H) : Prop :=
  match d with None => True | Some t => wf_table dim t end.

Lemma max_id_app (rs1 rs2 : list (row H)) : max_id (rs1 ++ rs2) = Nat.max (max_id rs1) (max_id rs2).
Proof. induction rs1 as [|r rs IH]; simpl; [reflexivity|]. rewrite IH. lia. Qed.

Lemma max_id_cons (r : row H) rs : max_id (r :: rs) = Nat.max (row_id r) (max_id rs).
Proof. reflexivity. Qed.

Lemma max_id_new_rows s ces : max_id (new_rows s ces) <= s + length ces.
Proof.
  revert s. induction ces as [|[c e] ces IH]; intros s; [simpl; lia|].
  cbn [new_rows length]. rewrite max_id_cons. specialize (IH (S s)). simpl row_id. lia.
Qed.

Lemma exec_inserts fault i rs s chunks embeddings :
  max_id rs <= s ->
  (forall k, fault k = false) ->
  exec_all fault i (Some (mk_table rs s)) (insert_stmts chunks embeddings)
  = inr (Some (mk_table (rs ++ new_rows s (combine chunks embeddings))
                        (s + length (combine chunks embeddings)))).
Proof.
  unfold insert_stmts. intros Hm Hf. revert i rs s Hm.
  induction (combine chunks embeddings) as [|[c e] ces IH]; intros i rs s Hm; simpl.
  - now rewrite app_nil_r, Nat.add_0_r.
  - rewrite Hf. cbn [exec_stmt rows sqlite_seq].
    replace (Nat.max s (max_id rs)) with s by lia.
    rewrite IH by (rewrite max_id_app; simpl; lia).
    now rewrite <- app_assoc, Nat.add_succ_r.
Qed.

(** A run that succeeds under faults is the fault-free run. *)
Lemma exec_all_fault_free fault i d ss d' :
  exec_all fault i d ss = inr d' -> exec_all (fun _ => false) i d ss = inr d'.
Proof.
  revert i d. induction ss as [|s ss IH]; intros i d; simpl; [tauto|].
  destruct (fault i); [discriminate|].
  destruct (exec_stmt d s); [discriminate|]. apply IH.
Qed.

Lemma load_rows_new_rows s ces :
  load_rows (new_rows s ces) = inr (map fst ces, map snd ces).
Proof.
  revert s. induction ces as [|[c e] ces IH]; intros s; simpl; [reflexivity|].
  now rewrite loads_dumps, IH.
Qed.

Lemma new_rows_ids s ces : map row_id (new_rows s ces) = seq (S s) (length ces).
Proof.
  revert s. induction ces as [|[c e] ces IH]; intros s; simpl; [reflexivity|].
  now rewrite IH.
Qed.
(** The two lists [load_data_from_db] returns come from the same rows. *)
Lemma load_rows_length (rs : list (row H)) cs es :
  load_rows rs = inr (cs, es) -> length cs = length es.
Proof.
  revert cs es. induction rs as [|r rs IH]; intros cs es; cbn [load_rows].
  - now intros [= <- <-].
  - destruct (loads (row_embedding r)); [|discriminate].
    destruct (load_rows rs) as [|[cs' es']]; [discriminate|].
    intros [= <- <-]. cbn. f_equal. now apply IH.
Qed.

Lemma load_data_from_db_length (d : db H) cs es :
  load_data_from_db d = inr (cs, es) -> length cs = length es.
Proof.
  destruct d as [t|]; [|discriminate]. cbn [load_data_from_db].
  destruct (load_rows (rows t)) as [|[cs' es']] eqn:E; [discriminate|].
  destruct (uniform_dims es'); [|discriminate]. intros [= <- <-]. exact (load_rows_length _ _ _ E).
Qed.

(** An encoder of one output length gives uniform embeddings. *)
Lemma uniform_dims_map {A} (embed : A -> vec) (l : list A) :
  (forall x y, length (embed x) = length (embed y)) -> uniform_dims (map embed l) = true.
Proof.
  intros Hd. destruct l as [|x l]; [reflexivity|]. cbn.
  apply forallb_forall. intros e (y & <- & _)%in_map_iff. apply Nat.eqb_eq, Hd.
Qed.
End StoreLemmas.

Lemma map_fst_combine_map {A B} (f : A -> B) (l : list A) : map fst (combine l (map f l)) = l.
Proof. induction l as [|x l IH]; simpl; [reflexivity|]. now rewrite IH. Qed.

Lemma map_snd_combine_map {A B} (f : A -> B) (l : list A) : map snd (combine l (map f l)) = map f l.
Proof. induction l as [|x l IH]; simpl; [reflexivity|]. now rewrite IH. Qed.

Lemma length_combine_map {A B} (f : A -> B) (l : list A) : length (combine l (map f l)) = length l.
Proof. induction l as [|x l IH]; simpl; [reflexivity|]. now rewrite IH. Qed.

Lemma sorted_lt_seq (a n : nat) : Sorted lt (seq a n).
Proof.
  revert a. induction n as [|n IH]; intros a; simpl; constructor; [apply IH|].
  destruct n; simpl; constructor. lia.
Qed.

#[export] Hint Rewrite @map_fst_combine_map @map_snd_combine_map @length_combine_map : pyb.

Section StoreRun.
Context `{Pickle}.

(** The successful run of [compute_and_store_embeddings] on a table,
    in closed form. *)
Lemma compute_and_store_success ext embed fault pdf_path d d' :
  extract_pdf_text ext pdf_path <> [] ->
  compute_and_store_embeddings ext embed fault pdf_path d = (d', None) ->
  exists t, d = Some t /\
    d' = Some (mk_table (new_rows (sqlite_seq t)
                 (combine (extract_pdf_text ext pdf_path) (map embed (extract_pdf_text ext pdf_path))))
               (sqlite_seq t + length (extract_pdf_text ext pdf_path))).
Proof.
  intros Hne. unfold compute_and_store_embeddings, transaction.
  destruct (extract_pdf_text ext pdf_path) as [|c cs] eqn:E; [congruence|].
  destruct (exec_all fault 0 d _) as [e|d''] eqn:Hx; [discriminate|]. intros [= <-].
  apply exec_all_fault_free in Hx. destruct d as [t|]; [|discriminate]. exists t. split; [reflexivity|].
  cbn [exec_all exec_stmt] in Hx.
  rewrite exec_inserts in Hx by first [intros; reflexivity | simpl; lia].
  injection Hx as <-. now rewrite length_combine_map.
Qed.
End StoreRun.

Section StoreTheorems.
Context `{Pickle}.

Lemma compute_and_store_no_fault ext embed pdf_path t :
  extract_pdf_text ext pdf_path <> [] ->
  compute_and_store_embeddings ext embed (fun _ => false) pdf_path (Some t) =
    (Some (mk_table (new_rows (sqlite_seq t)
                (combine (extract_pdf_text ext pdf_path) (map embed (extract_pdf_text ext pdf_path))))
              (sqlite_seq t + length (extract_pdf_text ext pdf_path))), None).
Proof.
  intros Hne. unfold compute_and_store_embeddings, transaction.
  destruct (extract_pdf_text ext pdf_path) as [|c cs] eqn:E; [congruence|].
  cbn [exec_all exec_stmt].
  rewrite exec_inserts by first [intros; reflexivity | simpl; lia].
  now rewrite length_combine_map.
Qed.

(** C26: with an encoder of one output length, storing a document's
    chunks and loading them back gives the chunks and their embeddings
    exactly, in the order of the document. *)
Theorem store_load_roundtrip ext embed pdf_path t :
  extract_pdf_text ext pdf_path <> [] ->
  (forall x y, length (embed x) = length (embed y)) ->
  load_data_from_db (fst (compute_and_store_embeddings ext embed (fun _ => false) pdf_path (Some t)))
  = inr (extract_pdf_text ext pdf_path, map embed (extract_pdf_text ext pdf_path)).
Proof.
  intros Hne Hd. rewrite compute_and_store_no_fault by exact Hne. cbn [fst load_data_from_db rows].
  now rewrite load_rows_new_rows, map_fst_combine_map, map_snd_combine_map, uniform_dims_map.
Qed.

(** Whatever statements fail, an ingestion either commits the
    result of the failure-free run or reports an error and leaves the
    database as it was. *)
Lemma store_atomic_core ext embed fault pdf_path d :
  let r := compute_and_store_embeddings ext embed fault pdf_path d in
  (snd r = None /\ fst r = fst (compute_and_store_embeddings ext embed (fun _ => false) pdf_path d))
  \/ (snd r <> None /\ fst r = d).
Proof.
  unfold compute_and_store_embeddings, transaction.
  destruct (extract_pdf_text ext pdf_path) as [|c cs]; [now left|].
  destruct (exec_all fault 0 d _) as [e|d'] eqn:Hx.
  - right. simpl. split; [discriminate|reflexivity].
  - left. apply exec_all_fault_free in Hx. now rewrite Hx.
Qed.

(** C28: whatever statements fail, an ingestion either commits the
    result of the failure-free run or reports an error and leaves the
    database as it was. *)
Theorem store_atomic ext embed fault pdf_path d :
  let r := compute_and_store_embeddings ext embed fault pdf_path d in
  (snd r = None /\ fst r = fst (compute_and_store_embeddings ext embed (fun _ => false) pdf_path d))
  \/ (snd r <> None /\ fst r = d).
Proof. apply store_atomic_core. Qed.

(** An ingestion of a document with no chunks changes nothing and
    reports nothing. *)
Lemma store_no_chunks_core ext embed fault pdf_path d :
  extract_pdf_text ext pdf_path = [] ->
  compute_and_store_embeddings ext embed fault pdf_path d = (d, None).
Proof. intros He. unfold compute_and_store_embeddings. now rewrite He. Qed.

(** An ingestion of a document with no chunks changes nothing and
    reports nothing. *)
Theorem store_no_chunks ext embed fault pdf_path d :
  extract_pdf_text ext pdf_path = [] ->
  compute_and_store_embeddings ext embed fault pdf_path d = (d, None).
Proof. apply store_no_chunks_core. Qed.

(** C30: after a committed ingestion the ids are the next ones after
    the old [sqlite_sequence], one per chunk, in order: AUTOINCREMENT
    does not restart them at 1. *)
Theorem store_ids_continue ext embed fault pdf_path d d' :
  extract_pdf_text ext pdf_path <> [] ->
  compute_and_store_embeddings ext embed fault pdf_path d = (d', None) ->
  exists t t', d = Some t /\ d' = Some t' /\
    map row_id (rows t') = List.seq (S (sqlite_seq t)) (length (extract_pdf_text ext pdf_path)).
Proof.
  intros Hne Hs. destruct (compute_and_store_success _ _ _ _ _ _ Hne Hs) as (t & -> & ->).
  eexists _, _. repeat split. simpl. now rewrite new_rows_ids, length_combine_map.
Qed.

(** Reading rows fails only on a blob that does not unpickle. *)
Lemma load_rows_error (rs : list (row H)) e : load_rows rs = inl e -> e = SerializationError.
Proof.
  induction rs as [|r rs IH]; cbn [load_rows]; [discriminate|].
  destruct (loads (row_embedding r)); [|congruence].
  destruct (load_rows rs) as [e'|[cs es]]; [intros [= <-]; now apply IH|discriminate].
Qed.

Lemma load_rows_serialization (rs : list (row H)) :
  load_rows rs = inl SerializationError <-> Exists (fun r => loads (row_embedding r) = None) rs.
Proof.
  induction rs as [|r rs IH]; cbn [load_rows].
  - split; [discriminate|intros Hx; inversion Hx].
  - rewrite Exists_cons, <- IH. destruct (loads (row_embedding r)) as [v|]; [|tauto].
    destruct (load_rows rs) as [e|[cs es]] eqn:E.
    + apply load_rows_error in E as ->. tauto.
    + split; [discriminate|intros [Hx|Hx]; discriminate].
Qed.

(** Loading fails with [SerializationError] exactly when some
    stored blob does not unpickle. *)
Theorem load_serialization_error (t : table H) :
  load_data_from_db (Some t) = inl SerializationError
  <-> Exists (fun r => loads (row_embedding r) = None) (rows t).
Proof.
  cbn [load_data_from_db]. rewrite <- load_rows_serialization.
  destruct (load_rows (rows t)) as [e|[cs es]]; [tauto|].
  destruct (uniform_dims es); split; discriminate.
Qed.

Lemma Forall_new_rows (P : row H -> Prop) s ces :
  (forall k c e, In (c, e) ces -> P (mk_row k c (dumps e))) -> Forall P (new_rows s ces).
Proof.
  revert s. induction ces as [|[c e] ces IH]; intros s HP; simpl; constructor.
  - apply HP. now left.
  - apply IH. intros k c' e' Hin. apply HP. now right.
Qed.

Lemma in_combine_map {A B} (f : A -> B) (l : list A) x y :
  In (x, y) (combine l (map f l)) -> In x l /\ y = f x.
Proof.
  induction l as [|a l IH]; simpl; [tauto|].
  intros [[= <- <-]|Hin]; [auto|]. destruct (IH Hin). auto.
Qed.

(** C29: ingestion preserves the well-formedness of the table: ids
    increasing and below the sequence counter, chunks non-empty and
    stripped, every blob decoding to a vector of the embedder's
    dimension. *)
Theorem store_preserves_wf (dim : nat) ext embed fault pdf_path (d : db H) :
  (forall x, length (embed x) = dim) -> wf_db dim d ->
  wf_db dim (fst (compute_and_store_embeddings ext embed fault pdf_path d)).
Proof.
  intros Hdim Hwf.
  destruct (store_atomic_core ext embed fault pdf_path d) as [[Hn _]|[_ ->]]; [|exact Hwf].
  destruct (compute_and_store_embeddings ext embed fault pdf_path d) as [d' e] eqn:Hr.
  simpl in Hn |- *. subst e.
  destruct (extract_pdf_text ext pdf_path) as [|c cs] eqn:Ec.
  { rewrite store_no_chunks_core in Hr by exact Ec. now injection Hr as <-. }
  destruct (compute_and_store_success ext embed fault pdf_path d d') as (t & -> & ->);
    [congruence|exact Hr|].
  rewrite Ec. unfold wf_db, wf_table. cbn [rows sqlite_seq]. repeat split.
  - rewrite new_rows_ids. apply sorted_lt_seq.
  - cbn [rows sqlite_seq]. rewrite <- (length_combine_map embed (c :: cs)). apply max_id_new_rows.
  - apply Forall_new_rows. intros k x y [Hx _]%in_combine_map. simpl.
    pose proof (extract_pdf_text_chunks_stripped_core ext pdf_path) as Hs.
    rewrite Ec, Forall_forall in Hs. exact (Hs x Hx).
  - apply Forall_new_rows. intros k x y [_ ->]%in_combine_map. simpl.
    exists (embed x). now rewrite loads_dumps.
Qed.
End StoreTheorems.

(** ** Concrete runs

    [model_pickle] keeps the vector itself as the blob, [None] standing
    for a blob that does not unpickle. *)

#[export] Program Instance model_pickle : Pickle :=
  {| blob := option vec; dumps := Some; loads b := b |}.

Definition sample_text : pystr := py "Revenue grew 10%." ++ [ch_nl] ++ py "- Profit fell 2%.".
Definition sample_extract (_ : pystr) : option pystr := Some sample_text.
Definition sample_embed (s : pystr) : vec := [inject_Z (Z.of_nat (length s)); 1%Q].
Definition sample_table : table model_pickle :=
  mk_table [mk_row 4 (py "old") (Some [1%Q; 1%Q])] 5.

Lemma store_load_roundtrip_witness :
  load_data_from_db (fst (compute_and_store_embeddings sample_extract sample_embed
                            (fun _ => false) (py "doc.pdf") (Some sample_table)))
  = inr ([py "Revenue grew 10%."; py "-"; py "Profit fell 2%."],
         map sample_embed [py "Revenue grew 10%."; py "-"; py "Profit fell 2%."]).
Proof. apply (store_load_roundtrip sample_extract); [vm_compute; discriminate|intros; reflexivity]. Defined.

Lemma store_no_chunks_witness :
  compute_and_store_embeddings (fun _ => None) sample_embed (fun _ => true)
    (py "missing.pdf") (Some sample_table) = (Some sample_table, None).
Proof. apply store_no_chunks. reflexivity. Defined.

Lemma store_ids_continue_witness :
  exists t t', Some sample_table = Some t
    /\ fst (compute_and_store_embeddings sample_extract sample_embed (fun _ => false)
              (py "doc.pdf") (Some sample_table)) = Some t'
    /\ map row_id (rows t') = [6; 7; 8].
Proof.
  destruct (store_ids_continue sample_extract sample_embed (fun _ => false) (py "doc.pdf")
              (Some sample_table)
              (fst (compute_and_store_embeddings sample_extract sample_embed (fun _ => false)
                      (py "doc.pdf") (Some sample_table))))
    as (t & t' & E1 & E2 & E3); [vm_compute; discriminate|vm_compute; reflexivity|].
  exists t, t'. injection E1 as <-. repeat split; [exact E2|]. rewrite E3. reflexivity.
Defined.

Lemma store_preserves_wf_witness :
  wf_db 2 (fst (compute_and_store_embeddings sample_extract sample_embed
                  (fun k => Nat.eqb k 2) (py "doc.pdf") (Some sample_table))).
Proof.
  apply store_preserves_wf; [reflexivity|].
  repeat split; repeat constructor; try discriminate. eexists; split; reflexivity.
Defined.

(** A failure of the third statement rolls the whole ingestion back. *)
Example store_rollback_run :
  compute_and_store_embeddings sample_extract sample_embed (fun k => Nat.eqb k 2)
    (py "doc.pdf") (Some sample_table) = (Some sample_table, Some StorageError).
Proof. reflexivity. Qed.
