(* ===== verification/Trainer.v ===== *)
(** * The Trainer: [train_chatbot] (app.py, lines 74-93)

    Every chunk of the document is cut by [chunk.split(". ")]; for each
    sentence but the last, the stripped sentence is a question and the
    join of it and the next two sentences ([". ".join(sentences[i:i+3])])
    the answer, kept when the question has more than 5 and the answer
    more than 10 characters.  The pairs are flattened into one list,
    [sum([[q, a] for q, a in qa_pairs], [])], and given to ChatterBot's
    [ListTrainer.train], an external operation on the bot's state.

    The theorems: the sentences of a chunk joined back give the chunk;
    every pair passes the length filter and its answer starts with the
    very sentence its question was taken from; in the flattened
    conversation each answer is immediately followed by the next
    question. *)

From Stdlib Require Import List Arith Lia Bool NArith.
From S2P Require Import Prelude PyStr Segmenter.
Import ListNotations.

(** [". "] *)
Definition sentence_sep : pystr := [ch_dot; ch_space].

(** [chunk.split(". ")] *)
Definition chunk_sentences (chunk : pystr) : list pystr := split_go ch_dot [ch_space] [] chunk.

(** The body of [for i in range(len(sentences) - 1)]. *)
Definition qa_pair_at (sentences : list pystr) (i : nat) : list (pystr * pystr) :=
  let question := strip (nth i sentences []) in
  let full_answer := join sentence_sep (firstn 3 (skipn i sentences)) in
  if (5 <? length question) && (10 <? length full_answer)
  then [(question, full_answer)] else [].

Definition qa_pairs_of_chunk (chunk : pystr) : list (pystr * pystr) :=
  let sentences := chunk_sentences chunk in
  flat_map (qa_pair_at sentences) (seq 0 (length sentences - 1)).

(** [sum([[q, a] for q, a in qa_pairs], [])] *)
Definition conversation (qa_pairs : list (pystr * pystr)) : list pystr :=
  fold_right (fun qa acc => [fst qa; snd qa] ++ acc) [] qa_pairs.

Section Train.
(** ChatterBot's state and [ListTrainer.train]. *)
Variable bot_state : Type.
Variable list_train : bot_state -> list pystr -> bot_state.

Definition train_chatbot (extract_text : pystr -> option pystr) (bot : bot_state) : bot_state :=
  let pdf_chunks := extract_pdf_text extract_text (py "Power_Grid_Ltd.pdf") in
  let qa_pairs := flat_map qa_pairs_of_chunk pdf_chunks in
  list_train bot (conversation qa_pairs).
End Train.

(** ** Properties *)

(** The sentences of a chunk, joined back with [". "], give the chunk. *)
Theorem chunk_sentences_roundtrip (chunk : pystr) :
  join sentence_sep (chunk_sentences chunk) = chunk.
Proof. exact (join_split_go ch_dot [ch_space] [] chunk). Qed.

Lemma join_firstn_prefix (sep s : pystr) (ss : list pystr) (n : nat) :
  exists rest, join sep (firstn (S n) (s :: ss)) = s ++ rest.
Proof.
  destruct n as [|n]; simpl; [exists []; now rewrite app_nil_r|].
  destruct ss as [|s' ss]; simpl; [exists []; now rewrite app_nil_r|].
  eexists. reflexivity.
Qed.

(** C32: every trained pair passes the length filter, and its answer
    begins with the sentence its question was stripped from (the
    question is repeated at the start of its own answer). *)
Theorem qa_pairs_shape (chunk q a : pystr) :
  In (q, a) (qa_pairs_of_chunk chunk) ->
  exists i s rest, nth_error (chunk_sentences chunk) i = Some s
    /\ q = strip s /\ a = s ++ rest
    /\ 5 < length q /\ 10 < length a.
Proof.
  unfold qa_pairs_of_chunk. set (ss := chunk_sentences chunk).
  intros [i [Hi Hin]]%in_flat_map. apply in_seq in Hi.
  destruct (nth_error ss i) as [s|] eqn:Hs; [|apply nth_error_None in Hs; lia].
  destruct (nth_error_split ss i Hs) as (l1 & l2 & Hsplit & Hlen).
  unfold qa_pair_at in Hin. rewrite Hsplit in Hin.
  rewrite app_nth2, Hlen, Nat.sub_diag in Hin by lia.
  rewrite skipn_app, Hlen, Nat.sub_diag, skipn_all2, app_nil_l in Hin by lia.
  cbn [nth skipn] in Hin.
  destruct (join_firstn_prefix sentence_sep s l2 2) as [rest Hr]. rewrite Hr in Hin.
  destruct ((5 <? _) && (10 <? _)) eqn:Hf; [|destruct Hin].
  destruct Hin as [[= <- <-]|[]]. bsimpl.
  exists i, s, rest. tauto.
Qed.

(** In the flattened conversation, the answer of each pair is
    immediately followed by the question of the next one. *)
Theorem conversation_answer_then_question (l1 l2 : list (pystr * pystr)) (q1 a1 q2 a2 : pystr) :
  exists pre post,
    conversation (l1 ++ (q1, a1) :: (q2, a2) :: l2) = pre ++ [q1; a1; q2; a2] ++ post.
Proof.
  exists (conversation l1), (conversation l2). unfold conversation.
  rewrite fold_right_app. simpl.
  induction l1 as [|[q a] l1 IH]; [reflexivity|]. simpl. now rewrite IH.
Qed.

Definition sample_chunk : pystr := py "Grid capacity rose sharply. Losses fell by half. Tariffs were flat.".

Lemma qa_pairs_shape_witness :
  In (py "Grid capacity rose sharply", sample_chunk) (qa_pairs_of_chunk sample_chunk) /\
  exists i s rest, nth_error (chunk_sentences sample_chunk) i = Some s
    /\ py "Grid capacity rose sharply" = strip s /\ sample_chunk = s ++ rest
    /\ 5 < length (py "Grid capacity rose sharply") /\ 10 < length sample_chunk.
Proof.
  assert (H : In (py "Grid capacity rose sharply", sample_chunk) (qa_pairs_of_chunk sample_chunk))
    by (vm_compute; left; reflexivity).
  split; [exact H|apply qa_pairs_shape, H].
Defined.

(** The second pair of [sample_chunk]: its answer repeats its question
    and runs to the end of the chunk. *)
Example sample_chunk_pairs :
  qa_pairs_of_chunk sample_chunk =
    [(py "Grid capacity rose sharply", sample_chunk);
     (py "Losses fell by half", py "Losses fell by half. Tariffs were flat.")].
Proof. vm_compute. reflexivity. Qed.
