(* ===== verification/Orchestrator.v ===== *)
(** * The Query Orchestrator: the [/query] handler (app.py, lines 101-149)

    [query] reads the query from the JSON body, answers an empty one with
    a prompt, asks ChatterBot first and returns its reply when its
    confidence exceeds 0.5, and otherwise loads the corpus, embeds the
    query, ranks the stored embeddings by cosine similarity
    ([Cosine.cos_sim], [Ranking.argmax]), answers out of scope below
    0.5 and else returns the best sentences of the winning chunk
    ([AnswerExtractor.extract_best_sentence]) with the confidence
    [Rounding.round2].  Everything after the ChatterBot call is
    [after_bot], the part a concurrent request can interleave with.

    The external capabilities are a record [externals]: ChatterBot's
    [get_response] (which changes the bot's state: it learns), the
    sentence encoder and [fuzz.ratio].  The handler runs in a monad
    [M] that threads the bot's state, records the calls to the
    externals and the database as a trace of [event]s, and carries the
    exceptions that make Flask answer with an error 500. *)

From Stdlib Require Import List Arith Lia Bool NArith QArith.
From S2P Require Import Prelude PyStr Ranking Cosine Rounding AnswerExtractor VectorStore.
Import ListNotations.

(** ** Requests, responses, effects *)

(** The ["query"] field of [request.json]: absent, a string, or
    something else (on which [.strip()] raises). *)
Inductive query_field := FieldMissing | FieldStr (s : pystr) | FieldOther.

Inductive status := Success | Error.
Inductive source := SourceChatterBot | SourcePDF | SourceNone.

(** A JSON reply; absent keys are [None].  The confidence is the
    float [round(confidence_score, 2)]. *)
Record response := mk_response {
  r_status : option status;
  r_response : pystr;
  r_source : option source;
  r_confidence : option round2_val
}.

(** The exceptions of the handler, answered with an error 500. *)
Inductive query_error :=
| BadRequest                          (* request.json is None, or .strip() on a non-string *)
| LoadFailed (e : store_error)        (* load_data_from_db raised *)
| ShapeError.                         (* torch: empty corpus or dimension mismatch *)

Inductive event :=
| EvBotResponse (q : pystr)           (* chatbot.get_response(user_query) *)
| EvLoadDB                            (* load_data_from_db() *)
| EvEncode (q : pystr).               (* model.encode(user_query) *)

Record externals (B : Type) := mk_externals {
  bot_response : B -> pystr -> (pystr * Q) * B;
  encode : pystr -> vec;
  fuzz_ratio : pystr -> pystr -> Q
}.
Arguments bot_response {B}.
Arguments encode {B}.
Arguments fuzz_ratio {B}.

(** ** The monad: bot state, trace, exceptions *)

Definition M (B A : Type) : Type := B -> list event -> (query_error + A) * B * list event.

Definition ret {B A} (a : A) : M B A := fun b tr => (inr a, b, tr).

Definition bind {B A C} (m : M B A) (k : A -> M B C) : M B C :=
  fun b tr =>
    match m b tr with
    | (inl e, b', tr') => (inl e, b', tr')
    | (inr a, b', tr') => k a b' tr'
    end.

Definition raise {B A} (e : query_error) : M B A := fun b tr => (inl e, b, tr).

Declare Scope orch_scope.
Delimit Scope orch_scope with orch.
Notation "x <- m ;; k" := (bind m (fun x => k))
  (at level 61, m at next level, right associativity) : orch_scope.
Local Open Scope orch_scope.

(** [MIN_CONFIDENCE = 0.5] (line 101): defined, and used nowhere; both
    thresholds of [query] are the literal [0.5]. *)
Definition MIN_CONFIDENCE : Q := 1 # 2.

Section Handler.
Context {U : UnicodeDB} {P : Pickle} {B : Type} (ext : externals B).

(** [chatbot.get_response(user_query)] *)
Definition call_bot (q : pystr) : M B (pystr * Q) :=
  fun b tr => let '(r, b') := bot_response ext b q in (inr r, b', tr ++ [EvBotResponse q]).

(** [load_data_from_db()] *)
Definition load_db (d : db P) : M B (list pystr * list vec) :=
  fun b tr =>
    match load_data_from_db d with
    | inl e => (inl (LoadFailed e), b, tr ++ [EvLoadDB])
    | inr r => (inr r, b, tr ++ [EvLoadDB])
    end.

(** [model.encode(user_query, convert_to_tensor=True)] *)
Definition encode_query (q : pystr) : M B vec :=
  fun b tr => (inr (encode ext q), b, tr ++ [EvEncode q]).

(** [data.get("query", "").strip()] *)
Definition read_query (body : option query_field) : M B pystr :=
  match body with
  | None | Some FieldOther => raise BadRequest
  | Some FieldMissing => ret []
  | Some (FieldStr s) => ret (strip s)
  end.

(** [util.pytorch_cos_sim(query_embedding, torch.tensor(embeddings))[0]]:
    raises on an empty corpus or a row of another dimension. *)
Definition similarities (q : vec) (embeddings : list vec) : M B (list cos_val) :=
  match embeddings with
  | [] => raise ShapeError
  | _ => if forallb (fun e => length e =? length q) embeddings
         then ret (map (cos_sim q) embeddings) else raise ShapeError
  end.

Definition prompt_response : response :=
  mk_response None (py "Please enter a valid query.") None None.

Definition out_of_scope_response : response :=
  mk_response (Some Error)
    (py "This question is out of scope. No relevant information found in the provided document.")
    (Some SourceNone) None.

Definition no_answer_in_pdf : pystr := py "No relevant answer found in the PDF.".

(** [query()] after [chatbot.get_response(user_query)] returned [rc]
    (lines 114-149): the pattern reply, or the semantic search. *)
Definition after_bot (d : db P) (user_query : pystr) (rc : pystr * Q) : M B response :=
  if Qltb (1 # 2) (snd rc) then
    ret (mk_response (Some Success) (strip (fst rc)) (Some SourceChatterBot) None)
  else
    ce <- load_db d ;;
    query_embedding <- encode_query user_query ;;
    sims <- similarities query_embedding (snd ce) ;;
    match argmax sims with
    | None => raise ShapeError
    | Some best_match_index =>
        let confidence_score := nth best_match_index sims (mk_cos 0 1) in
        if cos_lt_const confidence_score (1 # 2) then ret out_of_scope_response
        else
          let best_response :=
            match fst ce with
            | [] => no_answer_in_pdf
            | chunks => nth best_match_index chunks []
            end in
          let extracted_answer :=
            match best_response with
            | [] => no_relevant_answer
            | _ => extract_best_sentence (fuzz_ratio ext) best_response user_query
            end in
          ret (mk_response (Some Success) (strip extracted_answer) (Some SourcePDF)
                 (Some (round2 confidence_score)))
    end.

(** [query()] *)
Definition query (d : db P) (body : option query_field) : M B response :=
  user_query <- read_query body ;;
  match user_query with
  | [] => ret prompt_response
  | _ =>
    rc <- call_bot user_query ;;
    after_bot d user_query rc
  end.
End Handler.

(** [format_response(response_text)] (lines 169-182; not called by the
    app): the nested dictionary
    [{"status": "success", "response": {"answer", "source", "confidence"}}]. *)
Record formatted_response := mk_formatted {
  f_status : status;
  f_answer : pystr;
  f_source : source;
  f_confidence : pystr
}.

Definition format_response (response_text : pystr) : formatted_response :=
  mk_formatted Success response_text SourcePDF
    (if 20 <? length response_text then py "High" else py "Medium").

(** ** Behaviour of the handler *)

Ltac unfold_query :=
  unfold query, after_bot, bind, ret, raise, read_query, call_bot, load_db, encode_query, similarities.

Section HandlerTheorems.
Context {U : UnicodeDB} {P : Pickle} {B : Type} (ext : externals B).

(** An empty or all-whitespace query is answered with the prompt,
    without calling any external capability and without touching the
    bot's state. *)
Lemma query_empty_core (d : db P) (s : pystr) (b : B) :
  all_space s = true ->
  query ext d (Some (FieldStr s)) b [] = (inr prompt_response, b, []).
Proof.
  intros Hs. apply strip_nil_iff in Hs. unfold_query. now rewrite Hs.
Qed.

(** C6: an empty or all-whitespace query is answered with the prompt,
    without calling any external capability and without touching the
    bot's state. *)
Theorem query_empty (d : db P) (s : pystr) (b : B) :
  all_space s = true ->
  query ext d (Some (FieldStr s)) b [] = (inr prompt_response, b, []).
Proof. apply query_empty_core. Qed.

(** When ChatterBot's confidence exceeds 0.5 its stripped reply is
    returned, tagged with its provenance, and neither the database
    nor the encoder is used. *)
Lemma query_pattern_accept_core (d : db P) (s reply : pystr) (conf : Q) (b b' : B) :
  strip s <> [] -> bot_response ext b (strip s) = ((reply, conf), b') ->
  Qltb (1 # 2) conf = true ->
  query ext d (Some (FieldStr s)) b [] =
    (inr (mk_response (Some Success) (strip reply) (Some SourceChatterBot) None),
     b', [EvBotResponse (strip s)]).
Proof.
  intros Hne Hbot Hc. unfold_query.
  destruct (strip s) as [|c t] eqn:Es; [congruence|].
  cbn. rewrite Hbot. cbn. now rewrite Hc.
Qed.

(** C5: when ChatterBot's confidence exceeds 0.5 its stripped reply is
    returned, tagged with its provenance, and neither the database
    nor the encoder is used. *)
Theorem query_pattern_accept (d : db P) (s reply : pystr) (conf : Q) (b b' : B) :
  strip s <> [] -> bot_response ext b (strip s) = ((reply, conf), b') ->
  Qltb (1 # 2) conf = true ->
  query ext d (Some (FieldStr s)) b [] =
    (inr (mk_response (Some Success) (strip reply) (Some SourceChatterBot) None),
     b', [EvBotResponse (strip s)]).
Proof. apply query_pattern_accept_core. Qed.

Lemma argmax_lt {K} `{TotalLeb K} (l : list K) i : argmax l = Some i -> (i < length l)%nat.
Proof.
  intros (v & Hv & _)%argmax_spec_core. apply nth_error_Some. congruence.
Qed.

Lemma nth_map_cos_sim (q : vec) (es : list vec) i :
  (i < length es)%nat -> nth i (map (cos_sim q) es) (mk_cos 0 1) = cos_sim q (nth i es []).
Proof.
  intros Hi. rewrite (nth_indep _ _ (cos_sim q [])) by now rewrite length_map.
  apply map_nth.
Qed.

(** The run of [query] up to the similarity computation. *)
Lemma query_semantic_prefix (d : db P) (s reply : pystr) (conf : Q) (b b' : B)
    (chunks : list pystr) (es : list vec) :
  strip s <> [] -> bot_response ext b (strip s) = ((reply, conf), b') ->
  Qltb (1 # 2) conf = false -> load_data_from_db d = inr (chunks, es) ->
  query ext d (Some (FieldStr s)) b [] =
    bind (similarities (encode ext (strip s)) es)
      (fun sims =>
         match argmax sims with
         | None => raise ShapeError
         | Some i =>
             let confidence_score := nth i sims (mk_cos 0 1) in
             if cos_lt_const confidence_score (1 # 2) then ret out_of_scope_response
             else
               let best_response := match chunks with [] => no_answer_in_pdf | cs => nth i cs [] end in
               let extracted_answer :=
                 match best_response with
                 | [] => no_relevant_answer
                 | _ => extract_best_sentence (fuzz_ratio ext) best_response (strip s)
                 end in
               ret (mk_response (Some Success) (strip extracted_answer) (Some SourcePDF)
                      (Some (round2 confidence_score)))
         end)
      b' [EvBotResponse (strip s); EvLoadDB; EvEncode (strip s)].
Proof.
  intros Hne Hbot Hc Hload.
  unfold query, after_bot, read_query, call_bot, load_db, encode_query, bind, ret.
  destruct (strip s) as [|c t] eqn:Es; [congruence|].
  rewrite Hbot. cbn [snd fst]. rewrite Hc, Hload. cbn [fst snd app].
  destruct chunks; reflexivity.
Qed.

Lemma similarities_ok (q : vec) (es : list vec) (b : B) tr :
  es <> [] -> forallb (fun e => length e =? length q) es = true ->
  similarities q es b tr = (inr (map (cos_sim q) es), b, tr).
Proof. intros Hne Hd. unfold similarities. destruct es; [congruence|]. now rewrite Hd. Qed.

(** On the semantic path with a well-shaped corpus, the answer is
    the best sentences of the chunk at the first index of maximal
    similarity, stripped, tagged as extracted from the PDF, with that
    similarity rounded to two decimals as its confidence, when the similarity is not below
    0.5 (an empty chunk gives the extractor's "no relevant answer");
    the calls are made in the order bot, database, encoder. *)
Lemma query_semantic_answer_core (d : db P) (s reply : pystr) (conf : Q) (b b' : B)
    (chunks : list pystr) (es : list vec) (i : nat) :
  strip s <> [] -> bot_response ext b (strip s) = ((reply, conf), b') ->
  Qltb (1 # 2) conf = false -> load_data_from_db d = inr (chunks, es) ->
  es <> [] -> forallb (fun e => length e =? length (encode ext (strip s))) es = true ->
  argmax (map (cos_sim (encode ext (strip s))) es) = Some i ->
  cos_lt_const (cos_sim (encode ext (strip s)) (nth i es [])) (1 # 2) = false ->
  query ext d (Some (FieldStr s)) b [] =
    (inr (mk_response (Some Success)
            (strip (extract_best_sentence (fuzz_ratio ext) (nth i chunks []) (strip s)))
            (Some SourcePDF) (Some (round2 (cos_sim (encode ext (strip s)) (nth i es []))))),
     b', [EvBotResponse (strip s); EvLoadDB; EvEncode (strip s)]).
Proof.
  intros Hne Hbot Hc Hload Hes Hd Ha Hlt.
  rewrite (query_semantic_prefix d s reply conf b b' chunks es) by assumption.
  unfold bind at 1. rewrite similarities_ok by assumption. rewrite Ha.
  pose proof (argmax_lt _ _ Ha) as Hi. rewrite length_map in Hi.
  rewrite nth_map_cos_sim, Hlt by exact Hi.
  pose proof (load_data_from_db_length d chunks es Hload) as Hlen.
  destruct chunks as [|c0 cs]; [destruct es; [congruence|discriminate]|].
  cbv zeta. now destruct (nth i (c0 :: cs) []).
Qed.

(** C3: on the semantic path with a well-shaped corpus, the answer is
    the best sentences of the chunk at the first index of maximal
    similarity, stripped, tagged as extracted from the PDF, with that
    similarity rounded to two decimals as its confidence, when the similarity is not below
    0.5 (an empty chunk gives the extractor's "no relevant answer");
    the calls are made in the order bot, database, encoder. *)
Theorem query_semantic_answer (d : db P) (s reply : pystr) (conf : Q) (b b' : B)
    (chunks : list pystr) (es : list vec) (i : nat) :
  strip s <> [] -> bot_response ext b (strip s) = ((reply, conf), b') ->
  Qltb (1 # 2) conf = false -> load_data_from_db d = inr (chunks, es) ->
  es <> [] -> forallb (fun e => length e =? length (encode ext (strip s))) es = true ->
  argmax (map (cos_sim (encode ext (strip s))) es) = Some i ->
  cos_lt_const (cos_sim (encode ext (strip s)) (nth i es [])) (1 # 2) = false ->
  query ext d (Some (FieldStr s)) b [] =
    (inr (mk_response (Some Success)
            (strip (extract_best_sentence (fuzz_ratio ext) (nth i chunks []) (strip s)))
            (Some SourcePDF) (Some (round2 (cos_sim (encode ext (strip s)) (nth i es []))))),
     b', [EvBotResponse (strip s); EvLoadDB; EvEncode (strip s)]).
Proof. apply query_semantic_answer_core. Qed.

(** On the semantic path, when the best similarity is below 0.5
    the reply is the out-of-scope message, with status error and no
    source. *)
Lemma query_out_of_scope_core (d : db P) (s reply : pystr) (conf : Q) (b b' : B)
    (chunks : list pystr) (es : list vec) (i : nat) :
  strip s <> [] -> bot_response ext b (strip s) = ((reply, conf), b') ->
  Qltb (1 # 2) conf = false -> load_data_from_db d = inr (chunks, es) ->
  es <> [] -> forallb (fun e => length e =? length (encode ext (strip s))) es = true ->
  argmax (map (cos_sim (encode ext (strip s))) es) = Some i ->
  cos_lt_const (cos_sim (encode ext (strip s)) (nth i es [])) (1 # 2) = true ->
  query ext d (Some (FieldStr s)) b [] =
    (inr out_of_scope_response, b', [EvBotResponse (strip s); EvLoadDB; EvEncode (strip s)]).
Proof.
  intros Hne Hbot Hc Hload Hes Hd Ha Hlt.
  rewrite (query_semantic_prefix d s reply conf b b' chunks es) by assumption.
  unfold bind at 1. rewrite similarities_ok by assumption. rewrite Ha.
  pose proof (argmax_lt _ _ Ha) as Hi. rewrite length_map in Hi.
  now rewrite nth_map_cos_sim, Hlt by exact Hi.
Qed.

(** C4: on the semantic path, when the best similarity is below 0.5
    the reply is the out-of-scope message, with status error and no
    source. *)
Theorem query_out_of_scope (d : db P) (s reply : pystr) (conf : Q) (b b' : B)
    (chunks : list pystr) (es : list vec) (i : nat) :
  strip s <> [] -> bot_response ext b (strip s) = ((reply, conf), b') ->
  Qltb (1 # 2) conf = false -> load_data_from_db d = inr (chunks, es) ->
  es <> [] -> forallb (fun e => length e =? length (encode ext (strip s))) es = true ->
  argmax (map (cos_sim (encode ext (strip s))) es) = Some i ->
  cos_lt_const (cos_sim (encode ext (strip s)) (nth i es [])) (1 # 2) = true ->
  query ext d (Some (FieldStr s)) b [] =
    (inr out_of_scope_response, b', [EvBotResponse (strip s); EvLoadDB; EvEncode (strip s)]).
Proof. apply query_out_of_scope_core. Qed.

(** C7: with an empty corpus the handler raises (torch's shape error,
    an error 500) instead of answering out of scope. *)
Theorem query_empty_corpus (d : db P) (s reply : pystr) (conf : Q) (b b' : B)
    (chunks : list pystr) :
  strip s <> [] -> bot_response ext b (strip s) = ((reply, conf), b') ->
  Qltb (1 # 2) conf = false -> load_data_from_db d = inr (chunks, []) ->
  query ext d (Some (FieldStr s)) b [] =
    (inl ShapeError, b', [EvBotResponse (strip s); EvLoadDB; EvEncode (strip s)]).
Proof.
  intros Hne Hbot Hc Hload.
  now rewrite (query_semantic_prefix d s reply conf b b' chunks []) by assumption.
Qed.

(** A failing load is an error 500 after the ChatterBot call and
    the database read, with the encoder not called. *)
Lemma query_load_failed_core (d : db P) (s reply : pystr) (conf : Q) (b b' : B) (e : store_error) :
  strip s <> [] -> bot_response ext b (strip s) = ((reply, conf), b') ->
  Qltb (1 # 2) conf = false -> load_data_from_db d = inl e ->
  query ext d (Some (FieldStr s)) b [] =
    (inl (LoadFailed e), b', [EvBotResponse (strip s); EvLoadDB]).
Proof.
  intros Hne Hbot Hc Hload.
  unfold query, after_bot, read_query, call_bot, load_db, bind, ret.
  destruct (strip s) as [|c t] eqn:Es; [congruence|].
  rewrite Hbot. cbn [snd fst]. now rewrite Hc, Hload.
Qed.

(** C8: a failing load is an error 500 after the ChatterBot call and
    the database read, with the encoder not called. *)
Theorem query_load_failed (d : db P) (s reply : pystr) (conf : Q) (b b' : B) (e : store_error) :
  strip s <> [] -> bot_response ext b (strip s) = ((reply, conf), b') ->
  Qltb (1 # 2) conf = false -> load_data_from_db d = inl e ->
  query ext d (Some (FieldStr s)) b [] =
    (inl (LoadFailed e), b', [EvBotResponse (strip s); EvLoadDB]).
Proof. apply query_load_failed_core. Qed.

Lemma semantic_tail_trace (q : vec) (es : list vec) (k : list cos_val -> M B response) b tr :
  (forall x b0 tr0, snd (k x b0 tr0) = tr0) ->
  snd (bind (similarities q es) k b tr) = tr.
Proof.
  intros Hk. unfold bind, similarities, raise, ret.
  destruct es; [reflexivity|]. destruct (forallb _ _); [apply Hk|reflexivity].
Qed.

(** C9: whatever the request, the handler's calls are a prefix of
    "ChatterBot, then the database, then the encoder", each at most
    once and on the same stripped query: the pattern attempt always
    comes first. *)
Theorem query_trace_order (d : db P) (body : option query_field) (b : B) :
  exists q k, snd (query ext d body b []) = firstn k [EvBotResponse q; EvLoadDB; EvEncode q].
Proof.
  destruct body as [[|s|]|]; try (exists [], 0%nat; reflexivity).
  destruct (strip s) eqn:Es.
  { exists [], 0%nat. rewrite query_empty_core; [reflexivity|]. now apply strip_nil_iff. }
  assert (Hne : strip s <> []) by congruence. exists (strip s).
  destruct (bot_response ext b (strip s)) as [[reply conf] b'] eqn:Hbot.
  destruct (Qltb (1 # 2) conf) eqn:Hc.
  { exists 1%nat. now rewrite (query_pattern_accept_core d s reply conf b b'). }
  destruct (load_data_from_db d) as [e|[chunks es]] eqn:Hload.
  { exists 2%nat. now rewrite (query_load_failed_core d s reply conf b b' e). }
  exists 3%nat. rewrite (query_semantic_prefix d s reply conf b b' chunks es) by assumption.
  apply semantic_tail_trace. intros x b0 tr0.
  destruct (argmax x) as [n|]; [|reflexivity]. cbv zeta.
  destruct (cos_lt_const (nth n x (mk_cos 0 1)) (1 # 2)); reflexivity.
Qed.

(** A request whose body is not JSON, or whose ["query"] is not a
    string, fails with an error 500 before any external call; a body
    without ["query"] is answered with the prompt, like an empty
    query. *)
Theorem query_malformed_body (d : db P) (b : B) :
  query ext d None b [] = (inl BadRequest, b, [])
  /\ query ext d (Some FieldOther) b [] = (inl BadRequest, b, [])
  /\ query ext d (Some FieldMissing) b [] = (inr prompt_response, b, []).
Proof. repeat split. Qed.
(** After the ChatterBot call the handler neither reads nor writes the
    bot's state: its reply and its events do not depend on it. *)
Lemma after_bot_pure (d : db P) (q : pystr) (rc : pystr * Q) (tr : list event) :
  exists res tr', forall b : B, after_bot ext d q rc b tr = (res, b, tr').
Proof.
  unfold after_bot, similarities, load_db, encode_query, bind, ret, raise.
  destruct_matches; eauto.
Qed.

(** The handler is [read_query], then, for a non-empty query, the one
    ChatterBot call, then [after_bot] on its reply. *)
Lemma query_bot_split (d : db P) (body : option query_field) (b : B) :
  query ext d body b [] =
    match read_query body b [] with
    | (inr ((_ :: _) as q), _, _) =>
        let '(rc, b') := bot_response ext b q in after_bot ext d q rc b' [EvBotResponse q]
    | (res, _, _) => (match res with inl e => inl e | inr _ => inr prompt_response end, b, [])
    end.
Proof.
  unfold query, read_query, bind, ret, raise, call_bot.
  destruct body as [[|s|]|]; try reflexivity. cbn. destruct (strip s); [reflexivity|].
  now destruct (bot_response ext b _).
Qed.
End HandlerTheorems.

(** ** Concrete runs

    [demo_ext conf qv]: a bot that answers [" Hi there "] with
    confidence [conf] and does not change, an encoder that maps every
    query to [qv], and the length of the first string as the fuzzy
    ratio.  [corpus_table] holds two chunks with orthogonal
    embeddings. *)

Definition demo_ext (conf : Q) (qv : vec) : externals unit :=
  mk_externals unit (fun b _ => ((py " Hi there ", conf), b)) (fun _ => qv)
    (fun s _ => inject_Z (Z.of_nat (length s))).

Definition corpus_table : table model_pickle :=
  mk_table [mk_row 1 (py "Revenue grew 10%. Profit fell 2%.") (Some [1; 0]);
            mk_row 2 (py "The grid is stable.") (Some [0; 1])] 2.

Definition demo_query : pystr := py " How did revenue perform? ".

Lemma query_empty_witness :
  query (demo_ext 0 [1; 0]) (Some corpus_table) (Some (FieldStr (py "   "))) tt []
  = (inr prompt_response, tt, []).
Proof. apply query_empty. reflexivity. Defined.

Lemma query_pattern_accept_witness :
  query (demo_ext (9 # 10) [1; 0]) (Some corpus_table) (Some (FieldStr demo_query)) tt []
  = (inr (mk_response (Some Success) (strip (py " Hi there ")) (Some SourceChatterBot) None),
     tt, [EvBotResponse (strip demo_query)]).
Proof.
  apply (query_pattern_accept _ _ _ (py " Hi there ") (9 # 10)); [vm_compute; discriminate|reflexivity..].
Defined.

Lemma query_semantic_answer_witness :
  query (demo_ext 0 [1; 0]) (Some corpus_table) (Some (FieldStr demo_query)) tt []
  = (inr (mk_response (Some Success)
            (strip (extract_best_sentence (fuzz_ratio (demo_ext 0 [1; 0]))
                      (nth 0 [py "Revenue grew 10%. Profit fell 2%."; py "The grid is stable."] [])
                      (strip demo_query)))
            (Some SourcePDF) (Some (round2 (cos_sim (encode (demo_ext 0 [1; 0]) (strip demo_query))
                                             (nth 0 [[1; 0]; [0; 1]] []))))),
     tt, [EvBotResponse (strip demo_query); EvLoadDB; EvEncode (strip demo_query)]).
Proof.
  apply (query_semantic_answer _ _ _ (py " Hi there ") 0);
    [vm_compute; discriminate|reflexivity|reflexivity|reflexivity|discriminate|reflexivity..].
Defined.

Lemma query_out_of_scope_witness :
  query (demo_ext 0 [-1; -1]) (Some corpus_table) (Some (FieldStr demo_query)) tt []
  = (inr out_of_scope_response, tt, [EvBotResponse (strip demo_query); EvLoadDB; EvEncode (strip demo_query)]).
Proof.
  apply (query_out_of_scope _ _ _ (py " Hi there ") 0 tt tt
           [py "Revenue grew 10%. Profit fell 2%."; py "The grid is stable."] [[1; 0]; [0; 1]] 0);
    [vm_compute; discriminate|reflexivity|reflexivity|reflexivity|discriminate|reflexivity..].
Defined.

Lemma query_empty_corpus_witness :
  query (demo_ext 0 [1; 0]) (Some (mk_table [] 0)) (Some (FieldStr demo_query)) tt []
  = (inl ShapeError, tt, [EvBotResponse (strip demo_query); EvLoadDB; EvEncode (strip demo_query)]).
Proof.
  apply (query_empty_corpus _ _ _ (py " Hi there ") 0 tt tt []);
    [vm_compute; discriminate|reflexivity..].
Defined.

Lemma query_load_failed_witness :
  query (demo_ext 0 [1; 0]) None (Some (FieldStr demo_query)) tt []
  = (inl (LoadFailed StorageError), tt, [EvBotResponse (strip demo_query); EvLoadDB]).
Proof.
  apply (query_load_failed _ _ _ (py " Hi there ") 0); [vm_compute; discriminate|reflexivity..].
Defined.

(** The whole run on [demo_query]: the first chunk wins with
    similarity 1 and its two sentences are returned. *)
Example query_demo_run :
  let '(r, _, _) := query (demo_ext 0 [1; 0]) (Some corpus_table) (Some (FieldStr demo_query)) tt [] in
  match r with
  | inr resp => r_response resp = py "Revenue grew 10%. Profit fell 2%." /\ r_source resp = Some SourcePDF
  | inl _ => False
  end.
Proof. vm_compute. split; reflexivity. Qed.
