(* ===== verification/JsonString.v ===== *)
(** * JSON string literals: [json.dumps] and [json.loads] on [str]

    Flask's [jsonify] (app.py, lines 110, 115, 134, 144) serialises the
    reply with [json.dumps(..., ensure_ascii=True)]: a string becomes
    [encode_basestring_ascii(s)] (json/encoder.py), which escapes the
    quote, the backslash and the control characters, keeps the
    printable ASCII characters, and writes every other code point as
    [\uXXXX] in lowercase hex, as a UTF-16 surrogate pair above
    U+FFFF.  [scanstring] is the decoder's [py_scanstring]
    (json/decoder.py): it reads a string literal after its opening
    quote, joins a high and a low surrogate escape into one code point,
    and rejects raw control characters (strict mode).

    The theorem: decoding the encoding of a string gives the string
    back, for every string of Unicode scalar values (code points up to
    U+10FFFF that are not surrogates); a string holding a high and a
    low surrogate one after the other comes back as one code point. *)

From Stdlib Require Import List Arith Lia Bool NArith.
From S2P Require Import Prelude.
Import ListNotations.
Local Open Scope N_scope.

(** [{0:04x}]: four lowercase hex digits. *)
Definition hex_digit (d : N) : char := if d <? 10 then 48 + d else 87 + d.

Definition hex4 (n : N) : pystr :=
  map hex_digit [n / 4096 mod 16; n / 256 mod 16; n / 16 mod 16; n mod 16].

(** ['\\u{0:04x}'.format(n)] *)
Definition u_escape (n : N) : pystr := [92; 117] ++ hex4 n.

(** The replacement of one character: [ESCAPE_DCT], printable ASCII
    kept, [\uXXXX] or a surrogate pair otherwise. *)
Definition escape_char (c : char) : pystr :=
  if c =? 92 then [92; 92]                    (* backslash, backslash *)
  else if c =? 34 then [92; 34]               (* backslash, quote *)
  else if c =? 8 then [92; 98]                (* backslash, b *)
  else if c =? 12 then [92; 102]              (* backslash, f *)
  else if c =? 10 then [92; 110]              (* backslash, n *)
  else if c =? 13 then [92; 114]              (* backslash, r *)
  else if c =? 9 then [92; 116]               (* backslash, t *)
  else if (32 <=? c) && (c <=? 126) then [c]  (* space to tilde *)
  else if c <? 65536 then u_escape c
  else
    let n := c - 65536 in
    let s1 := N.lor 55296 (N.land (N.shiftr n 10) 1023) in
    let s2 := N.lor 56320 (N.land n 1023) in
    u_escape s1 ++ u_escape s2.

(** [encode_basestring_ascii(s)]: the literal with its quotes. *)
Definition encode_basestring_ascii (s : pystr) : pystr := [34] ++ flat_map escape_char s ++ [34].

(** ** The decoder *)

Definition hex_val (c : char) : option N :=
  if (48 <=? c) && (c <=? 57) then Some (c - 48)
  else if (97 <=? c) && (c <=? 102) then Some (c - 87)
  else if (65 <=? c) && (c <=? 70) then Some (c - 55)
  else None.

(** [_decode_uXXXX]: the four hex digits after [\u]. *)
Definition decode_uXXXX (s : pystr) : option N :=
  match s with
  | a :: b :: c :: d :: _ =>
      match hex_val a, hex_val b, hex_val c, hex_val d with
      | Some x, Some y, Some z, Some w => Some (x * 4096 + y * 256 + z * 16 + w)
      | _, _, _, _ => None
      end
  | _ => None
  end.

(** [BACKSLASH]: the one-character escapes. *)
Definition simple_escape (e : char) : option char :=
  if e =? 34 then Some 34 else if e =? 92 then Some 92 else if e =? 47 then Some 47
  else if e =? 98 then Some 8 else if e =? 102 then Some 12 else if e =? 110 then Some 10
  else if e =? 114 then Some 13 else if e =? 116 then Some 9 else None.

Definition is_high_surrogate (u : N) : bool := (55296 <=? u) && (u <=? 56319).
Definition is_low_surrogate (u : N) : bool := (56320 <=? u) && (u <=? 57343).

(** The code point of a [\uXXXX] escape whose digits start [s], and
    what follows it: a high surrogate followed by a [\u] escape of a
    low one is joined with it; a [\u] escape after a high surrogate
    that is not hex raises. *)
Definition scan_u (uni : N) (s : pystr) : option (N * pystr) :=
  if is_high_surrogate uni then
    match s with
    | b :: u :: s5 =>
        if (b =? 92) && (u =? 117) then
          match decode_uXXXX s5 with
          | None => None
          | Some uni2 =>
              if is_low_surrogate uni2
              then Some (65536 + N.lor (N.shiftl (uni - 55296) 10) (uni2 - 56320), skipn 4 s5)
              else Some (uni, s)
          end
        else Some (uni, s)
    | _ => Some (uni, s)
    end
  else Some (uni, s).

(** [py_scanstring] after the opening quote: the decoded string and
    what follows the closing quote; [None] where it raises. *)
Fixpoint scanstring (fuel : nat) (s : pystr) : option (pystr * pystr) :=
  match fuel with
  | O => None
  | S fuel' =>
      match s with
      | [] => None
      | c :: s' =>
          if c =? 34 then Some ([], s')
          else if c =? 92 then
            match s' with
            | [] => None
            | e :: s'' =>
                if e =? 117 then
                  match decode_uXXXX s'' with
                  | None => None
                  | Some uni =>
                      match scan_u uni (skipn 4 s'') with
                      | None => None
                      | Some (ch, s4) =>
                          match scanstring fuel' s4 with
                          | Some (d, r) => Some (ch :: d, r)
                          | None => None
                          end
                      end
                  end
                else
                  match simple_escape e, scanstring fuel' s'' with
                  | Some ch, Some (d, r) => Some (ch :: d, r)
                  | _, _ => None
                  end
            end
          else if c <? 32 then None
          else
            match scanstring fuel' s' with
            | Some (d, r) => Some (c :: d, r)
            | None => None
            end
      end
  end.

(** A Unicode scalar value: what a [str] built from text holds. *)
Definition scalar (c : char) : bool := (c <=? 1114111) && negb ((55296 <=? c) && (c <=? 57343)).

(** ** Decoding what is encoded *)

Lemma hex_val_digit (d : N) : d < 16 -> hex_val (hex_digit d) = Some d.
Proof.
  intros Hd.
  assert (E : d = 0 \/ d = 1 \/ d = 2 \/ d = 3 \/ d = 4 \/ d = 5 \/ d = 6 \/ d = 7 \/ d = 8
              \/ d = 9 \/ d = 10 \/ d = 11 \/ d = 12 \/ d = 13 \/ d = 14 \/ d = 15) by lia.
  repeat (destruct E as [->|E]; [reflexivity|]). subst d. reflexivity.
Qed.

Lemma hex4_digits (n : N) :
  n < 65536 -> (n / 4096 mod 16) * 4096 + (n / 256 mod 16) * 256 + (n / 16 mod 16) * 16 + n mod 16 = n.
Proof.
  intros Hn.
  replace (n / 256) with (n / 16 / 16) by now rewrite N.Div0.div_div.
  replace (n / 4096) with (n / 16 / 16 / 16) by now rewrite !N.Div0.div_div.
  assert (Hc : n / 16 / 16 / 16 < 16).
  { rewrite !N.Div0.div_div. apply N.Div0.div_lt_upper_bound. cbn. lia. }
  rewrite (N.mod_small (n / 16 / 16 / 16)) by exact Hc.
  pose proof (N.div_mod n 16 ltac:(discriminate)) as E1.
  pose proof (N.div_mod (n / 16) 16 ltac:(discriminate)) as E2.
  pose proof (N.div_mod (n / 16 / 16) 16 ltac:(discriminate)) as E3.
  lia.
Qed.

Lemma decode_hex4 (n : N) (rest : pystr) :
  n < 65536 -> decode_uXXXX (hex4 n ++ rest) = Some n.
Proof.
  intros Hn. unfold hex4. cbn [map app decode_uXXXX].
  rewrite !hex_val_digit by (apply N.mod_lt; discriminate).
  f_equal. now apply hex4_digits.
Qed.

(** [a * 2^k] and [b < 2^k] have no bit in common: [lor] adds them. *)
Lemma lor_shift_low (a b k : N) : b < 2 ^ k -> N.lor (a * 2 ^ k) b = a * 2 ^ k + b.
Proof.
  intros Hb. assert (H0 : N.land (a * 2 ^ k) b = 0).
  { apply N.bits_inj_0. intros n. rewrite N.land_spec.
    destruct (N.lt_ge_cases n k) as [Hn|Hn].
    - now rewrite <- N.shiftl_mul_pow2, N.shiftl_spec_low.
    - destruct (N.eq_dec b 0) as [->|Hb0]; [now rewrite N.bits_0, andb_false_r|].
      rewrite (N.bits_above_log2 b n); [apply andb_false_r|].
      apply N.log2_lt_pow2 in Hb; [lia|lia]. }
  rewrite N.add_nocarry_lxor by exact H0. symmetry. now apply N.lxor_lor.
Qed.

(** The two halves of the surrogate pair of a code point above U+FFFF. *)
Lemma surrogate_halves (c : N) :
  65536 <= c <= 1114111 ->
  N.lor 55296 (N.land (N.shiftr (c - 65536) 10) 1023) = 55296 + (c - 65536) / 1024
  /\ N.lor 56320 (N.land (c - 65536) 1023) = 56320 + (c - 65536) mod 1024
  /\ (c - 65536) / 1024 < 1024.
Proof.
  intros Hc. assert (Hq : (c - 65536) / 1024 < 1024) by (apply N.Div0.div_lt_upper_bound; lia).
  change 1023 with (N.ones 10). rewrite !N.land_ones, N.shiftr_div_pow2. change (2 ^ 10) with 1024.
  rewrite (N.mod_small ((c - 65536) / 1024)) by exact Hq.
  change 55296 with (54 * 2 ^ 10). change 56320 with (55 * 2 ^ 10).
  rewrite !lor_shift_low by (try apply N.mod_lt; cbn; lia). repeat split; [reflexivity..|exact Hq].
Qed.

Definition cons_decoded (c : char) (o : option (pystr * pystr)) : option (pystr * pystr) :=
  match o with Some (d, r) => Some (c :: d, r) | None => None end.

(** One encoded character is read back by one step of the decoder. *)
Lemma scan_escape_char (fuel : nat) (c : char) (rest : pystr) :
  scalar c = true ->
  scanstring (S fuel) (escape_char c ++ rest) = cons_decoded c (scanstring fuel rest).
Proof.
  unfold scalar. intros Hs. bsimpl. destruct Hs as [Hmax Hsur].
  unfold escape_char.
  destruct (N.eqb_spec c 92) as [->|H92]; [reflexivity|].
  destruct (N.eqb_spec c 34) as [->|H34]; [reflexivity|].
  destruct (N.eqb_spec c 8) as [->|H8]; [reflexivity|].
  destruct (N.eqb_spec c 12) as [->|H12]; [reflexivity|].
  destruct (N.eqb_spec c 10) as [->|H10]; [reflexivity|].
  destruct (N.eqb_spec c 13) as [->|H13]; [reflexivity|].
  destruct (N.eqb_spec c 9) as [->|H9]; [reflexivity|].
  destruct ((32 <=? c) && (c <=? 126)) eqn:Hp.
  { bsimpl. cbn [app scanstring].
    rewrite (proj2 (N.eqb_neq c 34) H34), (proj2 (N.eqb_neq c 92) H92).
    replace (c <? 32) with false by (symmetry; apply N.ltb_ge; lia). reflexivity. }
  destruct (N.ltb_spec c 65536) as [Hlt|Hge].
  - unfold u_escape. cbn [app scanstring N.eqb Pos.eqb].
    rewrite decode_hex4 by exact Hlt. unfold hex4. cbn [map app skipn].
    unfold scan_u, is_high_surrogate.
    replace ((55296 <=? c) && (c <=? 56319)) with false by (symmetry; bsimpl; lia). reflexivity.
  - destruct (surrogate_halves c ltac:(lia)) as (E1 & E2 & Hq). rewrite E1, E2.
    pose proof (N.div_mod (c - 65536) 1024 ltac:(discriminate)) as Hc.
    pose proof (N.mod_lt (c - 65536) 1024 ltac:(discriminate)) as Hm.
    set (q := (c - 65536) / 1024) in *. set (m := (c - 65536) mod 1024) in *.
    unfold u_escape. rewrite <- !app_assoc. cbn [app scanstring N.eqb Pos.eqb].
    rewrite decode_hex4 by lia. unfold hex4 at 1. cbn [map app skipn].
    unfold scan_u, is_high_surrogate, is_low_surrogate.
    replace ((55296 <=? 55296 + q) && (55296 + q <=? 56319)) with true by (symmetry; bsimpl; lia).
    cbn [N.eqb Pos.eqb andb]. rewrite decode_hex4 by lia.
    replace ((56320 <=? 56320 + m) && (56320 + m <=? 57343)) with true by (symmetry; bsimpl; lia).
    unfold hex4. cbn [map app skipn].
    replace (55296 + q - 55296) with q by lia. replace (56320 + m - 56320) with m by lia.
    rewrite N.shiftl_mul_pow2, lor_shift_low by exact Hm.
    change (2 ^ 10) with 1024. replace (65536 + (q * 1024 + m)) with c by lia.
    reflexivity.
Qed.

Lemma scanstring_encoded (s rest : pystr) (fuel : nat) :
  forallb scalar s = true -> (length s < fuel)%nat ->
  scanstring fuel (flat_map escape_char s ++ 34 :: rest) = Some (s, rest).
Proof.
  revert fuel. induction s as [|c s IH]; intros [|fuel] Hs Hf; cbn in Hf; try lia; [reflexivity|].
  cbn [forallb] in Hs. bsimpl. destruct Hs as [Hc Hs].
  cbn [flat_map]. rewrite <- app_assoc, scan_escape_char by exact Hc.
  rewrite IH by (exact Hs || lia). reflexivity.
Qed.

(** The decoder's entry on a string literal: the opening quote, then
    [py_scanstring]; the fuel is the length of the text. *)
Definition decode_string_literal (t : pystr) : option (pystr * pystr) :=
  match t with
  | c :: t' => if c =? 34 then scanstring (length t') t' else None
  | [] => None
  end.

Lemma length_flat_map_escape (s : pystr) : (length s <= length (flat_map escape_char s))%nat.
Proof.
  induction s as [|c s IH]; [reflexivity|]. cbn [flat_map]. rewrite length_app.
  assert (1 <= length (escape_char c))%nat; [|cbn; lia].
  unfold escape_char, u_escape. destruct_matches; cbn; lia.
Qed.

Lemma string_literal_roundtrip_core (s rest : pystr) :
  forallb scalar s = true ->
  decode_string_literal (encode_basestring_ascii s ++ rest) = Some (s, rest).
Proof.
  intros Hs. unfold encode_basestring_ascii. cbn [app decode_string_literal N.eqb Pos.eqb].
  rewrite <- app_assoc. cbn [app]. apply scanstring_encoded; [exact Hs|].
  rewrite length_app. cbn. pose proof (length_flat_map_escape s). lia.
Qed.

(** C20: [json.loads] reads back what [json.dumps] writes for a string
    of Unicode scalar values, whatever text follows the literal. *)
Theorem string_literal_roundtrip (s rest : pystr) :
  forallb scalar s = true ->
  decode_string_literal (encode_basestring_ascii s ++ rest) = Some (s, rest).
Proof. apply string_literal_roundtrip_core. Qed.

Lemma hex_digit_ascii (d : N) : d < 16 -> (32 <=? hex_digit d) && (hex_digit d <=? 126) = true.
Proof. intros Hd. unfold hex_digit. destruct (N.ltb_spec d 10); bsimpl; lia. Qed.

Lemma u_escape_ascii (n : N) : forallb (fun c => (32 <=? c) && (c <=? 126)) (u_escape n) = true.
Proof.
  unfold u_escape, hex4. cbn [map app forallb].
  rewrite !hex_digit_ascii by (apply N.mod_lt; discriminate). reflexivity.
Qed.

(** With [ensure_ascii=True] a string literal is printable ASCII,
    whatever the string holds. *)
Theorem encode_ascii_only (s : pystr) :
  forallb (fun c => (32 <=? c) && (c <=? 126)) (encode_basestring_ascii s) = true.
Proof.
  unfold encode_basestring_ascii. rewrite !forallb_app. cbn [forallb]. rewrite andb_true_r.
  replace (forallb _ (flat_map escape_char s)) with true; [reflexivity|]. symmetry.
  induction s as [|c s IH]; [reflexivity|]. cbn [flat_map]. rewrite forallb_app, IH, andb_true_r.
  unfold escape_char.
  repeat match goal with |- context [if ?b then _ else _] => let E := fresh in destruct b eqn:E end;
    rewrite ?forallb_app, ?u_escape_ascii; try reflexivity.
  match goal with H : (32 <=? c) && _ = true |- _ => cbn; now rewrite H end.
Qed.

(** Two lone surrogates, a high then a low one, come back as the one
    code point they would encode in UTF-16. *)
Example surrogates_merge :
  decode_string_literal (encode_basestring_ascii [55296; 56320]) = Some ([65536], []).
Proof. vm_compute. reflexivity. Qed.

Lemma string_literal_roundtrip_witness :
  decode_string_literal (encode_basestring_ascii [8226; 128512; 34; 10] ++ py ",") = Some ([8226; 128512; 34; 10], py ",").
Proof. apply string_literal_roundtrip. reflexivity. Defined.
