(* ===== verification/Json.v ===== *)
(** * JSON documents: what [jsonify] sends and [json.loads] reads

    The replies of [query()] (app.py, lines 110, 115-119, 134-138 and
    144-149) are Python dicts that Flask's [jsonify] serialises with
    [json.dumps]: keys sorted ([sort_keys=True]), non-ASCII escaped
    ([ensure_ascii=True]) and, since the app runs with [debug=True],
    indented by two spaces ([indent=2], item separator [","], key
    separator [": "]); Flask appends a newline.  [json] is the value
    type (the values app.py builds: strings, the float of
    [round(x, 2)], and objects; null, booleans and arrays for
    completeness), [dumps] the encoder's [_make_iterencode], and
    [parse_value] the decoder's scanner, with the whitespace, string
    ([JsonString.scanstring]) and number rules of [json.loads].  A
    number is a float [round(x, 2)]: [float_repr] is [float.__repr__]
    on it (below [1e16], where [repr] switches to exponent notation),
    and the decoder reads the numbers that [float_repr] writes.

    The theorem: decoding an encoded document gives it back with the
    keys of every object sorted ([norm]), for every document whose
    strings are Unicode scalar values. *)

From Stdlib Require Import List Arith Lia Bool NArith DecimalN Permutation.
From S2P Require Import Prelude PyStr Rounding JsonString Orchestrator.
Import ListNotations.

Inductive json :=
| JNull
| JBool (b : bool)
| JNum (v : round2_val)
| JStr (s : pystr)
| JArr (l : list json)
| JObj (l : list (pystr * json)).

(** Induction through the lists of arrays and objects. *)
Section JsonInd.
Variable Pj : json -> Prop.
Hypothesis Hnull : Pj JNull.
Hypothesis Hbool : forall b, Pj (JBool b).
Hypothesis Hnum : forall v, Pj (JNum v).
Hypothesis Hstr : forall s, Pj (JStr s).
Hypothesis Harr : forall l, Forall Pj l -> Pj (JArr l).
Hypothesis Hobj : forall l, Forall (fun kv => Pj (snd kv)) l -> Pj (JObj l).

Fixpoint json_ind' (j : json) : Pj j :=
  match j with
  | JNull => Hnull
  | JBool b => Hbool b
  | JNum v => Hnum v
  | JStr s => Hstr s
  | JArr l =>
      Harr l ((fix go (l : list json) : Forall Pj l :=
                 match l with
                 | [] => Forall_nil _
                 | x :: l' => Forall_cons x (json_ind' x) (go l')
                 end) l)
  | JObj l =>
      Hobj l ((fix go (l : list (pystr * json)) : Forall (fun kv => Pj (snd kv)) l :=
                 match l with
                 | [] => Forall_nil _
                 | (k, v) :: l' => Forall_cons (k, v) (json_ind' v) (go l')
                 end) l)
  end.
End JsonInd.

(** ** [sort_keys=True] *)

(** Python's [<] on [str]: code points, lexicographically. *)
Fixpoint str_ltb (a b : pystr) : bool :=
  match a, b with
  | [], [] => false
  | [], _ :: _ => true
  | _ :: _, [] => false
  | x :: a', y :: b' => if (x <? y)%N then true else if (x =? y)%N then str_ltb a' b' else false
  end.

Fixpoint insert_item {A} (kv : pystr * A) (l : list (pystr * A)) : list (pystr * A) :=
  match l with
  | [] => [kv]
  | kv' :: l' => if str_ltb (fst kv) (fst kv') then kv :: l else kv' :: insert_item kv l'
  end.

(** [sorted(dct.items())]: the keys of a dict are distinct. *)
Definition sort_items {A} (l : list (pystr * A)) : list (pystr * A) := fold_right insert_item [] l.

(** A document with the keys of every object sorted. *)
Fixpoint norm (j : json) : json :=
  match j with
  | JArr l => JArr (map norm l)
  | JObj l => JObj (sort_items (map (fun '(k, v) => (k, norm v)) l))
  | _ => j
  end.

(** ** The encoder *)

Fixpoint uint_chars (u : Decimal.uint) : pystr :=
  match u with
  | Decimal.Nil => []
  | Decimal.D0 u => 48%N :: uint_chars u
  | Decimal.D1 u => 49%N :: uint_chars u
  | Decimal.D2 u => 50%N :: uint_chars u
  | Decimal.D3 u => 51%N :: uint_chars u
  | Decimal.D4 u => 52%N :: uint_chars u
  | Decimal.D5 u => 53%N :: uint_chars u
  | Decimal.D6 u => 54%N :: uint_chars u
  | Decimal.D7 u => 55%N :: uint_chars u
  | Decimal.D8 u => 56%N :: uint_chars u
  | Decimal.D9 u => 57%N :: uint_chars u
  end.

(** The digits after the point of [f] hundredths: a trailing zero is
    dropped, one digit stays. *)
Definition frac_repr (f : N) : pystr :=
  if (f mod 10 =? 0)%N then [48 + f / 10]%N else [48 + f / 10; 48 + f mod 10]%N.

(** [float.__repr__] of [(-1)^neg * h / 100]: the shortest decimal
    that reads back, with at least one digit after the point. *)
Definition float_repr (v : round2_val) : pystr :=
  (if r2_neg v then [45%N] else []) ++ uint_chars (N.to_uint (r2_hund v / 100)) ++ [46%N]
  ++ frac_repr (r2_hund v mod 100).

(** A newline and the indent of level [lvl]. *)
Definition nl_indent (lvl : nat) : pystr := 10%N :: concat (repeat [32; 32]%N lvl).

Fixpoint dumps (lvl : nat) (j : json) : pystr :=
  match j with
  | JNull => py "null"
  | JBool true => py "true"
  | JBool false => py "false"
  | JNum v => float_repr v
  | JStr s => encode_basestring_ascii s
  | JArr [] => py "[]"
  | JArr l =>
      [91%N] ++ nl_indent (S lvl)
      ++ join (44%N :: nl_indent (S lvl)) (map (dumps (S lvl)) l)
      ++ nl_indent lvl ++ [93%N]
  | JObj [] => py "{}"
  | JObj l =>
      [123%N] ++ nl_indent (S lvl)
      ++ join (44%N :: nl_indent (S lvl))
           (map (fun '(k, t) => encode_basestring_ascii k ++ py ": " ++ t)
              (sort_items (map (fun '(k, v) => (k, dumps (S lvl) v)) l)))
      ++ nl_indent lvl ++ [125%N]
  end.

(** The body of [jsonify(obj)] with [debug=True]. *)
Definition jsonify_body (j : json) : pystr := dumps 0 j ++ [10%N].

(** ** The decoder *)

Definition is_ws (c : char) : bool := (c =? 32)%N || (c =? 9)%N || (c =? 10)%N || (c =? 13)%N.

Fixpoint skip_ws (s : pystr) : pystr :=
  match s with
  | c :: s' => if is_ws c then skip_ws s' else s
  | [] => []
  end.

Fixpoint prefixb (p s : pystr) : bool :=
  match p, s with
  | [], _ => true
  | a :: p', b :: s' => (a =? b)%N && prefixb p' s'
  | _ :: _, [] => false
  end.

Definition digit_cons (c : char) : option (Decimal.uint -> Decimal.uint) :=
  if (c =? 48)%N then Some Decimal.D0 else if (c =? 49)%N then Some Decimal.D1
  else if (c =? 50)%N then Some Decimal.D2 else if (c =? 51)%N then Some Decimal.D3
  else if (c =? 52)%N then Some Decimal.D4 else if (c =? 53)%N then Some Decimal.D5
  else if (c =? 54)%N then Some Decimal.D6 else if (c =? 55)%N then Some Decimal.D7
  else if (c =? 56)%N then Some Decimal.D8 else if (c =? 57)%N then Some Decimal.D9
  else None.

(** The digits at the front of [s]. *)
Fixpoint read_uint (s : pystr) : Decimal.uint * pystr :=
  match s with
  | c :: s' =>
      match digit_cons c with
      | Some d => let '(u, r) := read_uint s' in (d u, r)
      | None => (Decimal.Nil, s)
      end
  | [] => (Decimal.Nil, [])
  end.

(** The fraction of [round(x, 2)]: one or two digits, in hundredths. *)
Definition read_frac (s : pystr) : option (N * pystr) :=
  match s with
  | c1 :: s1 =>
      if is_digit c1 then
        match s1 with
        | c2 :: s2 =>
            if is_digit c2 then
              match s2 with
              | c3 :: _ => if is_digit c3 then None else Some (10 * (c1 - 48) + (c2 - 48), s2)%N
              | [] => Some (10 * (c1 - 48) + (c2 - 48), s2)%N
              end
            else Some (10 * (c1 - 48), s1)%N
        | [] => Some (10 * (c1 - 48), s1)%N
        end
      else None
  | [] => None
  end.

(** A number: an optional minus, the integer digits, the point and the
    fraction. *)
Definition parse_number (s : pystr) : option (json * pystr) :=
  let '(neg, s1) := match s with c :: s' => if (c =? 45)%N then (true, s') else (false, s) | [] => (false, s) end in
  match read_uint s1 with
  | (Decimal.Nil, _) => None
  | (u, c :: s2) =>
      if (c =? 46)%N then
        match read_frac s2 with
        | Some (f, s3) => Some (JNum (mk_round2 neg (N.of_uint u * 100 + f)), s3)
        | None => None
        end
      else None
  | (_, []) => None
  end.

Fixpoint parse_value (fuel : nat) (s : pystr) : option (json * pystr) :=
  match fuel with
  | O => None
  | S f =>
      match skip_ws s with
      | [] => None
      | c :: s' =>
          if (c =? 110)%N then (if prefixb (py "ull") s' then Some (JNull, skipn 3 s') else None)
          else if (c =? 116)%N then (if prefixb (py "rue") s' then Some (JBool true, skipn 3 s') else None)
          else if (c =? 102)%N then (if prefixb (py "alse") s' then Some (JBool false, skipn 4 s') else None)
          else if (c =? 34)%N then
            match scanstring (length s') s' with
            | Some (d, r) => Some (JStr d, r)
            | None => None
            end
          else if (c =? 91)%N then
            match skip_ws s' with
            | c' :: r => if (c' =? 93)%N then Some (JArr [], r)
                         else match parse_elements f s' with
                              | Some (vs, r') => Some (JArr vs, r')
                              | None => None
                              end
            | [] => None
            end
          else if (c =? 123)%N then
            match skip_ws s' with
            | c' :: r => if (c' =? 125)%N then Some (JObj [], r)
                         else match parse_members f s' with
                              | Some (kvs, r') => Some (JObj kvs, r')
                              | None => None
                              end
            | [] => None
            end
          else if (c =? 45)%N || is_digit c then parse_number (c :: s')
          else None
      end
  end
with parse_elements (fuel : nat) (s : pystr) : option (list json * pystr) :=
  match fuel with
  | O => None
  | S f =>
      match parse_value f s with
      | None => None
      | Some (v, r) =>
          match skip_ws r with
          | c :: r' =>
              if (c =? 44)%N then
                match parse_elements f r' with
                | Some (vs, r'') => Some (v :: vs, r'')
                | None => None
                end
              else if (c =? 93)%N then Some ([v], r') else None
          | [] => None
          end
      end
  end
with parse_members (fuel : nat) (s : pystr) : option (list (pystr * json) * pystr) :=
  match fuel with
  | O => None
  | S f =>
      match skip_ws s with
      | c :: s1 =>
          if (c =? 34)%N then
            match scanstring (length s1) s1 with
            | Some (k, s2) =>
                match skip_ws s2 with
                | c2 :: s3 =>
                    if (c2 =? 58)%N then
                      match parse_value f s3 with
                      | Some (v, s4) =>
                          match skip_ws s4 with
                          | c4 :: s5 =>
                              if (c4 =? 44)%N then
                                match parse_members f s5 with
                                | Some (kvs, r) => Some ((k, v) :: kvs, r)
                                | None => None
                                end
                              else if (c4 =? 125)%N then Some ([(k, v)], s5) else None
                          | [] => None
                          end
                      | None => None
                      end
                    else None
                | [] => None
                end
            | None => None
            end
          else None
      | [] => None
      end
  end.

(** [json.loads(s)]: one value, then only whitespace. *)
Definition loads (s : pystr) : option json :=
  match parse_value (S (length s)) s with
  | Some (v, r) => if forallb is_ws r then Some v else None
  | None => None
  end.

(** ** Well-formed documents, and the fuel they need *)

(** Every string, key or value, holds Unicode scalar values. *)
Fixpoint json_wf (j : json) : bool :=
  match j with
  | JStr s => forallb scalar s
  | JArr l => forallb json_wf l
  | JObj l => forallb (fun '(k, v) => forallb scalar k && json_wf v) l
  | _ => true
  end.

Fixpoint jsize (j : json) : nat :=
  match j with
  | JArr l => S (fold_right (fun v n => S (jsize v + n)) 0 l)
  | JObj l => S (fold_right (fun '(_, v) n => S (jsize v + n)) 0 l)
  | _ => 1
  end.

Definition asize (l : list json) : nat := fold_right (fun v n => S (jsize v + n)) 0 l.
Definition osize (l : list (pystr * json)) : nat := fold_right (fun '(_, v) n => S (jsize v + n)) 0 l.

Lemma jsize_arr (l : list json) : jsize (JArr l) = S (asize l).
Proof. reflexivity. Qed.

Lemma jsize_obj (l : list (pystr * json)) : jsize (JObj l) = S (osize l).
Proof. reflexivity. Qed.

(** What may follow a value in an encoded document. *)
Definition delim (rest : pystr) : bool :=
  match rest with
  | [] => true
  | c :: _ => (c =? 44)%N || (c =? 10)%N
  end.

(** ** Lemmas on the pieces *)

Lemma skip_ws_nl (k : nat) (x : pystr) : skip_ws (nl_indent k ++ x) = skip_ws x.
Proof. unfold nl_indent. cbn. induction k as [|k IH]; [reflexivity|]. exact IH. Qed.

Lemma skip_ws_start (c : char) (t : pystr) : is_ws c = false -> skip_ws (c :: t) = c :: t.
Proof. intros H. cbn. now rewrite H. Qed.

Lemma digit_cons_digit (d : N) : (d < 10)%N -> exists k, digit_cons (48 + d)%N = Some k.
Proof.
  intros Hd.
  assert (E : (d = 0 \/ d = 1 \/ d = 2 \/ d = 3 \/ d = 4 \/ d = 5 \/ d = 6 \/ d = 7 \/ d = 8 \/ d = 9)%N) by lia.
  repeat (destruct E as [->|E]; [eexists; reflexivity|]). subst d. eexists; reflexivity.
Qed.

Lemma read_uint_chars (u : Decimal.uint) (rest : pystr) :
  match rest with [] => True | c :: _ => digit_cons c = None end ->
  read_uint (uint_chars u ++ rest) = (u, rest).
Proof.
  intros Hr. induction u; cbn [uint_chars app read_uint]; try (rewrite IHu; reflexivity).
  destruct rest as [|c rest]; [reflexivity|]. cbn. now rewrite Hr.
Qed.

Lemma to_uint_not_nil (n : N) : N.to_uint n <> Decimal.Nil.
Proof.
  intros E. pose proof (DecimalN.Unsigned.of_to n) as H. rewrite E in H. cbn in H. subst n. discriminate E.
Qed.

(** The first character of a decimal numeral is a digit. *)
Lemma uint_chars_head (n : N) : exists c t, uint_chars (N.to_uint n) = c :: t /\ (48 <= c <= 57)%N.
Proof.
  pose proof (to_uint_not_nil n) as Hn.
  destruct (N.to_uint n); [contradiction|..]; cbn; do 2 eexists; (split; [reflexivity|lia]).
Qed.

Lemma is_digit_lt (d : N) : (d < 10)%N -> is_digit (48 + d)%N = true.
Proof. intros Hd. unfold is_digit, in_range. bsimpl. lia. Qed.

Lemma delim_not_digit (rest : pystr) :
  delim rest = true -> match rest with [] => True | c :: _ => is_digit c = false /\ digit_cons c = None end.
Proof.
  destruct rest as [|c rest]; [trivial|]. cbn. bsimpl. intros [-> | ->]; split; reflexivity.
Qed.

Lemma read_frac_repr (f : N) (rest : pystr) :
  (f < 100)%N -> delim rest = true -> read_frac (frac_repr f ++ rest) = Some (f, rest).
Proof.
  intros Hf Hr. apply delim_not_digit in Hr.
  pose proof (N.div_mod f 10 ltac:(discriminate)) as Hd. pose proof (N.mod_lt f 10 ltac:(discriminate)) as Hm.
  assert (Hq : (f / 10 < 10)%N) by (apply N.Div0.div_lt_upper_bound; lia).
  unfold frac_repr. destruct (N.eqb_spec (f mod 10) 0) as [E|E]; cbn [app read_frac];
    rewrite is_digit_lt by exact Hq.
  - destruct rest as [|c rest]; [|rewrite (proj1 Hr)]; f_equal; f_equal;
      generalize dependent (f / 10)%N; generalize dependent (f mod 10)%N; intros; lia.
  - rewrite is_digit_lt by exact Hm.
    destruct rest as [|c rest]; [|rewrite (proj1 Hr)]; f_equal; f_equal;
      generalize dependent (f / 10)%N; generalize dependent (f mod 10)%N; intros; lia.
Qed.

Lemma sign_split (neg : bool) (s : pystr) :
  (exists c t, s = c :: t /\ (48 <= c <= 57)%N) ->
  match (if neg then [45%N] else []) ++ s with
  | c' :: s' => if (c' =? 45)%N then (true, s') else (false, (if neg then [45%N] else []) ++ s)
  | [] => (false, (if neg then [45%N] else []) ++ s)
  end = (neg, s).
Proof.
  intros (c & t & -> & Hc). destruct neg; [reflexivity|]. cbn [app].
  replace (c =? 45)%N with false by (symmetry; apply N.eqb_neq; lia). reflexivity.
Qed.

Lemma parse_number_repr (v : round2_val) (rest : pystr) :
  delim rest = true -> parse_number (float_repr v ++ rest) = Some (JNum v, rest).
Proof.
  intros Hr. destruct v as [neg h]. unfold float_repr, parse_number. cbn [r2_neg r2_hund].
  pose proof (N.div_mod h 100 ltac:(discriminate)) as Hh.
  pose proof (N.mod_lt h 100 ltac:(discriminate)) as Hm.
  rewrite <- !app_assoc. rewrite sign_split.
  2: { destruct (uint_chars_head (h / 100)) as (c & t & Ec & Hc). rewrite Ec. now exists c, (t ++ [46%N] ++ frac_repr (h mod 100) ++ rest). }
  rewrite read_uint_chars by reflexivity. cbn [app]. rewrite read_frac_repr by assumption.
  pose proof (DecimalN.Unsigned.of_to (h / 100)) as Eq. pose proof (to_uint_not_nil (h / 100)) as Hn.
  destruct (N.to_uint (h / 100)); [contradiction|..]; cbn [N.eqb Pos.eqb]; rewrite Eq; repeat f_equal;
    generalize dependent (h / 100)%N; generalize dependent (h mod 100)%N; intros; lia.
Qed.

(** ** Sorting the items *)

Lemma insert_item_perm {A} (kv : pystr * A) l : Permutation (insert_item kv l) (kv :: l).
Proof.
  induction l as [|kv' l IH]; [reflexivity|]. cbn. destruct (str_ltb (fst kv) (fst kv')); [reflexivity|].
  rewrite IH. apply perm_swap.
Qed.

Lemma sort_items_perm {A} (l : list (pystr * A)) : Permutation (sort_items l) l.
Proof.
  induction l as [|kv l IH]; [reflexivity|]. cbn. rewrite insert_item_perm. now apply perm_skip.
Qed.

Lemma sort_items_cons {A} (kv : pystr * A) l : sort_items (kv :: l) = insert_item kv (sort_items l).
Proof. reflexivity. Qed.

(** Sorting looks at the keys only. *)
Lemma sort_items_map {A B} (f : A -> B) (l : list (pystr * A)) :
  sort_items (map (fun '(k, v) => (k, f v)) l) = map (fun '(k, v) => (k, f v)) (sort_items l).
Proof.
  induction l as [|[k v] l IH]; [reflexivity|]. cbn [map]. rewrite !sort_items_cons, IH.
  generalize (sort_items l) as m. induction m as [|[k' v'] m IHm]; [reflexivity|]. cbn.
  destruct (str_ltb k k'); [reflexivity|]. cbn. now rewrite IHm.
Qed.

Lemma osize_cons (k : pystr) (v : json) l : osize ((k, v) :: l) = S (jsize v + osize l).
Proof. reflexivity. Qed.

Lemma osize_insert (kv : pystr * json) l : osize (insert_item kv l) = osize (kv :: l).
Proof.
  destruct kv as [k v]. induction l as [|[k' v'] l IH]; [reflexivity|]. cbn [insert_item fst].
  destruct (str_ltb k k'); [reflexivity|]. rewrite !osize_cons, IH, osize_cons. lia.
Qed.

Lemma osize_sort (l : list (pystr * json)) : osize (sort_items l) = osize l.
Proof.
  induction l as [|[k v] l IH]; [reflexivity|].
  now rewrite sort_items_cons, osize_insert, !osize_cons, IH.
Qed.

(** ** The first character of an encoded value *)

Lemma dumps_head (lvl : nat) (j : json) :
  exists c t, dumps lvl j = c :: t /\ is_ws c = false /\ c <> 93%N /\ c <> 125%N.
Proof.
  destruct j as [|[|]|[neg h]|s|[|v l]|[|kv l]]; cbn;
    try (do 2 eexists; split; [reflexivity|]; split; [reflexivity|]; split; discriminate).
  unfold float_repr. cbn [r2_neg r2_hund].
  destruct neg; [do 2 eexists; split; [reflexivity|]; split; [reflexivity|]; split; discriminate|].
  destruct (uint_chars_head (h / 100)) as (c & t & Ec & Hc). cbn [app]. rewrite Ec.
  do 2 eexists. split; [reflexivity|]. unfold is_ws. repeat split; [bsimpl; lia|lia|lia].
Qed.

Lemma skip_ws_dumps (lvl : nat) (j : json) (x : pystr) : skip_ws (dumps lvl j ++ x) = dumps lvl j ++ x.
Proof. destruct (dumps_head lvl j) as (c & t & -> & Hc & _). now apply skip_ws_start. Qed.

Lemma parse_value_nl (fuel k : nat) (x : pystr) :
  parse_value fuel (nl_indent k ++ x) = parse_value fuel x.
Proof. destruct fuel; [reflexivity|]. cbn [parse_value]. now rewrite skip_ws_nl. Qed.

Lemma parse_value_space (fuel : nat) (x : pystr) : parse_value fuel (32%N :: x) = parse_value fuel x.
Proof. destruct fuel; reflexivity. Qed.

Lemma scan_key (k rest : pystr) :
  forallb scalar k = true ->
  scanstring (length (flat_map escape_char k ++ 34%N :: rest)) (flat_map escape_char k ++ 34%N :: rest)
  = Some (k, rest).
Proof.
  intros Hk. pose proof (string_literal_roundtrip_core k rest Hk) as H.
  unfold encode_basestring_ascii in H. cbn [app decode_string_literal] in H.
  now rewrite <- app_assoc in H.
Qed.

(** ** Decoding what is encoded *)

(** The property of a value that the lists of arrays and objects need
    of their elements. *)
Definition reads_back (v : json) : Prop :=
  forall lvl rest fuel, json_wf v = true -> delim rest = true -> (jsize v < fuel)%nat ->
  parse_value fuel (dumps lvl v ++ rest) = Some (norm v, rest).

Lemma skip_ws_close (lvl : nat) (c : char) (rest : pystr) :
  (c = 93 \/ c = 125)%N -> skip_ws (nl_indent lvl ++ c :: rest) = c :: rest.
Proof. intros Hc. rewrite skip_ws_nl. apply skip_ws_start. unfold is_ws. bsimpl. lia. Qed.

Lemma parse_elements_dumps (lvl : nat) (l : list json) (rest : pystr) (fuel : nat) :
  l <> [] -> Forall reads_back l -> forallb json_wf l = true -> (asize l < fuel)%nat ->
  parse_elements fuel (nl_indent (S lvl) ++ join (44%N :: nl_indent (S lvl)) (map (dumps (S lvl)) l)
                       ++ nl_indent lvl ++ 93%N :: rest)
  = Some (map norm l, rest).
Proof.
  revert fuel. induction l as [|v l IH]; intros fuel Hne Hall Hwf Hf; [contradiction|].
  inversion Hall as [|? ? Hv Hl]; subst. cbn [forallb] in Hwf. bsimpl. destruct Hwf as [Hwv Hwl].
  destruct fuel as [|f]; [cbn in Hf; lia|]. cbn [parse_elements]. rewrite parse_value_nl.
  unfold asize in Hf. cbn [fold_right] in Hf. fold (asize l) in Hf.
  destruct l as [|w l].
  - cbn [map join]. rewrite Hv by (reflexivity || assumption || lia).
    rewrite skip_ws_close by lia. reflexivity.
  - cbn [map join]. rewrite <- !app_assoc. cbn [app].
    rewrite Hv by (reflexivity || assumption || lia). cbn [skip_ws is_ws N.eqb Pos.eqb orb].
    pose proof (IH f ltac:(discriminate) Hl Hwl ltac:(lia)) as IH'. cbn [map join app] in IH'.
    rewrite IH'. reflexivity.
Qed.

(** An object item as the encoder writes it. *)
Definition item_repr (lvl : nat) (kv : pystr * json) : pystr :=
  let '(k, v) := kv in encode_basestring_ascii k ++ py ": " ++ dumps lvl v.

Lemma py_colon_space : py ": " = [58%N; 32%N].
Proof. reflexivity. Qed.

Lemma parse_members_dumps (lvl : nat) (kvs : list (pystr * json)) (rest : pystr) (fuel : nat) :
  kvs <> [] -> Forall (fun kv => reads_back (snd kv)) kvs ->
  forallb (fun '(k, v) => forallb scalar k && json_wf v) kvs = true -> (osize kvs < fuel)%nat ->
  parse_members fuel (nl_indent (S lvl) ++ join (44%N :: nl_indent (S lvl)) (map (item_repr (S lvl)) kvs)
                      ++ nl_indent lvl ++ 125%N :: rest)
  = Some (map (fun '(k, v) => (k, norm v)) kvs, rest).
Proof.
  revert fuel. induction kvs as [|[k v] kvs IH]; intros fuel Hne Hall Hwf Hf; [contradiction|].
  inversion Hall as [|? ? Hv Hl]; subst. cbn [forallb] in Hwf. bsimpl. destruct Hwf as [[Hk Hwv] Hwl].
  destruct fuel as [|f]; [cbn in Hf; lia|]. rewrite osize_cons in Hf. cbn [parse_members].
  rewrite skip_ws_nl. cbn [snd] in Hv.
  destruct kvs as [|kv' kvs].
  - cbn [map join item_repr]. unfold encode_basestring_ascii. rewrite py_colon_space, <- !app_assoc.
    cbn [app skip_ws is_ws N.eqb Pos.eqb orb].
    rewrite scan_key by exact Hk. cbn [skip_ws is_ws N.eqb Pos.eqb orb]. rewrite parse_value_space.
    rewrite Hv by (reflexivity || assumption || lia). rewrite skip_ws_close by lia. reflexivity.
  - cbn [map join item_repr]. unfold encode_basestring_ascii. rewrite py_colon_space, <- !app_assoc.
    cbn [app skip_ws is_ws N.eqb Pos.eqb orb].
    rewrite scan_key by exact Hk. cbn [skip_ws is_ws N.eqb Pos.eqb orb]. rewrite parse_value_space.
    rewrite Hv by (reflexivity || assumption || lia). cbn [skip_ws is_ws N.eqb Pos.eqb orb].
    pose proof (IH f ltac:(discriminate) Hl Hwl ltac:(lia)) as IH'. cbn [map join app] in IH'.
    rewrite IH'. reflexivity.
Qed.

Lemma join_cons_app (sep x : pystr) (xs : list pystr) : exists w, join sep (x :: xs) = x ++ w.
Proof. destruct xs; [exists []; symmetry; apply app_nil_r|]. eexists. reflexivity. Qed.

(** After the opening bracket of a non-empty array or object comes the
    first element, not the closing bracket. *)
Lemma skip_ws_open (lvl : nat) (L : list pystr) (sep y : pystr) (d : char) :
  (exists c t xs, L = (c :: t) :: xs /\ is_ws c = false /\ c <> d) ->
  exists c t, skip_ws (nl_indent lvl ++ join sep L ++ y) = c :: t /\ c <> d.
Proof.
  intros (c & t & xs & EL & Hw & Hd).
  assert (Hj : exists w, join sep L = (c :: t) ++ w) by (subst L; apply join_cons_app).
  destruct Hj as [w ->]. rewrite skip_ws_nl. cbn [app]. rewrite skip_ws_start by exact Hw. eauto.
Qed.

Lemma parse_value_num (f : nat) (v : round2_val) (rest : pystr) :
  parse_value (S f) (float_repr v ++ rest) = parse_number (float_repr v ++ rest).
Proof.
  assert (Hh : exists c t, float_repr v = c :: t /\ (c = 45 \/ 48 <= c <= 57)%N).
  { destruct v as [[|] h]; unfold float_repr; cbn [r2_neg r2_hund app].
    - do 2 eexists. split; [reflexivity|left; reflexivity].
    - destruct (uint_chars_head (h / 100)) as (c & t & Ec & Hc). rewrite Ec.
      do 2 eexists. split; [reflexivity|right; exact Hc]. }
  destruct Hh as (c & t & Ec & Hc). rewrite Ec. cbn [app parse_value].
  rewrite skip_ws_start by (unfold is_ws; bsimpl; lia).
  destruct (N.eqb_spec c 110), (N.eqb_spec c 116), (N.eqb_spec c 102), (N.eqb_spec c 34),
    (N.eqb_spec c 91), (N.eqb_spec c 123); try lia.
  replace ((c =? 45)%N || is_digit c) with true by (symmetry; unfold is_digit, in_range; bsimpl; lia).
  reflexivity.
Qed.

Lemma obj_items_repr (lvl : nat) (l : list (pystr * json)) :
  map (fun '(k, t) => encode_basestring_ascii k ++ py ": " ++ t) (sort_items (map (fun '(k, v) => (k, dumps lvl v)) l))
  = map (item_repr lvl) (sort_items l).
Proof.
  rewrite (sort_items_map (dumps lvl)), map_map. apply map_ext. now intros [k v].
Qed.

Lemma Forall_sort_items (P : pystr * json -> Prop) l : Forall P l -> Forall P (sort_items l).
Proof. intros H. apply Forall_forall. intros x Hx. eapply Forall_forall; [exact H|]. eapply Permutation_in; [apply sort_items_perm|exact Hx]. Qed.

Lemma forallb_sort_items (p : pystr * json -> bool) l : forallb p l = forallb p (sort_items l).
Proof.
  apply eq_true_iff_eq. rewrite !forallb_forall.
  split; intros H x Hx; apply H; eapply Permutation_in; [apply sort_items_perm|exact Hx| |exact Hx].
  symmetry. apply sort_items_perm.
Qed.

Lemma sort_items_nil {A} (l : list (pystr * A)) : l <> [] -> sort_items l <> [].
Proof. intros Hl E. apply Hl, Permutation_nil. rewrite <- E. apply sort_items_perm. Qed.

(** Every well-formed value is read back, keys sorted, from its
    encoding. *)
Lemma parse_dumps (j : json) : reads_back j.
Proof.
  induction j as [|b|v|s|l IHl|l IHl] using json_ind'; intros lvl rest fuel Hwf Hr Hf;
    destruct fuel as [|f]; try (cbn in Hf; lia).
  - reflexivity.
  - destruct b; reflexivity.
  - cbn [dumps norm]. rewrite parse_value_num. now apply parse_number_repr.
  - cbn [dumps norm json_wf] in *. unfold encode_basestring_ascii. rewrite <- !app_assoc.
    cbn [app parse_value skip_ws is_ws N.eqb Pos.eqb orb]. now rewrite scan_key.
  - destruct l as [|v l']; [reflexivity|]. cbn [json_wf] in Hwf. cbn [dumps norm].
    rewrite <- !app_assoc. cbn [app parse_value skip_ws is_ws N.eqb Pos.eqb orb].
    destruct (skip_ws_open (S lvl) (map (dumps (S lvl)) (v :: l')) (44%N :: nl_indent (S lvl))
                (nl_indent lvl ++ 93%N :: rest) 93%N) as (c & t & Ec & Hc).
    { destruct (dumps_head (S lvl) v) as (c & t & E & H1 & H2 & _).
      exists c, t, (map (dumps (S lvl)) l'). cbn [map]. now rewrite E. }
    match goal with |- context [skip_ws ?X] => replace (skip_ws X) with (c :: t) by (symmetry; exact Ec) end.
    replace (c =? 93)%N with false by (symmetry; now apply N.eqb_neq).
    match goal with |- context [parse_elements f ?X] =>
      replace (parse_elements f X) with (Some (map norm (v :: l'), rest)) end; [reflexivity|].
    symmetry. apply parse_elements_dumps; [discriminate|exact IHl|exact Hwf|].
    rewrite jsize_arr in Hf. lia.
  - destruct l as [|kv l']; [reflexivity|]. cbn [json_wf] in Hwf.
    remember (kv :: l') as l eqn:El.
    assert (Hd : dumps lvl (JObj l) =
      [123%N] ++ nl_indent (S lvl) ++ join (44%N :: nl_indent (S lvl)) (map (item_repr (S lvl)) (sort_items l))
      ++ nl_indent lvl ++ [125%N]) by (subst l; cbn [dumps]; now rewrite obj_items_repr).
    rewrite Hd. cbn [norm]. rewrite (sort_items_map norm).
    assert (Hs : sort_items l <> []) by (apply sort_items_nil; congruence).
    rewrite <- !app_assoc. cbn [app parse_value skip_ws is_ws N.eqb Pos.eqb orb].
    destruct (skip_ws_open (S lvl) (map (item_repr (S lvl)) (sort_items l)) (44%N :: nl_indent (S lvl))
                (nl_indent lvl ++ 125%N :: rest) 125%N) as (c & t & Ec & Hc).
    { destruct (sort_items l) as [|[k0 v0] m]; [contradiction|].
      do 3 eexists. split; [reflexivity|]. split; [reflexivity|discriminate]. }
    match goal with |- context [skip_ws ?X] => replace (skip_ws X) with (c :: t) by (symmetry; exact Ec) end.
    replace (c =? 125)%N with false by (symmetry; now apply N.eqb_neq).
    match goal with |- context [parse_members f ?X] =>
      replace (parse_members f X) with (Some (map (fun '(k, v) => (k, norm v)) (sort_items l), rest)) end;
      [reflexivity|].
    symmetry. apply parse_members_dumps; [exact Hs|..].
    + apply Forall_sort_items. exact IHl.
    + rewrite <- forallb_sort_items. exact Hwf.
    + rewrite osize_sort. rewrite jsize_obj in Hf. lia.
Qed.

(** ** The fuel of [json.loads] is enough *)

Lemma join_size {A} (f : A -> pystr) (sz : A -> nat) (sep : pystr) (l : list A) :
  sep <> [] -> (forall x, In x l -> sz x <= length (f x))%nat ->
  (fold_right (fun x n => S (sz x + n)) 0 l <= length (join sep (map f l)) + length sep)%nat.
Proof.
  intros Hsep Hl. induction l as [|x l IH]; [cbn; lia|].
  assert (Hx : (sz x <= length (f x))%nat) by (apply Hl; now left).
  assert (IH' : (fold_right (fun x n => S (sz x + n)) 0 l <= length (join sep (map f l)) + length sep)%nat)
    by (apply IH; intros y Hy; apply Hl; now right).
  destruct sep as [|s0 sep]; [contradiction|]. destruct l as [|y l].
  - cbn in *. lia.
  - cbn [map join fold_right] in *. rewrite !length_app. cbn [length] in *. lia.
Qed.

Lemma osize_snd (m : list (pystr * json)) :
  osize m = fold_right (fun kv n => S (jsize (snd kv) + n)) 0 m.
Proof. induction m as [|[k v] m IH]; [reflexivity|]. rewrite osize_cons, IH. reflexivity. Qed.

Lemma length_nl (k : nat) : (1 <= length (nl_indent k))%nat.
Proof. cbn. lia. Qed.

Lemma jsize_le_dumps (j : json) : forall lvl, (jsize j <= length (dumps lvl j))%nat.
Proof.
  induction j as [|b|v|s|l IHl|l IHl] using json_ind'; intros lvl.
  - cbn; lia.
  - destruct b; cbn; lia.
  - cbn [jsize dumps]. unfold float_repr. rewrite !length_app. cbn [length]. lia.
  - cbn [jsize dumps]. unfold encode_basestring_ascii. rewrite !length_app. cbn [length]. lia.
  - destruct l as [|v l']; [cbn; lia|]. rewrite jsize_arr. unfold asize.
    cbn [dumps]. rewrite !length_app.
    pose proof (join_size (dumps (S lvl)) jsize (44%N :: nl_indent (S lvl)) (v :: l') ltac:(discriminate)) as H.
    rewrite Forall_forall in IHl. specialize (H (fun x Hx => IHl x Hx (S lvl))).
    pose proof (length_nl lvl). cbn [length] in *. lia.
  - destruct l as [|kv l']; [cbn; lia|]. rewrite jsize_obj, <- osize_sort. unfold osize.
    remember (kv :: l') as l eqn:El.
    assert (Hd : dumps lvl (JObj l) =
      [123%N] ++ nl_indent (S lvl) ++ join (44%N :: nl_indent (S lvl)) (map (item_repr (S lvl)) (sort_items l))
      ++ nl_indent lvl ++ [125%N]) by (subst l; cbn [dumps]; now rewrite obj_items_repr).
    rewrite Hd, !length_app.
    pose proof (join_size (item_repr (S lvl)) (fun kv => jsize (snd kv)) (44%N :: nl_indent (S lvl))
                  (sort_items l) ltac:(discriminate)) as H.
    assert (Hs : forall kv, In kv (sort_items l) -> (jsize (snd kv) <= length (item_repr (S lvl) kv))%nat).
    { intros [k v] Hin. apply (Permutation_in _ (sort_items_perm l)) in Hin.
      rewrite Forall_forall in IHl. specialize (IHl (k, v) Hin (S lvl)). cbn [snd] in IHl.
      cbn [snd item_repr]. rewrite !length_app. lia. }
    specialize (H Hs). pose proof (length_nl lvl).
    fold (osize (sort_items l)). rewrite osize_snd. cbn [length] in *. lia.
Qed.

Lemma loads_jsonify_core (j : json) : json_wf j = true -> loads (jsonify_body j) = Some (norm j).
Proof.
  intros Hwf. unfold loads, jsonify_body. pose proof (jsize_le_dumps j 0) as Hs.
  rewrite (parse_dumps j 0 [10%N]); [reflexivity|exact Hwf|reflexivity|].
  rewrite length_app. lia.
Qed.

(** C19: [json.loads] reads back the body [jsonify] sends: the document,
    with the keys of every object in sorted order, for every document
    whose strings hold Unicode scalar values. *)
Theorem loads_jsonify (j : json) : json_wf j = true -> loads (jsonify_body j) = Some (norm j).
Proof. apply loads_jsonify_core. Qed.

(** ** The replies of [query()] *)

Definition status_str (st : status) : pystr :=
  match st with Success => py "success" | Error => py "error" end.

Definition source_str (so : source) : pystr :=
  match so with
  | SourceChatterBot => py "ChatterBot"
  | SourcePDF => py "Extracted from PDF"
  | SourceNone => py "None"
  end.

(** The dict [query()] passes to [jsonify], in the order the code writes
    its keys: ["status"], ["response"], ["confidence_score"], ["source"]. *)
Definition response_json (r : response) : json :=
  JObj ((match r_status r with Some st => [(py "status", JStr (status_str st))] | None => [] end)
        ++ [(py "response", JStr (r_response r))]
        ++ (match r_confidence r with Some c => [(py "confidence_score", JNum c)] | None => [] end)
        ++ (match r_source r with Some so => [(py "source", JStr (source_str so))] | None => [] end)).

Lemma loads_jsonify_witness :
  loads (jsonify_body (JObj [(py "z", JArr [JNull; JBool true; JNum (mk_round2 true 0)]); (py "a", JStr [8226%N])]))
  = Some (norm (JObj [(py "z", JArr [JNull; JBool true; JNum (mk_round2 true 0)]); (py "a", JStr [8226%N])])).
Proof. apply loads_jsonify. vm_compute. reflexivity. Defined.
