(* ===== verification/QuerySpec.v ===== *)
(** * The contract of the Query Orchestrator and its refinement

    Section 4.5 of the design describes the [/query] handler as a state
    machine [Start -> PatternAttempted -> (Accepted | SemanticAttempted)
    -> (Accepted | OutOfScope)], with the empty query rejected at
    [Start], and section 8 states the retrieval contract on real
    numbers: the winning index has maximal cosine similarity, ties going
    to the lower index, and an empty corpus is "no match".

    [step] is that machine, over the real-valued similarity
    [CosineReal.torch_cos_R] of [util.pytorch_cos_sim], the confidence
    of an answer being that similarity rounded to two decimals
    ([Rounding.round2_spec]); a state carries
    ChatterBot's state next to the machine's, since the pattern attempt
    makes the bot learn.  The theorems: the machine is deterministic and
    every query reaches exactly one terminal state; and the handler
    [Orchestrator.query], which computes with rationals, [argmax] and
    the squared threshold test, refines it: on a corpus whose embeddings
    have the encoder's dimension, it returns the reply the terminal
    state renders, with the bot state that state carries.  The empty
    corpus is where they part: the machine answers out of scope, the
    handler raises ([Orchestrator.query_empty_corpus]). *)

From Stdlib Require Import List Arith Lia Bool NArith QArith Qreals Reals Lra.
From S2P Require Import Prelude PyStr Ranking Cosine CosineReal Rounding AnswerExtractor VectorStore Orchestrator.
Import ListNotations.

Inductive qstate :=
| Start (raw : pystr)
| PatternAttempted (q : pystr)
| SemanticAttempted (q : pystr)
| Accepted (text : pystr) (src : source) (confidence : option R)
| OutOfScope
| Prompted.

Definition terminal (st : qstate) : bool :=
  match st with
  | Accepted _ _ _ | OutOfScope | Prompted => true
  | _ => false
  end.

(** What the caller sees of a reply: status, text, source, and the
    real number the rounded confidence stands for. *)
Definition observation : Type := (option status * pystr * option source * option R)%type.

Definition observe (r : response) : observation :=
  (r_status r, r_response r, r_source r, option_map r2_R (r_confidence r)).

Definition render (st : qstate) : option observation :=
  match st with
  | Accepted t src c => Some (Some Success, t, Some src, c)
  | OutOfScope => Some (observe out_of_scope_response)
  | Prompted => Some (observe prompt_response)
  | _ => None
  end.

(** The retrieval contract: [i] is the first index of maximal real
    similarity. *)
Definition best_match (qv : vec) (es : list vec) (i : nat) : Prop :=
  exists e, nth_error es i = Some e
    /\ (forall e', In e' es -> (torch_cos_R qv e' <= torch_cos_R qv e)%R)
    /\ (forall j e', (j < i)%nat -> nth_error es j = Some e' ->
          (torch_cos_R qv e' < torch_cos_R qv e)%R).

Section Machine.
Context {U : UnicodeDB} {B : Type} (ext : externals B).
(** The corpus snapshot read from the Vector Store. *)
Variables (chunks : list pystr) (es : list vec).

Definition answer_of (q : pystr) (i : nat) : pystr :=
  strip (extract_best_sentence (fuzz_ratio ext) (nth i chunks []) q).

Inductive step : qstate * B -> qstate * B -> Prop :=
| st_reject raw b :
    strip raw = [] -> step (Start raw, b) (Prompted, b)
| st_receive raw b :
    strip raw <> [] -> step (Start raw, b) (PatternAttempted (strip raw), b)
| st_pattern_accept q b t c b' :
    bot_response ext b q = ((t, c), b') -> (1 # 2 < c)%Q ->
    step (PatternAttempted q, b) (Accepted (strip t) SourceChatterBot None, b')
| st_pattern_fail q b t c b' :
    bot_response ext b q = ((t, c), b') -> (c <= 1 # 2)%Q ->
    step (PatternAttempted q, b) (SemanticAttempted q, b')
| st_empty_corpus q b :
    es = [] -> step (SemanticAttempted q, b) (OutOfScope, b)
| st_no_match q b i :
    best_match (encode ext q) es i ->
    (torch_cos_R (encode ext q) (nth i es []) < 1 / 2)%R ->
    step (SemanticAttempted q, b) (OutOfScope, b)
| st_answer q b i v :
    best_match (encode ext q) es i ->
    (1 / 2 <= torch_cos_R (encode ext q) (nth i es []))%R ->
    round2_spec (torch_cos_R (encode ext q) (nth i es [])) v ->
    step (SemanticAttempted q, b) (Accepted (answer_of q i) SourcePDF (Some v), b).

Inductive star : qstate * B -> qstate * B -> Prop :=
| star_refl x : star x x
| star_step x y z : step x y -> star y z -> star x z.
End Machine.

Arguments star {U B} ext chunks es.
Arguments step {U B} ext chunks es.

(** ** The machine: determinism and totality *)

Lemma Q2R_half : Q2R (1 # 2) = (1 / 2)%R.
Proof. unfold Q2R. simpl. lra. Qed.

Lemma Qltb_true (a b : Q) : Qltb a b = true <-> (a < b)%Q.
Proof.
  unfold Qltb. rewrite negb_true_iff, <- not_true_iff_false, Qle_bool_iff.
  split; [apply Qnot_le_lt|apply Qlt_not_le].
Qed.

Lemma Qltb_false (a b : Q) : Qltb a b = false <-> (b <= a)%Q.
Proof. unfold Qltb. rewrite negb_false_iff. apply Qle_bool_iff. Qed.

Lemma best_match_unique (qv : vec) (es : list vec) i j :
  best_match qv es i -> best_match qv es j -> i = j.
Proof.
  intros (ei & Hi & Mi & Fi) (ej & Hj & Mj & Fj).
  destruct (lt_eq_lt_dec i j) as [[Hlt|]|Hlt]; [exfalso| assumption |exfalso].
  - specialize (Fj i ei Hlt Hi). specialize (Mi ej (nth_error_In _ _ Hj)). lra.
  - specialize (Fi j ej Hlt Hj). specialize (Mj ei (nth_error_In _ _ Hi)). lra.
Qed.

(** [torch.argmax] over the rational similarities meets the retrieval
    contract. *)
Lemma argmax_best_match (qv : vec) (es : list vec) i :
  argmax (map (cos_sim qv) es) = Some i -> best_match qv es i.
Proof.
  intros (e & He & Hmax & Hfirst)%retrieval_first_max_real_core.
  exists e. rewrite <- !cos_sim_torch_core. repeat split; [exact He|..].
  - intros e'. rewrite <- !cos_sim_torch_core. apply Hmax.
  - intros j e'. rewrite <- !cos_sim_torch_core. apply Hfirst.
Qed.

Lemma best_match_exists (qv : vec) (es : list vec) :
  es <> [] -> exists i, best_match qv es i.
Proof.
  intros Hne. destruct (argmax (map (cos_sim qv) es)) as [i|] eqn:Ha.
  - exists i. now apply argmax_best_match.
  - apply argmax_none, map_eq_nil in Ha. contradiction.
Qed.

#[local] Hint Constructors step star : core.

Section MachineTheorems.
Context {U : UnicodeDB} {B : Type} (ext : externals B) (chunks : list pystr) (es : list vec).

Lemma terminal_stuck x y :
  terminal (fst x) = true -> ~ step ext chunks es x y.
Proof. intros Ht Hs. inversion Hs; subst; discriminate. Qed.

Lemma step_deterministic x y z :
  step ext chunks es x y -> step ext chunks es x z -> y = z.
Proof.
  intros Hy Hz. inversion Hy; subst; inversion Hz; subst;
    try congruence; try (exfalso; congruence);
    repeat match goal with
           | H1 : bot_response _ _ _ = _, H2 : bot_response _ _ _ = _ |- _ =>
               rewrite H1 in H2; injection H2 as <- <- <-
           | H1 : best_match _ _ ?i, H2 : best_match _ _ ?j |- _ =>
               assert (i = j) by (eapply best_match_unique; eassumption); subst j; clear H2
           | H1 : round2_spec ?x ?v, H2 : round2_spec ?x ?w |- _ =>
               assert (v = w) by (eapply round2_spec_unique; eassumption); subst w; clear H2
           | H : best_match _ [] _ |- _ =>
               let Hn := fresh in destruct H as (? & Hn & _); now rewrite nth_error_nil in Hn
           end;
    solve [reflexivity | exfalso; lra | exfalso; eapply Qlt_not_le; eassumption].
Qed.

Lemma star_terminal_unique x p1 p2 :
  star ext chunks es x p1 -> terminal (fst p1) = true ->
  star ext chunks es x p2 -> terminal (fst p2) = true -> p1 = p2.
Proof.
  intros H1. revert p2. induction H1 as [x|x y z Hxy Hyz IH]; intros p2 T1 H2 T2.
  - destruct H2 as [|x y p2 Hs]; [reflexivity|].
    exfalso. exact (terminal_stuck _ _ T1 Hs).
  - destruct H2 as [|x y' p2 Hs Hrest].
    + exfalso. exact (terminal_stuck _ _ T2 Hxy).
    + rewrite (step_deterministic _ _ _ Hxy Hs) in IH. now apply IH.
Qed.

Lemma star_one x y : step ext chunks es x y -> star ext chunks es x y.
Proof. intros H. econstructor; [exact H|constructor]. Qed.

(** A received query goes on to the pattern attempt. *)
Lemma run_pattern raw b p :
  strip raw <> [] -> star ext chunks es (PatternAttempted (strip raw), b) p ->
  star ext chunks es (Start raw, b) p.
Proof. intros Hne H. econstructor; [now apply st_receive|exact H]. Qed.

(** A pattern attempt at or below 0.5 goes on to the semantic attempt. *)
Lemma run_semantic raw b t c b' p :
  strip raw <> [] -> bot_response ext b (strip raw) = ((t, c), b') -> (c <= 1 # 2)%Q ->
  star ext chunks es (SemanticAttempted (strip raw), b') p -> star ext chunks es (Start raw, b) p.
Proof.
  intros Hne Hbot Hc H. apply run_pattern; [exact Hne|].
  econstructor; [eapply st_pattern_fail; eassumption|exact H].
Qed.

(** Every query reaches a terminal state of the machine (at most
    three steps: the rejection, or the pattern attempt and then the
    semantic attempt); the machine never stalls. *)
Theorem spec_total (raw : pystr) (b : B) :
  exists p, star ext chunks es (Start raw, b) p /\ terminal (fst p) = true.
Proof.
  destruct (strip raw) as [|c0 t0] eqn:E.
  { exists (Prompted, b). split; [|reflexivity]. now apply star_one, st_reject. }
  assert (Hne : strip raw <> []) by congruence.
  destruct (bot_response ext b (strip raw)) as [[t c] b'] eqn:Hbot.
  destruct (Qlt_le_dec (1 # 2) c) as [Hc|Hc].
  { eexists. split; [apply run_pattern, star_one; [exact Hne|]; eapply st_pattern_accept; eassumption|reflexivity]. }
  assert (Hes : es = [] \/ es <> []) by (destruct es; [left|right]; congruence).
  destruct Hes as [Hes|Hes].
  { exists (OutOfScope, b'). split; [eapply run_semantic, star_one; eauto; now apply st_empty_corpus|reflexivity]. }
  destruct (best_match_exists (encode ext (strip raw)) es Hes) as [i Hi].
  destruct (Rlt_le_dec (torch_cos_R (encode ext (strip raw)) (nth i es [])) (1 / 2)).
  - exists (OutOfScope, b'). split; [eapply run_semantic, star_one; eauto; eapply st_no_match; eassumption|reflexivity].
  - pose proof (round2_correct_core _ (cos_sim_den_pos (encode ext (strip raw)) (nth i es []))) as Hr.
    rewrite cos_sim_torch_core in Hr.
    eexists. split; [eapply run_semantic, star_one; eauto; eapply st_answer; eassumption|reflexivity].
Qed.
End MachineTheorems.

(** ** Refinement: the handler implements the machine *)

Lemma cos_threshold_R (qv e : vec) :
  cos_lt_const (cos_sim qv e) (1 # 2) = true <-> (torch_cos_R qv e < 1 / 2)%R.
Proof. rewrite cos_lt_const_real_core by apply cos_sim_den_pos. now rewrite cos_sim_torch_core, Q2R_half. Qed.

Lemma dims_forallb {B} (ext : externals B) (es : list vec) (q : pystr) :
  (forall q' e, In e es -> length e = length (encode ext q')) ->
  forallb (fun e => length e =? length (encode ext q)) es = true.
Proof. intros Hdim. apply forallb_forall. intros e He. apply Nat.eqb_eq, Hdim, He. Qed.

Section Refinement.
Context {U : UnicodeDB} {P : Pickle} {B : Type} (ext : externals B).

Lemma query_refines_spec_core (d : db P) (chunks : list pystr) (es : list vec) (s : pystr) (b : B) :
  load_data_from_db d = inr (chunks, es) -> es <> [] ->
  (forall q e, In e es -> length e = length (encode ext q)) ->
  exists r b' tr st,
    query ext d (Some (FieldStr s)) b [] = (inr r, b', tr)
    /\ star ext chunks es (Start s, b) (st, b') /\ terminal st = true
    /\ render st = Some (observe r).
Proof.
  intros Hload Hes Hdim.
  destruct (strip s) as [|c0 t0] eqn:E.
  { exists prompt_response, b, [], Prompted. repeat split.
    - now apply query_empty_core, strip_nil_iff.
    - now apply star_one, st_reject. }
  assert (Hne : strip s <> []) by congruence.
  destruct (bot_response ext b (strip s)) as [[t c] b'] eqn:Hbot.
  destruct (Qltb (1 # 2) c) eqn:Hc.
  { exists (mk_response (Some Success) (strip t) (Some SourceChatterBot) None), b', [EvBotResponse (strip s)],
      (Accepted (strip t) SourceChatterBot None).
    split; [now apply (query_pattern_accept_core ext d s t c b b')|].
    repeat split. apply run_pattern, star_one; [exact Hne|].
    eapply st_pattern_accept; [eassumption|]. now apply Qltb_true. }
  pose proof (dims_forallb ext es (strip s) Hdim) as Hd.
  pose proof Hc as Hc'%Qltb_false.
  destruct (argmax (map (cos_sim (encode ext (strip s))) es)) as [i|] eqn:Ha;
    [|apply argmax_none, map_eq_nil in Ha; contradiction].
  pose proof (argmax_best_match _ _ _ Ha) as Hbm.
  destruct (cos_lt_const (cos_sim (encode ext (strip s)) (nth i es [])) (1 # 2)) eqn:Hlt.
  - exists out_of_scope_response, b', [EvBotResponse (strip s); EvLoadDB; EvEncode (strip s)], OutOfScope.
    split; [eapply query_out_of_scope_core; eassumption|]. repeat split.
    eapply run_semantic, star_one; [eassumption..|]. eapply st_no_match; [eassumption|].
    now apply cos_threshold_R.
  - eexists _, b', [EvBotResponse (strip s); EvLoadDB; EvEncode (strip s)],
      (Accepted (answer_of ext chunks (strip s) i) SourcePDF
         (Some (r2_R (round2 (cos_sim (encode ext (strip s)) (nth i es [])))))).
    split; [eapply query_semantic_answer_core; eassumption|]. split; [|split; [reflexivity|]].
    + eapply run_semantic, star_one; [eassumption..|]. eapply st_answer; [eassumption| |].
      * apply Rnot_lt_le. intros H%cos_threshold_R. congruence.
      * rewrite <- cos_sim_torch_core. apply round2_correct_core, cos_sim_den_pos.
    + reflexivity.
Qed.

(** C1: on a corpus that loads, is not empty and whose embeddings all
    have the encoder's dimension, the [/query] handler refines the
    machine of section 4.5: it returns a reply and a bot state, the
    machine runs from [Start] to a terminal state with that bot state,
    and the reply (status, text, source, rounded confidence) is the one
    that state renders. *)
Theorem query_refines_spec (d : db P) (chunks : list pystr) (es : list vec) (s : pystr) (b : B) :
  load_data_from_db d = inr (chunks, es) -> es <> [] ->
  (forall q e, In e es -> length e = length (encode ext q)) ->
  exists r b' tr st,
    query ext d (Some (FieldStr s)) b [] = (inr r, b', tr)
    /\ star ext chunks es (Start s, b) (st, b') /\ terminal st = true
    /\ render st = Some (observe r).
Proof. apply query_refines_spec_core. Qed.

(** On such a corpus the handler's reply is determined by the
    machine: whatever terminal state a run of the machine from the
    query reaches, the handler returns the reply that state renders,
    with the bot state it carries. *)
Theorem query_unique_response (d : db P) (chunks : list pystr) (es : list vec) (s : pystr) (b : B)
    (st : qstate) (b' : B) :
  load_data_from_db d = inr (chunks, es) -> es <> [] ->
  (forall q e, In e es -> length e = length (encode ext q)) ->
  star ext chunks es (Start s, b) (st, b') -> terminal st = true ->
  exists r tr, query ext d (Some (FieldStr s)) b [] = (inr r, b', tr) /\ render st = Some (observe r).
Proof.
  intros Hload Hes Hdim Hrun Ht.
  destruct (query_refines_spec_core d chunks es s b Hload Hes Hdim) as (r & b0 & tr & st0 & Hq & Hrun0 & Ht0 & Hr).
  pose proof (star_terminal_unique ext chunks es _ _ _ Hrun Ht Hrun0 Ht0) as E.
  injection E as <- <-. now exists r, tr.
Qed.
End Refinement.

(** ** Witnesses *)

Definition demo_chunks : list pystr := [py "Revenue grew 10%. Profit fell 2%."; py "The grid is stable."].
Definition demo_embeddings : list vec := [[1; 0]; [0; 1]]%Q.

Lemma query_refines_spec_witness :
  exists r b' tr st,
    query (demo_ext 0 [1; 0]%Q) (Some corpus_table) (Some (FieldStr demo_query)) tt [] = (inr r, b', tr)
    /\ star (demo_ext 0 [1; 0]%Q) demo_chunks demo_embeddings (Start demo_query, tt) (st, b')
    /\ terminal st = true /\ render st = Some (observe r).
Proof.
  apply query_refines_spec; [reflexivity|discriminate|].
  intros q e [<-|[<-|[]]]; reflexivity.
Defined.

Lemma query_unique_response_witness :
  exists r tr,
    query (demo_ext 0 [1; 0]%Q) (Some corpus_table) (Some (FieldStr (py "  "))) tt [] = (inr r, tt, tr)
    /\ render Prompted = Some (observe r).
Proof.
  apply (query_unique_response (demo_ext 0 [1; 0]%Q) (Some corpus_table) demo_chunks demo_embeddings);
    [reflexivity|discriminate| |econstructor; [apply st_reject; reflexivity|constructor]|reflexivity].
  intros q e [<-|[<-|[]]]; reflexivity.
Defined.
