(* ===== verification/Main.v ===== *)
(** * Start-up: the [if __name__ == "__main__":] block (app.py, lines 185-199)

    The main block creates the table, ingests [Power_Grid_Ltd.pdf] and
    trains ChatterBot on it, then serves requests ([app.run], modelled
    in [Server]).  An exception in the table creation or the ingestion
    ends the start-up: the later steps do not run.  [main] returns the
    database, the bot and that exception.

    The theorem: from any database, table or no table, a fault-free
    start-up on a document with chunks stores exactly those chunks and
    their embeddings, in order, and trains the bot on them.  The
    design's end-to-end scenario (section 8) is run on the code at the
    end of the file. *)

From Stdlib Require Import List Arith Lia Bool QArith.
From S2P Require Import Prelude PyStr Segmenter Cosine VectorStore Trainer Orchestrator.
Import ListNotations.

Definition pdf_name : pystr := py "Power_Grid_Ltd.pdf".

Section Main.
Context {P : Pickle} {B : Type} (list_train : B -> list pystr -> B).

(** [fault_init] and [fault_store] are the statement failures of the
    two transactions. *)
Definition main (extract_text : pystr -> option pystr) (embed : pystr -> vec)
    (fault_init fault_store : nat -> bool) (d : db P) (bot : B)
    : db P * B * option store_error :=
  match init_db fault_init d with
  | (d1, Some e) => (d1, bot, Some e)
  | (d1, None) =>
      match compute_and_store_embeddings extract_text embed fault_store pdf_name d1 with
      | (d2, Some e) => (d2, bot, Some e)
      | (d2, None) => (d2, train_chatbot B list_train extract_text bot, None)
      end
  end.
End Main.

(** [CREATE TABLE IF NOT EXISTS] without failure: the table there is, or
    a new empty one. *)
Lemma init_db_no_fault `{Pickle} (d : db _) :
  init_db (fun _ => false) d = (Some (match d with None => mk_table [] 0 | Some t => t end), None).
Proof. destruct d; reflexivity. Qed.

(** [CREATE TABLE IF NOT EXISTS] that commits leaves a table. *)
Lemma init_db_ok `{Pickle} fault (d d1 : db _) :
  init_db fault d = (d1, None) -> exists t, d1 = Some t.
Proof.
  unfold init_db, transaction. cbn [exec_all].
  destruct (fault 0%nat); [discriminate|]. destruct d; intros [= <-]; eauto.
Qed.

(** Whatever statements fail, a start-up that raises nothing has stored
    exactly the document's chunks and embeddings: the table creation
    committed, and the ingestion committed what a failure-free run
    commits. *)
Lemma main_ok_loads `{Pickle} {B : Type} (list_train : B -> list pystr -> B)
    (extract_text : pystr -> option pystr) (embed : pystr -> vec) fi fs (d d' : db _) (bot bot' : B) :
  extract_pdf_text extract_text pdf_name <> [] ->
  (forall x y, length (embed x) = length (embed y)) ->
  main list_train extract_text embed fi fs d bot = (d', bot', None) ->
  bot' = train_chatbot B list_train extract_text bot
  /\ load_data_from_db d' = inr (extract_pdf_text extract_text pdf_name,
                                map embed (extract_pdf_text extract_text pdf_name)).
Proof.
  intros Hne Hd. unfold main.
  destruct (init_db fi d) as [d1 [e|]] eqn:Hi; [discriminate|].
  destruct (init_db_ok _ _ _ Hi) as [t ->].
  destruct (store_atomic_core extract_text embed fs pdf_name (Some t)) as [[Hn Hf]|[Hn _]];
    destruct (compute_and_store_embeddings extract_text embed fs pdf_name (Some t)) as [d2 [e|]];
    cbn in Hn; try discriminate; [|congruence].
  intros [= <- <-]. split; [reflexivity|]. cbn in Hf. subst d2.
  rewrite compute_and_store_no_fault by exact Hne. cbn [fst load_data_from_db rows].
  now rewrite load_rows_new_rows, map_fst_combine_map, map_snd_combine_map, uniform_dims_map.
Qed.

(** C27: from any database, a start-up without failures, on a document
    whose text has chunks and with an encoder of one output length,
    stores exactly those chunks and their
    embeddings, in order, raises nothing and trains the bot on the
    same document. *)
Theorem main_ingests `{Pickle} {B : Type} (list_train : B -> list pystr -> B)
    (extract_text : pystr -> option pystr) (embed : pystr -> vec) (d : db _) (bot : B) :
  extract_pdf_text extract_text pdf_name <> [] ->
  (forall x y, length (embed x) = length (embed y)) ->
  exists d',
    main list_train extract_text embed (fun _ => false) (fun _ => false) d bot
      = (d', train_chatbot B list_train extract_text bot, None)
    /\ load_data_from_db d' = inr (extract_pdf_text extract_text pdf_name,
                                  map embed (extract_pdf_text extract_text pdf_name)).
Proof.
  intros Hne Hd. unfold main. rewrite init_db_no_fault, compute_and_store_no_fault by exact Hne.
  eexists. split; [reflexivity|]. cbn [load_data_from_db rows].
  now rewrite load_rows_new_rows, map_fst_combine_map, map_snd_combine_map, uniform_dims_map.
Qed.

Lemma main_ingests_witness :
  exists d',
    main (fun (b : unit) _ => b) sample_extract sample_embed (fun _ => false) (fun _ => false) None tt
      = (d', train_chatbot unit (fun b _ => b) sample_extract tt, None)
    /\ load_data_from_db d' = inr (extract_pdf_text sample_extract pdf_name,
                                  map sample_embed (extract_pdf_text sample_extract pdf_name)).
Proof. apply main_ingests; [vm_compute; discriminate|intros; reflexivity]. Defined.

(** ** The design's end-to-end scenario

    The document is ["1.2 Revenue grew 10%.\n\nProfit fell 2%."]; the
    bot has no pattern reply (confidence 0), the encoder is
    [sample_embed] for the chunks and the query alike, and the fuzzy
    ratio is the length of the sentence. *)

Definition scenario_extract (_ : pystr) : option pystr := Some spec_example_text.

Definition scenario_ext : externals unit :=
  mk_externals unit (fun b _ => (([], 0%Q), b)) sample_embed
    (fun s _ => inject_Z (Z.of_nat (length s))).
