(* ===== verification/Server.v ===== *)
(** * The Flask application: routes, replies and the serving loop
    (app.py, lines 14, 96-103, 199)

    [app = Flask(__name__, template_folder="templates",
    static_folder="static")] has three rules in its URL map: ["/"]
    ([home], GET, line 97), ["/query"] ([query], POST, line 103) and
    [/static/<path:filename>], which [static_folder] adds.  Flask adds
    HEAD to a rule with GET and answers OPTIONS itself; a path without a
    rule is a 404, a method the rule does not allow a 405.  For a POST
    to ["/query"] the body is what [request.json] sees: a JSON object,
    other JSON (on which [data.get] raises), or no JSON at all, on which
    [request.json] raises [UnsupportedMediaType] (Flask 2.1 and later).
    [dispatch] is this routing: a reply, or the call of [query] on the
    body; [serve] answers one request, run to its end; the global state
    it reads and changes is the database file and ChatterBot's state
    ([server]).

    The life of the process ([app_step]) is a state machine: the main
    block boots (table creation, ingestion, training; [Main.main]) and
    either crashes on its exception or goes on to serve requests forever
    ([app.run]), each run to its end by [serve]; the threads that
    interleave concurrent requests are in [Threads], where every such
    run is shown equal to one of these, and the reloader that
    [debug=True] adds, which boots twice, is in [Process].  The encoder of the ingestion and of the
    handler is the same [model] (line 17).

    The theorems: the JSON replies of the handler have one of the four
    shapes of app.py (the schema [response_wf]); the routes of
    app.py reject a method ["/query"] or ["/"] does not allow (405), a
    path without a rule (404) and a POST to ["/query"] without JSON
    (415), without touching the state; in every reachable serving state the database
    holds exactly the document's chunks and their embeddings (serving
    never writes it, and a boot either commits the whole ingestion or
    crashes), so every POST of a JSON string query gets a JSON reply and
    never an error 500. *)

From Stdlib Require Import List Arith Lia Bool NArith QArith.
From S2P Require Import Prelude PyStr Segmenter Ranking Cosine CosineReal AnswerExtractor VectorStore Trainer Orchestrator QuerySpec Main.
Import ListNotations.

(** ** Requests and replies *)

Inductive method := GET | HEAD | POST | PUT | DELETE | PATCH | OPTIONS.
Scheme Equality for method.

(** The body of a POST as [request.json] sees it. *)
Inductive request_body :=
| JsonObject (f : query_field)  (* a JSON object, [f] its ["query"] entry *)
| JsonOther                     (* JSON that is not an object *)
| NotJson.                      (* no JSON content type *)

Record request := mk_request { req_method : method; req_path : pystr; req_body : request_body }.

Inductive route := RouteHome | RouteQuery | RouteStatic (filename : pystr).

(** [p] removed from the front of [s], when it is a prefix. *)
Fixpoint drop_prefix (p s : pystr) : option pystr :=
  match p, s with
  | [], _ => Some s
  | a :: p', b :: s' => if (a =? b)%N then drop_prefix p' s' else None
  | _ :: _, [] => None
  end.

(** The URL map; [<path:filename>] needs a non-empty file name. *)
Definition match_route (path : pystr) : option route :=
  if list_eq_dec N.eq_dec path (py "/") then Some RouteHome
  else if list_eq_dec N.eq_dec path (py "/query") then Some RouteQuery
  else match drop_prefix (py "/static/") path with
       | Some ((_ :: _) as f) => Some (RouteStatic f)
       | _ => None
       end.

(** The methods of each rule, with Flask's automatic HEAD and OPTIONS. *)
Definition allowed (r : route) : list method :=
  match r with
  | RouteHome | RouteStatic _ => [GET; HEAD; OPTIONS]
  | RouteQuery => [POST; OPTIONS]
  end.

Inductive http_reply :=
| Page (template : pystr)        (* render_template(...), 200 *)
| StaticFile (filename : pystr)  (* send_from_directory("static", ...), 200 *)
| Json (r : response)            (* jsonify(...), 200 *)
| Allow (ms : list method)       (* the automatic OPTIONS reply, 200 *)
| HttpError (code : N)           (* 404, 405, 415 *)
| InternalError (e : query_error). (* an uncaught exception, 500 *)

(** The handler's outcome as Flask sends it. *)
Definition reply_of (res : query_error + response) : http_reply :=
  match res with
  | inl e => InternalError e
  | inr r => Json r
  end.

(** The JSON schema of the replies of [query]: the prompt (["response"]
    only), ChatterBot's reply, the out-of-scope message, and the answer
    from the PDF, the only one with a ["confidence_score"]. *)
Definition response_wf (r : response) : bool :=
  match r_status r, r_source r, r_confidence r with
  | None, None, None => true
  | Some Success, Some SourceChatterBot, None => true
  | Some Error, Some SourceNone, None => true
  | Some Success, Some SourcePDF, Some _ => true
  | _, _, _ => false
  end.

(** ** Serving one request *)

(** The state a request can read or change: the database file and
    ChatterBot's state (it learns from [get_response]). *)
Record server (P : Pickle) (B : Type) := mk_server { srv_db : db P; srv_bot : B }.
Arguments mk_server {P B}.
Arguments srv_db {P B}.
Arguments srv_bot {P B}.

Section Serve.
Context {U : UnicodeDB} {P : Pickle} {B : Type} (ext : externals B).

(** [query()] called with the body [body] on the state [s]. *)
Definition run_query (s : server P B) (body : option query_field) : http_reply * server P B * list event :=
  let '(res, b', tr) := query ext (srv_db s) body (srv_bot s) [] in
  (reply_of res, mk_server (srv_db s) b', tr).

(** What Flask does with a request before any handler state is
    touched: an immediate reply, or a call of [query()] with the body
    [request.json] sees. *)
Inductive dispatch_result :=
| Immediate (rep : http_reply)
| CallQuery (body : option query_field).

Definition dispatch (req : request) : dispatch_result :=
  match match_route (req_path req) with
  | None => Immediate (HttpError 404)
  | Some rt =>
      if in_dec method_eq_dec (req_method req) (allowed rt) then
        if method_beq (req_method req) OPTIONS then Immediate (Allow (allowed rt))
        else match rt with
             | RouteHome => Immediate (Page (py "index.html"))
             | RouteStatic f => Immediate (StaticFile f)
             | RouteQuery =>
                 match req_body req with
                 | NotJson => Immediate (HttpError 415)
                 | JsonOther => CallQuery None
                 | JsonObject f => CallQuery (Some f)
                 end
             end
      else Immediate (HttpError 405)
  end.

Definition serve (s : server P B) (req : request) : http_reply * server P B * list event :=
  match dispatch req with
  | Immediate rep => (rep, s, [])
  | CallQuery body => run_query s body
  end.
End Serve.

(** ** The process: boot, then serve forever *)

Inductive phase := Booting | Serving | Crashed (e : store_error).

Record app (P : Pickle) (B : Type) := mk_app { app_phase : phase; app_db : db P; app_bot : B }.
Arguments mk_app {P B}.
Arguments app_phase {P B}.
Arguments app_db {P B}.
Arguments app_bot {P B}.

Section App.
Context {U : UnicodeDB} {P : Pickle} {B : Type} (ext : externals B)
  (list_train : B -> list pystr -> B) (extract_text : pystr -> option pystr).

(** The failures of the boot's two transactions are any [fi], [fs];
    the requests are any. *)
Inductive app_step : app P B -> app P B -> Prop :=
| boot_ok fi fs d b d' b' :
    main list_train extract_text (encode ext) fi fs d b = (d', b', None) ->
    app_step (mk_app Booting d b) (mk_app Serving d' b')
| boot_crash fi fs d b d' b' e :
    main list_train extract_text (encode ext) fi fs d b = (d', b', Some e) ->
    app_step (mk_app Booting d b) (mk_app (Crashed e) d' b')
| serve_request d b req rep s' tr :
    serve ext (mk_server d b) req = (rep, s', tr) ->
    app_step (mk_app Serving d b) (mk_app Serving (srv_db s') (srv_bot s')).

(** The process starts booting on whatever database file there is. *)
Inductive reachable : app P B -> Prop :=
| reach_boot d b : reachable (mk_app Booting d b)
| reach_step a a' : reachable a -> app_step a a' -> reachable a'.
End App.

(** ** The replies of the handler *)

Section Replies.
Context {U : UnicodeDB} {P : Pickle} {B : Type} (ext : externals B).

(** C15: every reply of the [/query] handler that is not an exception has
    one of the four JSON shapes of app.py: the prompt with only a
    ["response"], ChatterBot's reply, the out-of-scope error, or the
    answer from the PDF, which alone carries a confidence. *)
Theorem query_response_wf (d : db P) (body : option query_field) (b : B) r b' tr :
  query ext d body b [] = (inr r, b', tr) -> response_wf r = true.
Proof. unfold_query. destruct_matches; intros H; first [discriminate H | injection H as <- _ _; reflexivity]. Qed.
End Replies.

(** ** Rejected requests *)

Section Routing.
Context {U : UnicodeDB} {P : Pickle} {B : Type} (ext : externals B).

(** [drop_prefix p s] strips exactly the prefix [p]. *)
Lemma drop_prefix_inv (p s f : pystr) : drop_prefix p s = Some f -> s = p ++ f.
Proof.
  revert s. induction p as [|a p IH]; intros [|b s]; cbn; try congruence.
  destruct (N.eqb_spec a b) as [<-|]; [|discriminate]. intros H. now rewrite (IH s H).
Qed.

(** A path that is not ["/"], not ["/query"] and not under
    ["/static/"] has no rule. *)
Lemma match_route_none (path : pystr) :
  path <> py "/" -> path <> py "/query" -> (forall f, f <> [] -> path <> py "/static/" ++ f) ->
  match_route path = None.
Proof.
  intros H1 H2 H3. unfold match_route.
  destruct (list_eq_dec N.eq_dec path (py "/")); [contradiction|].
  destruct (list_eq_dec N.eq_dec path (py "/query")); [contradiction|].
  destruct (drop_prefix (py "/static/") path) as [[|c f]|] eqn:E; try reflexivity.
  exfalso. apply (H3 (c :: f)); [discriminate|]. exact (drop_prefix_inv _ _ _ E).
Qed.

(** C16: the routes of app.py reject, without a call to any external
    capability and without a change to the database or the bot: any
    method but POST (and OPTIONS) on ["/query"] with a 405, any method
    but GET, HEAD and OPTIONS on ["/"] with a 405, a path other than
    ["/"], ["/query"] and a file under ["/static/"] with a 404, and a
    POST to ["/query"] whose body is not JSON with a 415. *)
Theorem serve_rejects (s : server P B) :
  (forall m body, m <> POST -> m <> OPTIONS ->
     serve ext s (mk_request m (py "/query") body) = (HttpError 405, s, []))
  /\ (forall m body, ~ In m [GET; HEAD; OPTIONS] ->
     serve ext s (mk_request m (py "/") body) = (HttpError 405, s, []))
  /\ (forall m path body, path <> py "/" -> path <> py "/query" ->
        (forall f, f <> [] -> path <> py "/static/" ++ f) ->
        serve ext s (mk_request m path body) = (HttpError 404, s, []))
  /\ serve ext s (mk_request POST (py "/query") NotJson) = (HttpError 415, s, []).
Proof.
  split; [|split; [|split]].
  - intros m body H1 H2. unfold serve, dispatch. cbn [req_path req_method].
    change (match_route (py "/query")) with (Some RouteQuery). cbn [allowed].
    destruct (in_dec method_eq_dec m [POST; OPTIONS]) as [[E|[E|[]]]|]; [congruence|congruence|reflexivity].
  - intros m body Hm. unfold serve, dispatch. cbn [req_path req_method].
    change (match_route (py "/")) with (Some RouteHome). cbn [allowed].
    now destruct (in_dec method_eq_dec m [GET; HEAD; OPTIONS]).
  - intros m path body H1 H2 H3. unfold serve, dispatch. cbn [req_path]. now rewrite match_route_none.
  - reflexivity.
Qed.

(** Serving a request never writes the database. *)
Lemma serve_db (s s' : server P B) req rep tr :
  serve ext s req = (rep, s', tr) -> srv_db s' = srv_db s.
Proof. unfold serve, dispatch, run_query. destruct_matches; intros H; injection H as _ <- _; reflexivity. Qed.

(** A POST of a JSON object to ["/query"] runs the handler. *)
Lemma serve_post_query (s : server P B) (f : query_field) :
  serve ext s (mk_request POST (py "/query") (JsonObject f)) = run_query ext s (Some f).
Proof. reflexivity. Qed.
End Routing.

(** ** The serving process *)

Section AppTheorems.
Context {U : UnicodeDB} {P : Pickle} {B : Type} (ext : externals B)
  (list_train : B -> list pystr -> B) (extract_text : pystr -> option pystr).
(** The document has chunks, and the model has one output length. *)
Hypothesis doc_chunks : extract_pdf_text extract_text pdf_name <> [].
Hypothesis encoder_dim : forall x y, length (encode ext x) = length (encode ext y).

Lemma serving_db_loads_core (a : app P B) :
  reachable ext list_train extract_text a -> app_phase a = Serving ->
  load_data_from_db (app_db a) = inr (extract_pdf_text extract_text pdf_name,
                                      map (encode ext) (extract_pdf_text extract_text pdf_name)).
Proof.
  induction 1 as [d b|a a' Hr IH Hs]; [discriminate|].
  inversion Hs as [fi fs d b d' b' Hm| |d b req rep s' tr Hserve]; subst; cbn; intros Hp; try discriminate.
  - exact (proj2 (main_ok_loads list_train extract_text (encode ext) fi fs d d' b b' doc_chunks encoder_dim Hm)).
  - rewrite (serve_db ext _ _ _ _ _ Hserve). exact (IH eq_refl).
Qed.

(** C10: in every state the process reaches while serving, whatever
    statements failed at boot and whatever requests came before, the
    database holds exactly the document's chunks and their embeddings,
    in order: the boot commits the whole ingestion or crashes, and
    serving never writes the database. *)
Theorem serving_db_loads (a : app P B) :
  reachable ext list_train extract_text a -> app_phase a = Serving ->
  load_data_from_db (app_db a) = inr (extract_pdf_text extract_text pdf_name,
                                      map (encode ext) (extract_pdf_text extract_text pdf_name)).
Proof. apply serving_db_loads_core. Qed.

(** On a database that loads the document, a POST to ["/query"] of a
    JSON string query gets a JSON reply, whatever the bot's state. *)
Lemma serve_query_json (s : server P B) (q : pystr) :
  load_data_from_db (srv_db s) = inr (extract_pdf_text extract_text pdf_name,
                                      map (encode ext) (extract_pdf_text extract_text pdf_name)) ->
  exists r s' tr,
    serve ext s (mk_request POST (py "/query") (JsonObject (FieldStr q))) = (Json r, s', tr).
Proof.
  intros Hload. rewrite serve_post_query. unfold run_query.
  assert (Hne : map (encode ext) (extract_pdf_text extract_text pdf_name) <> [])
    by (destruct (extract_pdf_text extract_text pdf_name); [contradiction|discriminate]).
  assert (Hd : forall q e, In e (map (encode ext) (extract_pdf_text extract_text pdf_name)) ->
                 length e = length (encode ext q))
    by (intros q' e (x & <- & _)%in_map_iff; apply encoder_dim).
  destruct (query_refines_spec_core ext (srv_db s) _ _ q (srv_bot s) Hload Hne Hd)
    as (r & b' & tr & _ & Hq & _).
  rewrite Hq. do 3 eexists. reflexivity.
Qed.

(** C11: in every state the process reaches while serving, a POST to
    ["/query"] of a JSON object whose ["query"] is a string gets a JSON
    reply (HTTP 200) and never an error 500. *)
Theorem serving_answers_queries (a : app P B) (s : pystr) :
  reachable ext list_train extract_text a -> app_phase a = Serving ->
  exists r s' tr,
    serve ext (mk_server (app_db a) (app_bot a)) (mk_request POST (py "/query") (JsonObject (FieldStr s)))
      = (Json r, s', tr).
Proof.
  intros Hr Hp. apply serve_query_json. exact (serving_db_loads_core a Hr Hp).
Qed.
End AppTheorems.

(** The process of the design's scenario after a boot without failures. *)
Definition scenario_serving : app model_pickle unit :=
  mk_app Serving
    (fst (fst (main (fun (b : unit) _ => b) scenario_extract (encode scenario_ext)
                 (fun _ => false) (fun _ => false) None tt))) tt.

Lemma scenario_serving_reachable :
  reachable scenario_ext (fun (b : unit) _ => b) scenario_extract scenario_serving.
Proof.
  eapply reach_step; [apply (reach_boot _ _ _ None tt)|].
  apply boot_ok with (fi := fun _ => false) (fs := fun _ => false). reflexivity.
Qed.

Lemma serving_db_loads_witness :
  load_data_from_db (app_db scenario_serving)
  = inr (extract_pdf_text scenario_extract pdf_name,
         map (encode scenario_ext) (extract_pdf_text scenario_extract pdf_name)).
Proof.
  apply (serving_db_loads scenario_ext (fun (b : unit) _ => b) scenario_extract);
    [vm_compute; discriminate|intros; reflexivity|exact scenario_serving_reachable|reflexivity].
Defined.

Lemma serving_answers_queries_witness :
  exists r s' tr,
    serve scenario_ext (mk_server (app_db scenario_serving) (app_bot scenario_serving))
      (mk_request POST (py "/query") (JsonObject (FieldStr (py "How did revenue perform?"))))
      = (Json r, s', tr).
Proof.
  apply (serving_answers_queries scenario_ext (fun (b : unit) _ => b) scenario_extract);
    [vm_compute; discriminate|intros; reflexivity|exact scenario_serving_reachable|reflexivity].
Defined.

Lemma query_response_wf_witness :
  exists r b' tr,
    query scenario_ext (app_db scenario_serving) (Some (FieldStr (py "How did revenue perform?"))) tt []
      = (inr r, b', tr)
    /\ response_wf r = true.
Proof.
  destruct (query scenario_ext (app_db scenario_serving) (Some (FieldStr (py "How did revenue perform?"))) tt [])
    as [[[e|r] b'] tr] eqn:H; [vm_compute in H; discriminate H|].
  exists r, b', tr. split; [reflexivity|exact (query_response_wf scenario_ext _ _ _ _ _ _ H)].
Defined.
