(* ===== verification/Threads.v ===== *)
(** * Threaded serving: requests handled concurrently (app.py, line 199)

    [app.run(debug=True)] starts Werkzeug's development server with
    [threaded=True] (Flask's default since 1.0): each request runs
    [query()] on a thread of its own, and the threads share the
    process's globals.  Of what a request touches, two objects are
    shared: ChatterBot's state, which [chatbot.get_response] reads and
    changes (the bot learns from every query), and the database file,
    which [load_data_from_db] reads and no request writes.

    A thread is a request at one of the points where it touches shared
    state ([thread]): not yet dispatched, about to call ChatterBot,
    returned from ChatterBot (about to read the database), or done.
    [thread_step] is one atomic step of a thread on the shared
    [server]; the call to [get_response] is one step, as it is one
    call.  [wstep] runs any thread; every interleaving of the threads
    is a run of [wstep].

    The theorems: whatever the interleaving, once every thread has
    replied, the replies and the final state are those of serving the
    same requests one at a time ([serve_seq]), in the order in which
    their ChatterBot calls happened (linearizability).  The lemmas for
    requests that keep arriving ([lin_inv_arrive]) and for the reply
    of one finished thread ([lin_reply_served]) serve [Process]. *)

From Stdlib Require Import List Arith Lia Bool NArith QArith Permutation.
From S2P Require Import Prelude PyStr Cosine Rounding VectorStore Orchestrator Main Server.
Import ListNotations.
Local Open Scope nat_scope.

(** [l] with its [i]-th element replaced by [x]; [l] when [i] is out of
    range. *)
Fixpoint set_nth {A} (l : list A) (i : nat) (x : A) : list A :=
  match l, i with
  | [], _ => []
  | _ :: l', 0 => x :: l'
  | y :: l', S i' => y :: set_nth l' i' x
  end.

Lemma length_set_nth {A} (l : list A) i x : length (set_nth l i x) = length l.
Proof. revert i; induction l as [|y l IH]; intros [|i]; cbn; auto. Qed.

Lemma nth_error_set_nth_eq {A} (l : list A) i x :
  i < length l -> nth_error (set_nth l i x) i = Some x.
Proof. revert i; induction l as [|y l IH]; intros [|i] Hi; cbn in *; try lia; auto. apply IH; lia. Qed.

Lemma nth_error_set_nth_neq {A} (l : list A) i j x :
  i <> j -> nth_error (set_nth l i x) j = nth_error l j.
Proof. revert i j; induction l as [|y l IH]; intros [|i] [|j] Hij; cbn; auto; try lia. Qed.

(** A request thread, at a point where it touches shared state. *)
Inductive thread :=
| TNew (req : request)                  (* accepted, not yet dispatched *)
| TBot (q : pystr)                      (* in [query()], about to call [get_response] *)
| TRest (q : pystr) (rc : pystr * Q)    (* [get_response] returned [rc] *)
| TDone (rep : http_reply) (tr : list event).

Section Threads.
Context {U : UnicodeDB} {P : Pickle} {B : Type} (ext : externals B).

(** One atomic step of a thread on the shared state; [None] for a
    thread that has replied. *)
Definition thread_step (s : server P B) (t : thread) : option (server P B * thread) :=
  match t with
  | TNew req =>
      match dispatch req with
      | Immediate rep => Some (s, TDone rep [])
      | CallQuery body =>
          match read_query body (srv_bot s) [] with
          | (inr ((_ :: _) as q), _, _) => Some (s, TBot q)
          | _ => let '(rep, s', tr) := run_query ext s body in Some (s', TDone rep tr)
          end
      end
  | TBot q =>
      let '(rc, b') := bot_response ext (srv_bot s) q in
      Some (mk_server (srv_db s) b', TRest q rc)
  | TRest q rc =>
      let '(res, b', tr) := after_bot ext (srv_db s) q rc (srv_bot s) [EvBotResponse q] in
      Some (mk_server (srv_db s) b', TDone (reply_of res) tr)
  | TDone _ _ => None
  end.

Record world := mk_world { w_srv : server P B; w_threads : list thread }.

(** Any thread that has not replied takes a step. *)
Inductive wstep : world -> world -> Prop :=
| wstep_run s ts i t s' t' :
    nth_error ts i = Some t -> thread_step s t = Some (s', t') ->
    wstep (mk_world s ts) (mk_world s' (set_nth ts i t')).

Inductive wstar : world -> world -> Prop :=
| wstar_refl w : wstar w w
| wstar_step w1 w2 w3 : wstep w1 w2 -> wstar w2 w3 -> wstar w1 w3.

(** A scheduler: the thread it picks takes a step, if it has not
    replied. *)
Definition sched_step (w : world) (i : nat) : world :=
  match nth_error (w_threads w) i with
  | Some t =>
      match thread_step (w_srv w) t with
      | Some (s', t') => mk_world s' (set_nth (w_threads w) i t')
      | None => w
      end
  | None => w
  end.

Definition run_schedule (w : world) (sched : list nat) : world := fold_left sched_step sched w.

(** Serving the requests one at a time, in order. *)
Fixpoint serve_seq (s : server P B) (reqs : list request) : list (http_reply * list event) * server P B :=
  match reqs with
  | [] => ([], s)
  | r :: rs =>
      let '(rep, s1, tr) := serve ext s r in
      let '(outs, s2) := serve_seq s1 rs in
      ((rep, tr) :: outs, s2)
  end.

(** The threads of [n] requests accepted together. *)
Definition start (s : server P B) (reqs : list request) : world := mk_world s (map TNew reqs).
End Threads.

Arguments mk_world {P B}.
Arguments w_srv {P B}.
Arguments w_threads {P B}.

(** ** Linearizability *)

Section Linearizability.
Context {U : UnicodeDB} {P : Pickle} {B : Type} (ext : externals B).

(** The reply of a thread whose ChatterBot call is behind it: the one
    it sent, or the one the rest of the handler computes. *)
Definition thread_outcome (s : server P B) (t : thread) : option (http_reply * list event) :=
  match t with
  | TDone rep tr => Some (rep, tr)
  | TRest q rc =>
      let '(res, _, tr) := after_bot ext (srv_db s) q rc (srv_bot s) [EvBotResponse q] in
      Some (reply_of res, tr)
  | _ => None
  end.

Definition outcome_at (w : @world P B) (i : nat) : option (http_reply * list event) :=
  match nth_error (w_threads w) i with
  | Some t => thread_outcome (w_srv w) t
  | None => None
  end.

(** A thread before its ChatterBot call (or before a reply that needs
    none), on request [req]. *)
Definition pending (req : request) (t : thread) : Prop :=
  t = TNew req
  \/ exists body q, dispatch req = CallQuery body /\ q <> []
       /\ (forall b : B, read_query body b [] = (inr q, b, [])) /\ t = TBot q.

Definition is_done (t : thread) : bool := match t with TDone _ _ => true | _ => false end.

Definition dreq : request := mk_request GET [] NotJson.

(** The threads in [lin] have passed their ChatterBot call, in that
    order: serving their requests one at a time in that order gives
    their replies and the current shared state.  The other threads
    have not started their ChatterBot call. *)
Record lin_inv (s0 : server P B) (reqs : list request) (w : @world P B) (lin : list nat) : Prop := {
  li_len : length (w_threads w) = length reqs;
  li_nodup : NoDup lin;
  li_db : srv_db (w_srv w) = srv_db s0;
  li_serial : exists outs,
    serve_seq ext s0 (map (fun i => nth i reqs dreq) lin) = (outs, w_srv w)
    /\ map (outcome_at w) lin = map Some outs;
  li_pending : forall i t, nth_error (w_threads w) i = Some t -> ~ In i lin ->
    pending (nth i reqs dreq) t
}.

Lemma read_query_pure (body : option query_field) :
  exists res, forall (b : B) tr, read_query body b tr = (res, b, tr).
Proof. destruct body as [[|s|]|]; eexists; reflexivity. Qed.

Lemma serve_seq_snoc (s : server P B) (rs : list request) (r : request) :
  serve_seq ext s (rs ++ [r]) =
    let '(outs, s1) := serve_seq ext s rs in
    let '(rep, s2, tr) := serve ext s1 r in (outs ++ [(rep, tr)], s2).
Proof.
  revert s. induction rs as [|r' rs IH]; intros s; cbn.
  - destruct (serve ext s r) as [[rep s2] tr]. reflexivity.
  - destruct (serve ext s r') as [[rep1 s1] tr1]. rewrite IH.
    destruct (serve_seq ext s1 rs) as [outs s3]. now destruct (serve ext s3 r) as [[rep2 s2] tr2].
Qed.

Lemma thread_outcome_db (s s' : server P B) (t : thread) :
  srv_db s' = srv_db s -> thread_outcome s' t = thread_outcome s t.
Proof.
  intros Hdb. destruct t as [| |q rc|]; try reflexivity. cbn. rewrite Hdb.
  destruct (after_bot_pure ext (srv_db s) q rc [EvBotResponse q]) as (res & tr & H).
  now rewrite !H.
Qed.

(** A step of thread [i] leaves the replies of the other threads as
    they were. *)
Lemma outcome_frame (s s' : server P B) ts i t' (lin : list nat) :
  srv_db s' = srv_db s -> ~ In i lin ->
  map (outcome_at (mk_world s' (set_nth ts i t'))) lin = map (outcome_at (mk_world s ts)) lin.
Proof.
  intros Hdb Hi. apply map_ext_in. intros j Hj. unfold outcome_at. cbn.
  rewrite nth_error_set_nth_neq by congruence.
  destruct (nth_error ts j); [now apply thread_outcome_db|reflexivity].
Qed.

Lemma in_lin_outcome (w : @world P B) (lin : list nat) outs i :
  map (outcome_at w) lin = map Some outs -> In i lin -> exists o, outcome_at w i = Some o.
Proof.
  intros Hm Hi. apply (in_map (outcome_at w)) in Hi. rewrite Hm in Hi.
  apply in_map_iff in Hi as (o & Ho & _). eauto.
Qed.

Lemma lin_inv_snoc s0 reqs (s s' : server P B) ts lin i t' rep tr :
  lin_inv s0 reqs (mk_world s ts) lin -> ~ In i lin -> i < length ts ->
  serve ext s (nth i reqs dreq) = (rep, s', tr) -> srv_db s' = srv_db s ->
  thread_outcome s' t' = Some (rep, tr) ->
  lin_inv s0 reqs (mk_world s' (set_nth ts i t')) (lin ++ [i]).
Proof.
  intros [Hlen Hnd Hdb (outs & Hser & Hout) Hpend] Hnin Hi Hserve Hdb' Ht. cbn in *.
  constructor; cbn.
  - now rewrite length_set_nth.
  - eapply Permutation_NoDup; [apply Permutation_cons_append|now constructor].
  - congruence.
  - exists (outs ++ [(rep, tr)]). rewrite map_app. cbn [map]. rewrite serve_seq_snoc, Hser, Hserve.
    split; [reflexivity|]. rewrite !map_app, (outcome_frame s s' ts i t' lin), Hout by assumption.
    cbn [map]. unfold outcome_at. cbn. now rewrite nth_error_set_nth_eq, Ht.
  - intros j t Hj Hnj. assert (i <> j) by (intros ->; apply Hnj, in_or_app; right; left; reflexivity).
    rewrite nth_error_set_nth_neq in Hj by assumption.
    apply Hpend; [exact Hj|]. intros Hin. apply Hnj, in_or_app. now left.
Qed.

Lemma lin_inv_same s0 reqs (s : server P B) ts lin i t t' :
  lin_inv s0 reqs (mk_world s ts) lin -> nth_error ts i = Some t ->
  (In i lin /\ thread_outcome s t' = thread_outcome s t)
  \/ (~ In i lin /\ pending (nth i reqs dreq) t') ->
  lin_inv s0 reqs (mk_world s (set_nth ts i t')) lin.
Proof.
  intros [Hlen Hnd Hdb (outs & Hser & Hout) Hpend] Hnth Hcase. cbn in *.
  assert (Hi : i < length ts) by (apply nth_error_Some; congruence).
  constructor; cbn; [now rewrite length_set_nth|exact Hnd|exact Hdb| |].
  - exists outs. split; [exact Hser|]. rewrite <- Hout. apply map_ext_in. intros j Hj.
    unfold outcome_at. cbn. destruct (Nat.eq_dec i j) as [<-|Hne].
    + rewrite nth_error_set_nth_eq, Hnth by exact Hi.
      destruct Hcase as [[_ E]|[Hn _]]; [exact E|contradiction].
    + now rewrite nth_error_set_nth_neq.
  - intros j u Hj Hnj. destruct (Nat.eq_dec i j) as [<-|Hne].
    + rewrite nth_error_set_nth_eq in Hj by exact Hi. injection Hj as <-.
      destruct Hcase as [[Hin _]|[_ Hp]]; [contradiction|exact Hp].
    + rewrite nth_error_set_nth_neq in Hj by exact Hne. now apply Hpend.
Qed.

(** A thread whose reply is not yet fixed has not been linearized. *)
Lemma not_in_lin s0 reqs (w : @world P B) lin i t :
  lin_inv s0 reqs w lin -> nth_error (w_threads w) i = Some t -> thread_outcome (w_srv w) t = None ->
  ~ In i lin.
Proof.
  intros [_ _ _ (outs & _ & Hout) _] Hnth Ht Hin.
  destruct (in_lin_outcome _ _ _ i Hout Hin) as [o Ho]. unfold outcome_at in Ho.
  rewrite Hnth, Ht in Ho. discriminate.
Qed.

(** Every step of every thread keeps the invariant, the ChatterBot
    call (or the reply of a request that needs none) adding the thread
    to the order. *)
Lemma lin_inv_step s0 reqs (w w' : @world P B) lin :
  lin_inv s0 reqs w lin -> wstep ext w w' -> exists lin', lin_inv s0 reqs w' lin'.
Proof.
  intros Inv Hs. revert Inv. destruct Hs as [s ts i t s' t' Hnth Hstep]. intros Inv.
  assert (Hi : i < length ts) by (apply nth_error_Some; congruence).
  destruct t as [req|q|q rc|rep tr]; cbn in Hstep; [| | |discriminate].
  - pose proof (not_in_lin _ _ _ _ _ _ Inv Hnth eq_refl) as Hnin.
    destruct (li_pending _ _ _ _ Inv i _ Hnth Hnin) as [[= ->]|(? & ? & _ & _ & _ & ?)]; [|discriminate].
    destruct (dispatch (nth i reqs dreq)) as [rep|body] eqn:Hd.
    { injection Hstep as <- <-. exists (lin ++ [i]). eapply lin_inv_snoc; try eassumption; [|reflexivity..].
      unfold serve. now rewrite Hd. }
    destruct (read_query_pure body) as [res Hrq]. rewrite Hrq in Hstep.
    assert (Hserve : serve ext s (nth i reqs dreq) = run_query ext s body) by (unfold serve; now rewrite Hd).
    destruct res as [e|[|c l]].
    1-2: destruct (run_query ext s body) as [[rep s''] tr] eqn:Hrun; injection Hstep as <- <-;
      exists (lin ++ [i]); apply (lin_inv_snoc s0 reqs s s'' ts lin i (TDone rep tr) rep tr);
      [exact Inv|exact Hnin|exact Hi|exact Hserve|exact (serve_db ext s s'' _ rep tr Hserve)|reflexivity].
    injection Hstep as <- <-. exists lin. eapply lin_inv_same; [eassumption..|].
    right. split; [exact Hnin|]. right. exists body, (c :: l). repeat split; [exact Hd|discriminate|].
    intros b. apply Hrq.
  - pose proof (not_in_lin _ _ _ _ _ _ Inv Hnth eq_refl) as Hnin.
    destruct (li_pending _ _ _ _ Inv i _ Hnth Hnin) as [?|(body & q' & Hd & Hq & Hrq & [= <-])]; [discriminate|].
    destruct (bot_response ext (srv_bot s) q) as [rc b'] eqn:Hb. injection Hstep as <- <-.
    destruct (after_bot_pure ext (srv_db s) q rc [EvBotResponse q]) as (res & tr & Ha).
    exists (lin ++ [i]). eapply lin_inv_snoc with (rep := reply_of res) (tr := tr); try eassumption.
    + unfold serve, run_query. rewrite Hd, query_bot_split, Hrq.
      destruct q as [|c l]; [contradiction|]. now rewrite Hb, Ha.
    + reflexivity.
    + cbn. now rewrite Ha.
  - destruct (after_bot_pure ext (srv_db s) q rc [EvBotResponse q]) as (res & tr & Ha).
    rewrite Ha in Hstep. injection Hstep as <- <-. exists lin.
    replace (mk_server (srv_db s) (srv_bot s)) with s by now destruct s.
    eapply lin_inv_same; [eassumption..|]. left. split.
    + destruct (in_dec Nat.eq_dec i lin) as [Hin|Hnin]; [exact Hin|exfalso].
      destruct (li_pending _ _ _ _ Inv i _ Hnth Hnin) as [?|(? & ? & _ & _ & _ & ?)]; discriminate.
    + cbn. now rewrite Ha.
Qed.
Lemma lin_inv_start s0 reqs : lin_inv s0 reqs (start s0 reqs) [].
Proof.
  constructor; cbn; [now rewrite length_map|constructor|reflexivity|exists []; split; reflexivity|].
  intros i t Hi _. left. rewrite nth_error_map in Hi.
  destruct (nth_error reqs i) as [r|] eqn:E; [|discriminate]. injection Hi as <-.
  now rewrite (nth_error_nth reqs i dreq E).
Qed.

Lemma lin_inv_star s0 reqs (w w' : @world P B) lin :
  wstar ext w w' -> lin_inv s0 reqs w lin -> exists lin', lin_inv s0 reqs w' lin'.
Proof.
  intros H. revert lin. induction H as [w|w1 w2 w3 H12 _ IH]; intros lin Inv; [eauto|].
  destruct (lin_inv_step _ _ _ _ _ Inv H12) as [lin' Inv']. eauto.
Qed.

(** In a world where every thread has replied, the replies the order
    records are the threads' own. *)
Lemma outcomes_done (w : @world P B) (lin : list nat) outs :
  forallb is_done (w_threads w) = true -> map (outcome_at w) lin = map Some outs ->
  map (nth_error (w_threads w)) lin = map (fun o => Some (TDone (fst o) (snd o))) outs.
Proof.
  intros Hall. revert outs. induction lin as [|i lin IH]; intros [|o outs] H; try discriminate; [reflexivity|].
  injection H as Ho H. cbn. rewrite (IH outs H). f_equal. unfold outcome_at in Ho.
  destruct (nth_error (w_threads w) i) as [t|] eqn:E; [|discriminate].
  apply nth_error_In, (proj1 (forallb_forall _ _) Hall) in E.
  destruct t as [| | |rep tr]; try discriminate. now injection Ho as <-.
Qed.

(** Requests keep arriving: a new thread on a new request leaves the
    invariant in place, the new thread pending. *)
Lemma lin_inv_arrive s0 reqs (s : server P B) ts lin req :
  lin_inv s0 reqs (mk_world s ts) lin ->
  lin_inv s0 (reqs ++ [req]) (mk_world s (ts ++ [TNew req])) lin.
Proof.
  intros [Hlen Hnd Hdb (outs & Hser & Hout) Hpend]. cbn in *.
  assert (Hlt : forall i, In i lin -> i < length ts).
  { intros i Hi. destruct (in_lin_outcome (mk_world s ts) lin outs i Hout Hi) as [o Ho].
    unfold outcome_at in Ho. cbn in Ho. apply nth_error_Some. now destruct (nth_error ts i). }
  constructor; cbn; [rewrite !length_app; cbn; lia|exact Hnd|exact Hdb| |].
  - exists outs. split.
    + rewrite <- Hser. f_equal. apply map_ext_in. intros i Hi. apply app_nth1. rewrite <- Hlen. auto.
    + rewrite <- Hout. apply map_ext_in. intros i Hi. unfold outcome_at. cbn.
      now rewrite nth_error_app1 by auto.
  - intros i t Hi Hni. destruct (Nat.lt_ge_cases i (length ts)) as [Hl|Hg].
    + rewrite nth_error_app1 in Hi by exact Hl. rewrite app_nth1 by lia. now apply Hpend.
    + rewrite nth_error_app2 in Hi by exact Hg.
      destruct (i - length ts) as [|k] eqn:E; [|destruct k; discriminate].
      injection Hi as <-. left. rewrite app_nth2 by lia. rewrite <- Hlen, E. reflexivity.
Qed.

(** A thread that has replied has been linearized. *)
Lemma done_in_lin s0 reqs (w : @world P B) lin i rep tr :
  lin_inv s0 reqs w lin -> nth_error (w_threads w) i = Some (TDone rep tr) -> In i lin.
Proof.
  intros Inv Hi. destruct (in_dec Nat.eq_dec i lin) as [H|H]; [exact H|exfalso].
  destruct (li_pending _ _ _ _ Inv i _ Hi H) as [?|(? & ? & _ & _ & _ & ?)]; discriminate.
Qed.

(** Each reply of a run one at a time is [serve] on its request, at a
    state with the database of the start. *)
Lemma serve_seq_each (s0 : server P B) rs outs s :
  serve_seq ext s0 rs = (outs, s) ->
  Forall2 (fun r o => exists s1 s2, srv_db s1 = srv_db s0 /\ serve ext s1 r = (fst o, s2, snd o)) rs outs.
Proof.
  revert s0 outs s. induction rs as [|r rs IH]; intros s0 outs s; cbn.
  - intros [= <- _]. constructor.
  - destruct (serve ext s0 r) as [[rep s1] tr] eqn:E. destruct (serve_seq ext s1 rs) as [outs' s2] eqn:E'.
    intros [= <- <-]. constructor; [exists s0, s1; split; [reflexivity|exact E]|].
    eapply Forall2_impl; [|exact (IH _ _ _ E')]. cbn.
    intros r' o (s3 & s4 & Hd & Hs). exists s3, s4. split; [|exact Hs].
    rewrite Hd. exact (serve_db ext _ _ _ _ _ E).
Qed.

Lemma Forall2_map_lin {X Y : Type} (R : X -> Y -> Prop) (f : nat -> X) (g : nat -> option Y) :
  forall (l : list nat) (ys : list Y) i y,
  Forall2 R (map f l) ys -> map g l = map Some ys -> In i l -> g i = Some y -> R (f i) y.
Proof.
  induction l as [|j l IH]; intros ys i y HF Hm Hi Hg; [destruct Hi|].
  destruct ys as [|y' ys]; [discriminate|]. inversion HF; subst. injection Hm as Hj Hm.
  destruct Hi as [<-|Hi]; [congruence|]. eapply IH; eassumption.
Qed.

(** The reply a thread sent is that of [serve] on its request, at a
    state with the database of the start. *)
Lemma lin_reply_served s0 reqs (w : @world P B) lin i rep tr :
  lin_inv s0 reqs w lin -> nth_error (w_threads w) i = Some (TDone rep tr) ->
  exists s1 s2, srv_db s1 = srv_db s0 /\ serve ext s1 (nth i reqs dreq) = (rep, s2, tr).
Proof.
  intros Inv Hi. pose proof (done_in_lin _ _ _ _ _ _ _ Inv Hi) as Hin.
  destruct (li_serial _ _ _ _ Inv) as (outs & Hser & Hout).
  apply serve_seq_each in Hser.
  exact (Forall2_map_lin _ (fun i => nth i reqs dreq) (outcome_at w) lin outs i (rep, tr)
           Hser Hout Hin (ltac:(unfold outcome_at; now rewrite Hi))).
Qed.
End Linearizability.

Section ThreadTheorems.
Context {U : UnicodeDB} {P : Pickle} {B : Type} (ext : externals B).

Lemma threaded_serving_linearizable_core (s0 : server P B) (reqs : list request) (w : @world P B) :
  wstar ext (start s0 reqs) w -> forallb is_done (w_threads w) = true ->
  exists ord outs,
    Permutation ord (seq 0 (length reqs))
    /\ serve_seq ext s0 (map (fun i => nth i reqs dreq) ord) = (outs, w_srv w)
    /\ map (nth_error (w_threads w)) ord = map (fun o => Some (TDone (fst o) (snd o))) outs.
Proof.
  intros Hrun Hall. destruct (lin_inv_star ext s0 reqs _ _ [] Hrun (lin_inv_start ext s0 reqs)) as [lin Inv].
  pose proof Inv as [Hlen Hnd _ (outs & Hser & Hout) Hpend].
  exists lin, outs. split; [|split; [exact Hser|exact (outcomes_done ext w lin outs Hall Hout)]].
  apply NoDup_Permutation; [exact Hnd|apply seq_NoDup|]. intros i. rewrite in_seq. split.
  - intros Hin. destruct (in_lin_outcome ext _ _ _ i Hout Hin) as [o Ho]. unfold outcome_at in Ho.
    destruct (nth_error (w_threads w) i) eqn:E; [|discriminate].
    assert (i < length (w_threads w)) by (apply nth_error_Some; congruence). lia.
  - intros [_ Hi]. destruct (in_dec Nat.eq_dec i lin) as [|Hnin]; [assumption|exfalso].
    destruct (nth_error (w_threads w) i) as [t|] eqn:E; [|apply nth_error_None in E; lia].
    pose proof (proj1 (forallb_forall _ _) Hall t (nth_error_In _ _ E)) as Hd.
    destruct (Hpend i t E Hnin) as [->|(? & ? & _ & _ & _ & ->)]; discriminate.
Qed.

Lemma wstar_trans (w1 w2 w3 : @world P B) : wstar ext w1 w2 -> wstar ext w2 w3 -> wstar ext w1 w3.
Proof. induction 1; [auto|]. intros H23. econstructor; [eassumption|auto]. Qed.

(** A scheduler's run is an interleaving. *)
Lemma run_schedule_wstar (w : @world P B) (sched : list nat) : wstar ext w (run_schedule ext w sched).
Proof.
  revert w. induction sched as [|i sched IH]; intros w; [constructor|].
  cbn. eapply wstar_trans; [|apply IH]. unfold sched_step.
  destruct (nth_error (w_threads w) i) as [t|] eqn:E; [|constructor].
  destruct (thread_step ext (w_srv w) t) as [[s' t']|] eqn:Hs; [|constructor].
  destruct w as [s ts]. econstructor; [econstructor; eassumption|constructor].
Qed.

(** C2: threaded serving is linearizable: whatever the interleaving
    of the request threads, once every thread has replied there is an
    order of the requests (the order of their ChatterBot calls) in
    which serving them one at a time from the same state gives each
    request the reply and the events its thread had, and leaves the
    same database and bot state. *)
Theorem threaded_serving_linearizable (s0 : server P B) (reqs : list request) (w : @world P B) :
  wstar ext (start s0 reqs) w -> forallb is_done (w_threads w) = true ->
  exists ord outs,
    Permutation ord (seq 0 (length reqs))
    /\ serve_seq ext s0 (map (fun i => nth i reqs dreq) ord) = (outs, w_srv w)
    /\ map (nth_error (w_threads w)) ord = map (fun o => Some (TDone (fst o) (snd o))) outs.
Proof. apply threaded_serving_linearizable_core. Qed.

End ThreadTheorems.

(** ** Runs *)

(** Two requests accepted together on the serving state of the design's
    scenario: a query and the home page. *)
Definition query_req (q : pystr) : request :=
  mk_request POST (py "/query") (JsonObject (FieldStr q)).

Definition scenario_srv : server model_pickle unit :=
  mk_server (app_db scenario_serving) (app_bot scenario_serving).

Definition two_requests : list request := [query_req (py "How did revenue perform?"); mk_request GET (py "/") NotJson].

(** An interleaving: the page is served between the query's dispatch
    and its ChatterBot call. *)
Definition interleaved_run : @world model_pickle unit :=
  run_schedule scenario_ext (start scenario_srv two_requests) [0; 1; 0; 0].

Lemma threaded_serving_linearizable_witness :
  exists ord outs,
    Permutation ord (seq 0 (length two_requests))
    /\ serve_seq scenario_ext scenario_srv (map (fun i => nth i two_requests dreq) ord) = (outs, w_srv interleaved_run)
    /\ map (nth_error (w_threads interleaved_run)) ord = map (fun o => Some (TDone (fst o) (snd o))) outs.
Proof.
  apply threaded_serving_linearizable; [apply run_schedule_wstar|vm_compute; reflexivity].
Defined.

(** A bot that learns: its first reply has confidence 0, every later
    one is a confident "Revenue grew 10%.".  The state counts the
    calls. *)
Definition learning_ext : externals nat :=
  mk_externals nat
    (fun b _ => if Nat.eqb b 0 then ((py "Hello", 0%Q), 1) else ((py "Revenue grew 10%.", 9 # 10), S b))
    (encode scenario_ext) (fuzz_ratio scenario_ext).
