(* ===== verification/Process.v ===== *)
(** * The process under [app.run(debug=True)] (app.py, lines 185-199)

    With [debug=True], [app.run] turns on Werkzeug's reloader: the
    process that ran the main block (table creation, ingestion,
    training) does not serve; it starts a child that runs the whole
    script again, main block included, and the child serves.  When a
    source file changes the reloader kills the child and starts a new
    one, which runs the main block again; a child that exits with an
    error ends the process.  The database file and ChatterBot's
    storage (an SQLite file) outlive the child.  The child serves
    each request in a thread of its own ([Threads]).

    [pstate] is the state of the whole process: the parent booting,
    a child booting on the database and bot state it inherits, a
    child serving (its threads, and the log of the requests it has
    accepted, thread [i] serving request [i]), or the end after an
    exception.  [pstep] is one event: a boot, a reload, or an event of
    a serving child ([serving_step]: a request accepted, a step of a
    thread).

    The theorems: every reachable state of a serving child was reached
    from the state [s0] its own boot committed by serving events only;
    its database is that of [s0] and holds the document; and the
    threads' replies are those of serving the linearized requests one
    at a time from [s0] (an invariant
    [pinv] established by each boot and kept by every event); so every
    JSON string query any thread has answered got a JSON reply; and a
    fault-free start ingests the document twice, the served rows
    having ids [n+1 .. 2n] on a fresh database, and trains the bot
    twice. *)

From Stdlib Require Import List Arith Lia Bool NArith.
From S2P Require Import Prelude PyStr Segmenter VectorStore Trainer Orchestrator Main Server Threads.
Import ListNotations.
Local Open Scope nat_scope.

Inductive pstate (P : Pickle) (B : Type) :=
| PBoot (d : db P) (b : B)
| PChild (d : db P) (b : B)
| PServe (w : @world P B) (reqs : list request)
| PCrashed (e : store_error).
Arguments PBoot {P B}.
Arguments PChild {P B}.
Arguments PServe {P B}.
Arguments PCrashed {P B}.

Section Process.
Context {U : UnicodeDB} {P : Pickle} {B : Type} (ext : externals B)
  (list_train : B -> list pystr -> B) (extract_text : pystr -> option pystr).

(** The events of a serving child: a request accepted (a thread
    started on it, the request logged), or a step of a thread. *)
Inductive serving_step : pstate P B -> pstate P B -> Prop :=
| accept w reqs req :
    serving_step (PServe w reqs) (PServe (mk_world (w_srv w) (w_threads w ++ [TNew req])) (reqs ++ [req]))
| run w w' reqs :
    wstep ext w w' -> serving_step (PServe w reqs) (PServe w' reqs).

Inductive serving_star : pstate P B -> pstate P B -> Prop :=
| serving_refl p : serving_star p p
| serving_snoc p1 p2 p3 : serving_star p1 p2 -> serving_step p2 p3 -> serving_star p1 p3.

(** The failures of each boot's transactions are any [fi], [fs]. *)
Inductive pstep : pstate P B -> pstate P B -> Prop :=
| parent_boot_ok fi fs d b d' b' :
    main list_train extract_text (encode ext) fi fs d b = (d', b', None) ->
    pstep (PBoot d b) (PChild d' b')
| parent_boot_crash fi fs d b d' b' e :
    main list_train extract_text (encode ext) fi fs d b = (d', b', Some e) ->
    pstep (PBoot d b) (PCrashed e)
| child_boot_ok fi fs d b d' b' :
    main list_train extract_text (encode ext) fi fs d b = (d', b', None) ->
    pstep (PChild d b) (PServe (mk_world (mk_server d' b') []) [])
| child_boot_crash fi fs d b d' b' e :
    main list_train extract_text (encode ext) fi fs d b = (d', b', Some e) ->
    pstep (PChild d b) (PCrashed e)
| serving p p' :
    serving_step p p' -> pstep p p'
| reload w reqs :
    pstep (PServe w reqs) (PChild (srv_db (w_srv w)) (srv_bot (w_srv w))).

Inductive preachable : pstate P B -> Prop :=
| preach_start d b : preachable (PBoot d b)
| preach_step p p' : preachable p -> pstep p p' -> preachable p'.

(** The threads of a serving child run: the process follows them. *)
Lemma preachable_wstar (w w' : @world P B) reqs :
  preachable (PServe w reqs) -> wstar ext w w' -> preachable (PServe w' reqs).
Proof.
  intros Hr H. revert Hr. induction H as [w|w1 w2 w3 H12 _ IH]; intros Hr; [exact Hr|].
  apply IH. eapply preach_step; [exact Hr|]. now apply serving, run.
Qed.
End Process.

(** ** The invariant *)

Section ProcessTheorems.
Context {U : UnicodeDB} {P : Pickle} {B : Type} (ext : externals B)
  (list_train : B -> list pystr -> B) (extract_text : pystr -> option pystr).
(** The document has chunks, and the model has one output length. *)
Hypothesis doc_chunks : extract_pdf_text extract_text pdf_name <> [].
Hypothesis encoder_dim : forall x y, length (encode ext x) = length (encode ext y).

Definition doc_loads (d : db P) : Prop :=
  load_data_from_db d = inr (extract_pdf_text extract_text pdf_name,
                             map (encode ext) (extract_pdf_text extract_text pdf_name)).

(** A serving child started serving in the state [s0] its boot
    committed, on a database holding the document, has since only
    accepted requests and run threads, and its threads are
    linearizable from [s0]. *)
Definition pinv (p : pstate P B) : Prop :=
  match p with
  | PServe w reqs =>
      exists s0 lin,
        (exists fi fs d b, preachable ext list_train extract_text (PChild d b)
           /\ main list_train extract_text (encode ext) fi fs d b = (srv_db s0, srv_bot s0, None))
        /\ serving_star ext (PServe (mk_world s0 []) []) (PServe w reqs)
        /\ doc_loads (srv_db s0) /\ lin_inv ext s0 reqs w lin
  | _ => True
  end.

Lemma pinv_serving (w w' : @world P B) reqs reqs' :
  pinv (PServe w reqs) -> serving_step ext (PServe w reqs) (PServe w' reqs') -> pinv (PServe w' reqs').
Proof.
  intros (s0 & lin & Hb & Hst & Hd & Hl) Hs.
  assert (Hst' : serving_star ext (PServe (mk_world s0 []) []) (PServe w' reqs')) by (econstructor; eassumption).
  inversion Hs as [w1 reqs1 req|w1 w2 reqs1 Hw]; subst.
  - exists s0, lin. destruct w as [s ts]. split; [exact Hb|]. split; [exact Hst'|]. split; [exact Hd|].
    now apply lin_inv_arrive.
  - destruct (lin_inv_step _ _ _ _ _ _ Hl Hw) as [lin' Hl']. exists s0, lin'. now split; [|split; [|split]].
Qed.

Lemma pinv_reachable (p : pstate P B) : preachable ext list_train extract_text p -> pinv p.
Proof.
  induction 1 as [d b|p p' Hr IH Hs]; [exact I|].
  destruct Hs as [| |fi fs d b d' b' Hm| |p p' Hs|]; cbn; auto.
  - exists (mk_server d' b'), []. split; [|split; [|split]].
    + exists fi, fs, d, b. split; [exact Hr|exact Hm].
    + constructor.
    + exact (proj2 (main_ok_loads _ _ _ _ _ _ _ _ _ doc_chunks encoder_dim Hm)).
    + exact (lin_inv_start ext (mk_server d' b') []).
  - destruct Hs as [w reqs req|w w' reqs Hw]; eapply pinv_serving; eauto; constructor; assumption.
Qed.

(** A fault-free boot on a database whose AUTOINCREMENT counter is at
    [k] stores the document under ids [k+1 ..] and trains the bot. *)
Definition seq_of (d : db P) : nat := match d with None => 0 | Some t => sqlite_seq t end.

Lemma main_no_fault (d : db P) (b : B) :
  main list_train extract_text (encode ext) (fun _ => false) (fun _ => false) d b
  = (Some (mk_table (new_rows (seq_of d) (combine (extract_pdf_text extract_text pdf_name)
                                           (map (encode ext) (extract_pdf_text extract_text pdf_name))))
                    (seq_of d + length (extract_pdf_text extract_text pdf_name))),
     train_chatbot B list_train extract_text b, None).
Proof.
  unfold main. rewrite init_db_no_fault, compute_and_store_no_fault by exact doc_chunks.
  now destruct d.
Qed.

(** C12: in every state of a serving child that the process reaches,
    whatever failed at the boots, however many reloads came before and
    however the request threads interleaved: the child started serving
    in the state [s0] its own boot committed (from a reachable child
    boot), has since only accepted requests and run threads, and its
    database, still that of [s0], holds the document's chunks and
    embeddings; and there is an order of the threads that have passed
    their ChatterBot call (every thread that has replied among them)
    such that serving their requests one at a time in that order from
    [s0] gives each of them its reply and events and leaves the
    current shared state. *)
Theorem process_linearizable (w : @world P B) (reqs : list request) :
  preachable ext list_train extract_text (PServe w reqs) ->
  exists s0 lin outs,
    (exists fi fs d b, preachable ext list_train extract_text (PChild d b)
       /\ main list_train extract_text (encode ext) fi fs d b = (srv_db s0, srv_bot s0, None)
       /\ pstep ext list_train extract_text (PChild d b) (PServe (mk_world s0 []) []))
    /\ serving_star ext (PServe (mk_world s0 []) []) (PServe w reqs)
    /\ srv_db (w_srv w) = srv_db s0 /\ doc_loads (srv_db s0)
    /\ NoDup lin
    /\ serve_seq ext s0 (map (fun i => nth i reqs dreq) lin) = (outs, w_srv w)
    /\ map (outcome_at ext w) lin = map Some outs
    /\ (forall i rep tr, nth_error (w_threads w) i = Some (TDone rep tr) -> In i lin).
Proof.
  intros Hr. destruct (pinv_reachable _ Hr) as (s0 & lin & (fi & fs & d & b & Hc & Hm) & Hst & Hd & Hl).
  destruct (li_serial _ _ _ _ _ Hl) as (outs & Hs & Ho).
  exists s0, lin, outs. repeat split; try assumption.
  - exists fi, fs, d, b. repeat split; [exact Hc|exact Hm|]. destruct s0. eapply child_boot_ok. exact Hm.
  - exact (li_db _ _ _ _ _ Hl).
  - exact (li_nodup _ _ _ _ _ Hl).
  - intros i rep tr Hi. exact (done_in_lin _ _ _ _ _ _ _ _ Hl Hi).
Qed.

(** C13: in every reachable state of the process, a thread that has
    answered a POST to ["/query"] of a JSON object whose ["query"] is
    a string has sent a JSON reply (HTTP 200), never an error 500,
    whatever the other threads did in between. *)
Theorem process_replies_json (w : @world P B) (reqs : list request) i rep tr (q : pystr) :
  preachable ext list_train extract_text (PServe w reqs) ->
  nth_error (w_threads w) i = Some (TDone rep tr) ->
  nth i reqs dreq = mk_request POST (py "/query") (JsonObject (FieldStr q)) ->
  exists r, rep = Json r.
Proof.
  intros Hr Hi Hq. destruct (pinv_reachable _ Hr) as (s0 & lin & _ & _ & Hd & Hl).
  destruct (lin_reply_served ext _ _ _ _ _ _ _ Hl Hi) as (s1 & s2 & Hdb & Hs).
  rewrite Hq in Hs.
  destruct (serve_query_json ext extract_text doc_chunks encoder_dim s1 q) as (r & s' & tr' & Hj).
  { rewrite Hdb. exact Hd. }
  rewrite Hj in Hs. injection Hs as <- _ _. eauto.
Qed.

(** C14: the reloader of [debug=True] runs the main block twice: on a
    fresh database, a start without failures ingests the document
    once in the parent and again in the child, so the rows the child
    serves have the ids [n+1 .. 2n] (the DELETE keeps the
    AUTOINCREMENT counter) and the bot has been trained twice on the
    same conversation; the database still holds the document once. *)
Theorem debug_boot_twice (b : B) :
  let n := length (extract_pdf_text extract_text pdf_name) in
  let b1 := train_chatbot B list_train extract_text b in
  let b2 := train_chatbot B list_train extract_text b1 in
  exists d1 t,
    pstep ext list_train extract_text (PBoot None b) (PChild d1 b1)
    /\ pstep ext list_train extract_text (PChild d1 b1) (PServe (mk_world (mk_server (Some t) b2) []) [])
    /\ main list_train extract_text (encode ext) (fun _ => false) (fun _ => false) None b = (d1, b1, None)
    /\ main list_train extract_text (encode ext) (fun _ => false) (fun _ => false) d1 b1 = (Some t, b2, None)
    /\ map row_id (rows t) = seq (S n) n
    /\ doc_loads (Some t).
Proof.
  intros n b1 b2. pose proof (main_no_fault None b) as H1.
  match type of H1 with _ = (Some ?t, _, _) => pose proof (main_no_fault (Some t) b1) as H2 end.
  cbn [seq_of sqlite_seq] in H1, H2.
  eexists _, _. split; [eapply parent_boot_ok; exact H1|].
  split; [eapply child_boot_ok; exact H2|].
  split; [exact H1|]. split; [exact H2|]. split.
  - cbn [rows]. now rewrite new_rows_ids, length_combine_map.
  - exact (proj2 (main_ok_loads _ _ _ _ _ _ _ _ _ doc_chunks encoder_dim H2)).
Qed.
End ProcessTheorems.

(** ** Runs *)

(** The design's scenario under the reloader: both boots without
    failures, then one query accepted and its thread run to its
    reply. *)
Definition no_fault (_ : nat) : bool := false.

Definition demo_boot1 : db model_pickle * unit * option store_error :=
  main (fun (b : unit) _ => b) scenario_extract (encode scenario_ext) no_fault no_fault None tt.

Definition demo_boot2 : db model_pickle * unit * option store_error :=
  main (fun (b : unit) _ => b) scenario_extract (encode scenario_ext) no_fault no_fault
    (fst (fst demo_boot1)) (snd (fst demo_boot1)).

Definition demo_req : request := query_req (py "How did revenue perform?").

Definition demo_w : @world model_pickle unit :=
  run_schedule scenario_ext
    (mk_world (mk_server (fst (fst demo_boot2)) (snd (fst demo_boot2))) [TNew demo_req]) [0; 0; 0].

Lemma demo_boot1_ok : demo_boot1 = (fst (fst demo_boot1), snd (fst demo_boot1), None).
Proof. vm_compute. reflexivity. Qed.

Lemma demo_boot2_ok : demo_boot2 = (fst (fst demo_boot2), snd (fst demo_boot2), None).
Proof. vm_compute. reflexivity. Qed.

Lemma demo_reachable :
  preachable scenario_ext (fun (b : unit) _ => b) scenario_extract (PServe demo_w [demo_req]).
Proof.
  apply preachable_wstar with (w := mk_world (mk_server (fst (fst demo_boot2)) (snd (fst demo_boot2))) [TNew demo_req]);
    [|apply run_schedule_wstar].
  change [TNew demo_req] with ([] ++ [TNew demo_req]).
  change [demo_req] with ([] ++ [demo_req]).
  eapply preach_step; [|apply serving, (accept _ (mk_world (mk_server (fst (fst demo_boot2)) (snd (fst demo_boot2))) []))].
  eapply preach_step; [|eapply child_boot_ok; exact demo_boot2_ok].
  eapply preach_step; [apply (preach_start _ _ _ None tt)|].
  eapply parent_boot_ok. exact demo_boot1_ok.
Qed.

Lemma process_linearizable_witness :
  exists s0 lin outs,
    (exists fi fs d b, preachable scenario_ext (fun (b : unit) _ => b) scenario_extract (PChild d b)
       /\ main (fun (b : unit) _ => b) scenario_extract (encode scenario_ext) fi fs d b = (srv_db s0, srv_bot s0, None)
       /\ pstep scenario_ext (fun (b : unit) _ => b) scenario_extract (PChild d b) (PServe (mk_world s0 []) []))
    /\ serving_star scenario_ext (PServe (mk_world s0 []) []) (PServe demo_w [demo_req])
    /\ srv_db (w_srv demo_w) = srv_db s0 /\ doc_loads scenario_ext scenario_extract (srv_db s0)
    /\ NoDup lin
    /\ serve_seq scenario_ext s0 (map (fun i => nth i [demo_req] dreq) lin) = (outs, w_srv demo_w)
    /\ map (outcome_at scenario_ext demo_w) lin = map Some outs
    /\ (forall i rep tr, nth_error (w_threads demo_w) i = Some (TDone rep tr) -> In i lin).
Proof.
  apply (process_linearizable scenario_ext (fun (b : unit) _ => b) scenario_extract);
    [vm_compute; discriminate|intros; reflexivity|exact demo_reachable].
Defined.

Definition demo_reply : http_reply :=
  match nth_error (w_threads demo_w) 0 with Some (TDone rep _) => rep | _ => HttpError 0 end.

Definition demo_events : list event :=
  match nth_error (w_threads demo_w) 0 with Some (TDone _ tr) => tr | _ => [] end.

Lemma process_replies_json_witness : exists r, demo_reply = Json r.
Proof.
  apply (process_replies_json scenario_ext (fun (b : unit) _ => b) scenario_extract
           ltac:(vm_compute; discriminate) ltac:(intros; reflexivity)
           demo_w [demo_req] 0 demo_reply demo_events (py "How did revenue perform?"));
    [exact demo_reachable|vm_compute; reflexivity|reflexivity].
Defined.

(** A bot whose storage counts the statements it has learnt. *)
Definition count_train (b : nat) (conv : list pystr) : nat := b + length conv.

Lemma debug_boot_twice_witness :
  exists d1 t,
    main count_train scenario_extract (encode learning_ext) no_fault no_fault d1
      (train_chatbot nat count_train scenario_extract 0)
    = (Some t, train_chatbot nat count_train scenario_extract (train_chatbot nat count_train scenario_extract 0), None)
    /\ map row_id (rows t) = seq (S (length (extract_pdf_text scenario_extract pdf_name)))
                                 (length (extract_pdf_text scenario_extract pdf_name)).
Proof.
  destruct (debug_boot_twice learning_ext count_train scenario_extract
              ltac:(vm_compute; discriminate) ltac:(intros; reflexivity) 0)
    as (d1 & t & _ & _ & _ & H2 & Hids & _).
  exists d1, t. split; [exact H2|exact Hids].
Defined.
